(** * ziti-mcp: the SSE parser and the SSE transport state machine

    A shallow embedding of
    - [SSEParser] (transport/SSEParser.ts, unnamed/part_013),
    - [BaseTransport] (transport/ITransport.js, unnamed/part_004),
    - [Queue] and [ZitiSSETransport] (dist/transport/ZitiSSETransport.js),
    - [ZitiStreamImpl.close] and [_onError] (ziti/ZitiConnection.ts,
      unnamed/part_010), as far as the transport's teardown runs them.

    Conventions of the embedding.
    - A JavaScript string is a [string]; a character is a code unit.  A
      [Buffer] is a list of bytes; [feed] decodes each [Buffer] on its own
      ([Parser.chunkData]), and the parser from there on, like the claims
      about it, takes the decoded text.
    - [undefined] and [null] in an optional field are [None].
    - A method that emits events returns them, in order, next to the new
      state of the object.  The listeners of the transport's own events are
      observers (one of them listens to [error]): they do not call back into
      the transport.  The listeners that the transport itself registers, on
      the parser and on the stream, are run where the source runs them.
    - An [async] method is cut at each [await]: the part up to the first
      [await] is one function, the part after it is another one that takes
      what the awaited promise produced. *)

From Stdlib Require Import List String Ascii ZArith Bool Lia Arith.
From Stdlib Require Import DecimalString Decimal.
Import ListNotations.
Open Scope string_scope.

(** ** JavaScript string primitives used by the sources *)

Module JS.

Definition LF : ascii := "010"%char.
Definition CR : ascii := "013"%char.
Definition NUL : ascii := "000"%char.

Definition CRLFCRLF : string :=
  String CR (String LF (String CR (String LF EmptyString))).

(** [s.startsWith(p)] *)
Definition startsWith (s p : string) : bool := String.prefix p s.

(** [s.indexOf(p)], [None] for [-1]. *)
Fixpoint indexOf (s p : string) : option nat :=
  if startsWith s p then Some 0
  else match s with
       | EmptyString => None
       | String _ s' => option_map S (indexOf s' p)
       end.

(** [s.slice(n)] for [0 <= n]. *)
Fixpoint sliceFrom (s : string) (n : nat) {struct n} : string :=
  match n, s with
  | O, _ => s
  | S _, EmptyString => EmptyString
  | S n', String _ s' => sliceFrom s' n'
  end.

(** [s.slice(0, n)] for [0 <= n]. *)
Fixpoint sliceTo (s : string) (n : nat) {struct n} : string :=
  match n, s with
  | O, _ => EmptyString
  | S _, EmptyString => EmptyString
  | S n', String c s' => String c (sliceTo s' n')
  end.

(** [s.includes(c)] for a one-character needle. *)
Fixpoint includes (s : string) (c : ascii) : bool :=
  match s with
  | EmptyString => false
  | String d s' => Ascii.eqb d c || includes s' c
  end.

(** [s.split("\n")]: the pieces between line feeds; never empty. *)
Fixpoint splitLF (s : string) : list string :=
  match s with
  | EmptyString => [EmptyString]
  | String c s' =>
      if Ascii.eqb c LF then EmptyString :: splitLF s'
      else match splitLF s' with
           | [] => [String c EmptyString]
           | p :: ps => String c p :: ps
           end
  end.

(** Removes one trailing carriage return. *)
Fixpoint dropCR (s : string) : string :=
  match s with
  | EmptyString => EmptyString
  | String c EmptyString => if Ascii.eqb c CR then EmptyString else s
  | String c s' => String c (dropCR s')
  end.

(** [s.split(/\r?\n/)].  The pattern matches at each line feed and takes
    the carriage return just before it, if any, into the separator: every
    piece that a line feed ends loses one trailing carriage return, the
    last piece is kept as it is. *)
Definition split_CRLF (s : string) : list string :=
  let ps := splitLF s in
  (map dropCR (removelast ps) ++ [last ps EmptyString])%list.

(** [a.pop()]: the array without its last element, and that element. *)
Definition pop {A} (l : list A) : list A * option A :=
  match l with
  | [] => ([], None)
  | _ => (removelast l, nth_error l (List.length l - 1))
  end.

(** [a.join(sep)] *)
Definition join (l : list string) (sep : string) : string :=
  String.concat sep l.

(** White space as [parseInt] skips it, among the 8-bit code units. *)
Definition isWhiteSpace (c : ascii) : bool :=
  match nat_of_ascii c with
  | 9 | 10 | 11 | 12 | 13 | 32 | 160 => true
  | _ => false
  end.

Definition digitValue (c : ascii) : option Z :=
  let n := nat_of_ascii c in
  if (48 <=? n)%nat && (n <=? 57)%nat then Some (Z.of_nat (n - 48)) else None.

Fixpoint skipWhiteSpace (s : string) : string :=
  match s with
  | String c s' => if isWhiteSpace c then skipWhiteSpace s' else s
  | EmptyString => s
  end.

(** The longest run of decimal digits at the head of [s], as a number;
    [acc] is [None] until a digit has been read. *)
Fixpoint readDigits (acc : option Z) (s : string) : option Z :=
  match s with
  | EmptyString => acc
  | String c s' =>
      match digitValue c with
      | None => acc
      | Some d =>
          readDigits (Some (10 * match acc with Some a => a | None => 0 end + d)%Z) s'
      end
  end.

(** [parseInt(s, 10)]; [None] is [NaN].  The value is the exact integer
    (the rounding of a JavaScript number above 2^53 is not modelled, and
    [-0] is [0]). *)
Definition parseInt10 (s : string) : option Z :=
  match skipWhiteSpace s with
  | String "-" r => option_map Z.opp (readDigits None r)
  | String "+" r => readDigits None r
  | r => readDigits None r
  end.

End JS.

(** ** SSEParser (src/transport/SSEParser.ts) *)

(** [interface SSEEvent] *)
Record SSEEvent := mkSSEEvent {
  type : string;
  data : string;
  id : option string;
  retry : option Z
}.

(** The fields of [class SSEParser]. *)
Record SSEParser := mkSSEParser {
  buffer : string;
  eventType : string;
  eventData : list string;
  eventId : option string;
  lastEventId : option string;
  retryInterval : option Z;
  httpHeadersParsed : bool
}.

Module Parser.

(** [new SSEParser()] *)
Definition new : SSEParser :=
  {| buffer := ""; eventType := "message"; eventData := [];
     eventId := None; lastEventId := None; retryInterval := None;
     httpHeadersParsed := false |}.

(** Assignments to one field. *)
Definition setBuffer (p : SSEParser) (v : string) : SSEParser :=
  mkSSEParser v (eventType p) (eventData p) (eventId p) (lastEventId p)
    (retryInterval p) (httpHeadersParsed p).
Definition setEventType (p : SSEParser) (v : string) : SSEParser :=
  mkSSEParser (buffer p) v (eventData p) (eventId p) (lastEventId p)
    (retryInterval p) (httpHeadersParsed p).
Definition setEventData (p : SSEParser) (v : list string) : SSEParser :=
  mkSSEParser (buffer p) (eventType p) v (eventId p) (lastEventId p)
    (retryInterval p) (httpHeadersParsed p).
Definition setEventId (p : SSEParser) (v : option string) : SSEParser :=
  mkSSEParser (buffer p) (eventType p) (eventData p) v (lastEventId p)
    (retryInterval p) (httpHeadersParsed p).
Definition setLastEventId (p : SSEParser) (v : option string) : SSEParser :=
  mkSSEParser (buffer p) (eventType p) (eventData p) (eventId p) v
    (retryInterval p) (httpHeadersParsed p).
Definition setRetryInterval (p : SSEParser) (v : option Z) : SSEParser :=
  mkSSEParser (buffer p) (eventType p) (eventData p) (eventId p)
    (lastEventId p) v (httpHeadersParsed p).
Definition setHttpHeadersParsed (p : SSEParser) (v : bool) : SSEParser :=
  mkSSEParser (buffer p) (eventType p) (eventData p) (eventId p)
    (lastEventId p) (retryInterval p) v.

Definition resetEvent (p : SSEParser) : SSEParser :=
  setEventId (setEventData (setEventType p "message") []) None.

(** The event that [dispatchEvent] builds, if there is data. *)
Definition pendingEvent (p : SSEParser) : option SSEEvent :=
  match eventData p with
  | [] => None
  | _ => Some {| type := eventType p;
                 data := JS.join (eventData p) (String JS.LF "");
                 id := eventId p;
                 retry := retryInterval p |}
  end.

(** [if (this.eventId !== undefined) this.lastEventId = this.eventId] *)
Definition updateLastEventId (p : SSEParser) : SSEParser :=
  match eventId p with
  | Some i => setLastEventId p (Some i)
  | None => p
  end.

Definition dispatchEvent (p : SSEParser) : SSEParser * list SSEEvent :=
  match pendingEvent p with
  | None => (resetEvent p, [])
  | Some event => (resetEvent (updateLastEventId p), [event])
  end.

Definition processField (p : SSEParser) (field value : string) : SSEParser :=
  if field =? "event" then setEventType p value
  else if field =? "data" then setEventData p (eventData p ++ [value])%list
  else if field =? "id" then
    if negb (JS.includes value JS.NUL) then setEventId p (Some value) else p
  else if field =? "retry" then
    match JS.parseInt10 value with
    | Some r => if (0 <=? r)%Z then setRetryInterval p (Some r) else p
    | None => p
    end
  else p.

(** The value after the colon, one leading space skipped. *)
Definition stripSpace (value : string) : string :=
  if JS.startsWith value " " then JS.sliceFrom value 1 else value.

(** [processLine] on a line that is not empty. *)
Definition processFieldLine (p : SSEParser) (line : string) : SSEParser :=
  if JS.startsWith line ":" then p
  else
    match JS.indexOf line ":" with
    | None => processField p line ""
    | Some colonIndex =>
        processField p (JS.sliceTo line colonIndex)
          (stripSpace (JS.sliceFrom line (colonIndex + 1)))
    end.

Definition processLine (p : SSEParser) (line : string)
  : SSEParser * list SSEEvent :=
  if line =? "" then dispatchEvent p
  else (processFieldLine p line, []).

(** [for (const line of lines) this.processLine(line)] *)
Fixpoint processLines (p : SSEParser) (lines : list string)
  : SSEParser * list SSEEvent :=
  match lines with
  | [] => (p, [])
  | line :: rest =>
      let (p1, ev1) := processLine p line in
      let (p2, ev2) := processLines p1 rest in
      (p2, (ev1 ++ ev2)%list)
  end.

Definition processBuffer (p : SSEParser) : SSEParser * list SSEEvent :=
  let (lines, lastLine) := JS.pop (JS.split_CRLF (buffer p)) in
  let p1 := setBuffer p (match lastLine with Some l => l | None => "" end) in
  processLines p1 lines.

Definition feed (p : SSEParser) (chunk : string) : SSEParser * list SSEEvent :=
  let p1 := setBuffer p (buffer p ++ chunk) in
  if negb (httpHeadersParsed p1) then
    match JS.indexOf (buffer p1) JS.CRLFCRLF with
    | Some headerEnd =>
        processBuffer
          (setHttpHeadersParsed
             (setBuffer p1 (JS.sliceFrom (buffer p1) (headerEnd + 4))) true)
    | None => (p1, [])
    end
  else processBuffer p1.

(** What [feed] is given: a string, or a [Buffer]. *)
Inductive Chunk :=
| ChunkString (text : string)
| ChunkBuffer (bytes : list Byte.byte).

(** [typeof chunk === 'string' ? chunk : chunk.toString('utf-8')]: a
    [Buffer] is decoded alone, whatever the chunk before it ended with.
    [Buffer_toString] is that decoding. *)
Definition chunkData (Buffer_toString : list Byte.byte -> string)
    (chunk : Chunk) : string :=
  match chunk with
  | ChunkString text => text
  | ChunkBuffer bytes => Buffer_toString bytes
  end.

(** [feed(chunk)], from its first line on. *)
Definition feedChunk (Buffer_toString : list Byte.byte -> string)
    (p : SSEParser) (chunk : Chunk) : SSEParser * list SSEEvent :=
  feed p (chunkData Buffer_toString chunk).

Definition getLastEventId (p : SSEParser) : option string := lastEventId p.
Definition getRetryInterval (p : SSEParser) : option Z := retryInterval p.

Definition reset (p : SSEParser) : SSEParser :=
  setRetryInterval
    (setLastEventId
       (resetEvent (setHttpHeadersParsed (setBuffer p "") false)) None)
    None.

Definition hasPendingData (p : SSEParser) : bool :=
  (0 <? String.length (buffer p))%nat || (0 <? List.length (eventData p))%nat.

(** A sequence of [feed] calls, the events of all of them in order. *)
Fixpoint feedAll (p : SSEParser) (chunks : list string)
  : SSEParser * list SSEEvent :=
  match chunks with
  | [] => (p, [])
  | c :: rest =>
      let (p1, ev1) := feed p c in
      let (p2, ev2) := feedAll p1 rest in
      (p2, (ev1 ++ ev2)%list)
  end.

End Parser.

(** ** JSON values, as [JSON.parse] produces them *)

Set Warnings "-register-all".

(** A number is an integer here: ids, error codes and HTTP statuses are.
    [JNum n] stands for the JavaScript number [n] when [n] is a safe
    integer, [Value.isSafeInteger]; past that range a JavaScript number is
    a rounded value, which [JNum] does not give. *)
Inductive Json :=
| JNull
| JBool (b : bool)
| JNum (n : Z)
| JStr (s : string)
| JArr (elements : list Json)
| JObj (members : list (string * Json)).

Module Value.

(** [ToBoolean(v)] *)
Definition truthy (v : Json) : bool :=
  match v with
  | JNull => false
  | JBool b => b
  | JNum n => negb (n =? 0)%Z
  | JStr s => negb (s =? "")
  | JArr _ | JObj _ => true
  end.

Fixpoint lookup (k : string) (ms : list (string * Json)) : option Json :=
  match ms with
  | [] => None
  | (k', v) :: rest => if k =? k' then Some v else lookup k rest
  end.

(** [v.k] for one of the keys the transport reads ([id], [error],
    [result], [message]) and [v] other than [null]: an object's own
    member, [undefined] on every other value. *)
Definition member (k : string) (v : Json) : option Json :=
  match v with
  | JObj ms => lookup k ms
  | _ => None
  end.

(** The key comparison of [Map].  Arrays and objects are compared by
    reference, and no two values of the model are the same reference. *)
Definition sameValueZero (a b : Json) : bool :=
  match a, b with
  | JNull, JNull => true
  | JBool x, JBool y => Bool.eqb x y
  | JNum x, JNum y => (x =? y)%Z
  | JStr x, JStr y => (x =? y)
  | _, _ => false
  end.

(** [Number.isSafeInteger(n)]: [|n| <= 2^53 - 1]. *)
Definition isSafeInteger (n : Z) : bool :=
  (Z.abs n <=? 9007199254740991)%Z.

(** [String(n)] for a safe integer: its decimal digits.  Past the safe
    range JavaScript prints the digits of the rounded value, and from
    [10^21] on an exponent ([1e+21]); this function does not. *)
Definition Z_toString (z : Z) : string := NilZero.string_of_int (Z.to_int z).

(** [String(v)], as a template literal renders [v]. *)
Fixpoint toString (v : Json) : string :=
  match v with
  | JNull => "null"
  | JBool true => "true"
  | JBool false => "false"
  | JNum n => Z_toString n
  | JStr s => s
  | JArr l =>
      String.concat ","
        (map (fun x => match x with JNull => "" | _ => toString x end) l)
  | JObj _ => "[object Object]"
  end.

(** Every number that [toString] prints is a safe integer, so that the
    text is the one JavaScript builds. *)
Fixpoint safe (v : Json) : bool :=
  match v with
  | JNum n => isSafeInteger n
  | JArr l => forallb safe l
  | _ => true
  end.

End Value.

(** An [Error] object, by its message. *)
Inductive JSError :=
| Error (message : string).

(** [new Error(v)] for a value out of a parsed message: the message is
    empty for [undefined] and [String(v)] otherwise. *)
Definition newError (v : option Json) : JSError :=
  match v with
  | None => Error ""
  | Some x => Error (Value.toString x)
  end.

Definition errorMessage (e : JSError) : string :=
  match e with Error m => m end.

(** What a call that may throw does. *)
Inductive Outcome (A : Type) :=
| Returns (a : A)
| Throws (e : JSError).
Arguments Returns {A} a.
Arguments Throws {A} e.

(** ** Map, insertion ordered (the pending-request table) *)

Module Map.

Section WithValue.
Context {V : Type}.

Fixpoint get (m : list (Json * V)) (k : Json) : option V :=
  match m with
  | [] => None
  | (k', v) :: rest => if Value.sameValueZero k' k then Some v else get rest k
  end.

Fixpoint has (m : list (Json * V)) (k : Json) : bool :=
  match m with
  | [] => false
  | (k', _) :: rest => Value.sameValueZero k' k || has rest k
  end.

(** An existing key keeps its place, a new one goes last. *)
Fixpoint set (m : list (Json * V)) (k : Json) (v : V) : list (Json * V) :=
  match m with
  | [] => [(k, v)]
  | (k', v') :: rest =>
      if Value.sameValueZero k' k then (k', v) :: rest
      else (k', v') :: set rest k v
  end.

Fixpoint delete (m : list (Json * V)) (k : Json) : list (Json * V) :=
  match m with
  | [] => []
  | (k', v') :: rest =>
      if Value.sameValueZero k' k then rest else (k', v') :: delete rest k
  end.

(** No key occurs twice: what [set] maintains. *)
Fixpoint wf (m : list (Json * V)) : bool :=
  match m with
  | [] => true
  | (k, _) :: rest => negb (has rest k) && wf rest
  end.

End WithValue.

End Map.

(** ** Queue (src/utils/Queue.ts)

    The transport never calls [pop()], so no waiter is ever registered and
    [push] always appends. *)

Module Queue.

Definition Queue (T : Type) : Type := list T.

Definition push {T} (items : Queue T) (item : T) : Queue T :=
  (items ++ [item])%list.

(** [items.shift()] *)
Definition tryPop {T} (items : Queue T) : option T * Queue T :=
  match items with
  | [] => (None, [])
  | x :: rest => (Some x, rest)
  end.

Definition isEmpty {T} (items : Queue T) : bool :=
  match items with [] => true | _ => false end.

Definition length {T} (items : Queue T) : nat := List.length items.

End Queue.

(** ** BaseTransport (src/transport/ITransport.ts) and ZitiSSETransport *)

Inductive TransportState :=
| DISCONNECTED
| CONNECTING
| CONNECTED
| RECONNECTING
| CLOSED.

Definition TransportState_eqb (a b : TransportState) : bool :=
  match a, b with
  | DISCONNECTED, DISCONNECTED | CONNECTING, CONNECTING
  | CONNECTED, CONNECTED | RECONNECTING, RECONNECTING | CLOSED, CLOSED => true
  | _, _ => false
  end.

Record TransportOptions := mkOptions {
  autoReconnect : bool;
  maxReconnectAttempts : Z;
  reconnectDelay : Z;
  connectTimeout : Z;
  requestTimeout : Z
}.

(** The defaults of [BaseTransport]'s constructor. *)
Definition defaultOptions : TransportOptions :=
  {| autoReconnect := true; maxReconnectAttempts := 3; reconnectDelay := 1000;
     connectTimeout := 30000; requestTimeout := 60000 |}.

(** [ZitiStreamImpl] (src/ziti/ZitiConnection.ts), as the transport holds it. *)
Record ZitiStream := mkStream {
  handle : nat;
  _isOpen : bool
}.

Inductive Timer :=
| RequestTimer (n : nat)
| SessionTimer
| SessionPoll
| ReconnectDelay.

(** [{ resolve, reject, timeout }]: the promise of the [request()] call and
    its timer. *)
Record PendingRequest := mkPending {
  promise : nat;
  timeout : Timer
}.

(** The events of the transport's own [EventEmitter]. *)
Inductive TransportEvent :=
| ev_stateChange (state : TransportState)
| ev_connected
| ev_disconnected (reason : string)
| ev_reconnecting (attempt : nat)
| ev_error (e : JSError)
| ev_message (m : Json).

(** What a method does to the world outside the transport object.  Of the
    logger only the [error] lines are kept. *)
Inductive Effect :=
| Emit (e : TransportEvent)
| SetTimeout (timer : Timer) (ms : Z)
| ClearTimeout (timer : Timer)
| Resolve (promise : nat) (value : option Json)
| Reject (promise : nat) (reason : JSError)
| ZitiClose (handle : nat)
| CreateHttpStream (service path : string)
| HttpRequest (service path body : string)
| LogError (text : string) (detail : option string).

Record ZitiSSETransport := mkTransport {
  _state : TransportState;
  _sessionId : option string;
  options : TransportOptions;
  stream : option ZitiStream;
  sseParser : SSEParser;
  serviceName : string;
  ssePath : string;
  messagePath : string;
  messageQueue : Queue.Queue Json;
  pendingRequests : list (Json * PendingRequest);
  reconnectAttempts : nat;
  isProcessingQueue : bool
}.

(** What the promise of [httpRequest] produces: a response, or a rejection
    with the text that [sendImmediate] takes from it. *)
Inductive HttpOutcome :=
| Response (status : Z) (body : string)
| Rejected (message_error : string).

(** Where [send()] stands when it gives control back. *)
Inductive SendStep :=
| SendQueued
| SendAwaitsResponse.

(** Where [connect()] stands when it gives control back. *)
Inductive ConnectStep :=
| ConnectReturns
| ConnectThrows (e : JSError)
| ConnectAwaitsStream
| ConnectAwaitsSession.

(** What one run of [checkSession] finds. *)
Inductive SessionCheck :=
| SessionEstablished
| ClosedBeforeSession
| PollAgain.

(** What the promise of [waitForSession] comes to. *)
Inductive WaitOutcome :=
| WaitResolved
| WaitRejected (e : JSError).

Module Transport.

(** *** The state-and-effects monad of the methods *)

Definition M (A : Type) : Type :=
  ZitiSSETransport -> A * ZitiSSETransport * list Effect.

Definition ret {A} (a : A) : M A := fun t => (a, t, []).

Definition bind {A B} (m : M A) (k : A -> M B) : M B :=
  fun t =>
    let '(a, t1, e1) := m t in
    let '(b, t2, e2) := k a t1 in
    (b, t2, (e1 ++ e2)%list).

Definition get : M ZitiSSETransport := fun t => (t, t, []).
Definition modify (f : ZitiSSETransport -> ZitiSSETransport) : M unit :=
  fun t => (tt, f t, []).
Definition tell (e : Effect) : M unit := fun t => (tt, t, [e]).
Definition tellAll (es : list Effect) : M unit := fun t => (tt, t, es).
Definition emit (e : TransportEvent) : M unit := tell (Emit e).

Definition stateOf {A} (r : A * ZitiSSETransport * list Effect)
  : ZitiSSETransport := snd (fst r).
Definition effectsOf {A} (r : A * ZitiSSETransport * list Effect)
  : list Effect := snd r.
Definition valueOf {A} (r : A * ZitiSSETransport * list Effect) : A :=
  fst (fst r).

Declare Scope transport_scope.
Delimit Scope transport_scope with transport.
Notation "x <- m ;; k" := (bind m (fun x => k))
  (at level 61, m at next level, right associativity) : transport_scope.
Notation "m ;; k" := (bind m (fun _ => k))
  (at level 61, right associativity) : transport_scope.
Local Open Scope transport_scope.

(** *** Assignments to one field *)

Definition set_state v t :=
  mkTransport v (_sessionId t) (options t) (stream t) (sseParser t)
    (serviceName t) (ssePath t) (messagePath t) (messageQueue t)
    (pendingRequests t) (reconnectAttempts t) (isProcessingQueue t).
Definition set_sessionId v t :=
  mkTransport (_state t) v (options t) (stream t) (sseParser t)
    (serviceName t) (ssePath t) (messagePath t) (messageQueue t)
    (pendingRequests t) (reconnectAttempts t) (isProcessingQueue t).
Definition set_stream v t :=
  mkTransport (_state t) (_sessionId t) (options t) v (sseParser t)
    (serviceName t) (ssePath t) (messagePath t) (messageQueue t)
    (pendingRequests t) (reconnectAttempts t) (isProcessingQueue t).
Definition set_sseParser v t :=
  mkTransport (_state t) (_sessionId t) (options t) (stream t) v
    (serviceName t) (ssePath t) (messagePath t) (messageQueue t)
    (pendingRequests t) (reconnectAttempts t) (isProcessingQueue t).
Definition set_messageQueue v t :=
  mkTransport (_state t) (_sessionId t) (options t) (stream t) (sseParser t)
    (serviceName t) (ssePath t) (messagePath t) v
    (pendingRequests t) (reconnectAttempts t) (isProcessingQueue t).
Definition set_pendingRequests v t :=
  mkTransport (_state t) (_sessionId t) (options t) (stream t) (sseParser t)
    (serviceName t) (ssePath t) (messagePath t) (messageQueue t)
    v (reconnectAttempts t) (isProcessingQueue t).
Definition set_reconnectAttempts v t :=
  mkTransport (_state t) (_sessionId t) (options t) (stream t) (sseParser t)
    (serviceName t) (ssePath t) (messagePath t) (messageQueue t)
    (pendingRequests t) v (isProcessingQueue t).
Definition set_isProcessingQueue v t :=
  mkTransport (_state t) (_sessionId t) (options t) (stream t) (sseParser t)
    (serviceName t) (ssePath t) (messagePath t) (messageQueue t)
    (pendingRequests t) (reconnectAttempts t) v.

(** [new ZitiSSETransport(zitiConnection, options)] *)
Definition new (opts : TransportOptions) (service : string)
    (ssePath messagePath : option string) : ZitiSSETransport :=
  {| _state := DISCONNECTED; _sessionId := None; options := opts;
     stream := None; sseParser := Parser.new; serviceName := service;
     ssePath := match ssePath with
                | Some p => if p =? "" then "/sse" else p
                | None => "/sse"
                end;
     messagePath := match messagePath with
                    | Some p => if p =? "" then "/message" else p
                    | None => "/message"
                    end;
     messageQueue := []; pendingRequests := [];
     reconnectAttempts := 0; isProcessingQueue := false |}.

(** *** BaseTransport *)

Definition setState (state : TransportState) : M unit :=
  fun t =>
    if negb (TransportState_eqb (_state t) state)
    then (modify (set_state state) ;; emit (ev_stateChange state)) t
    else ret tt t.

Definition isReady (t : ZitiSSETransport) : bool :=
  TransportState_eqb (_state t) CONNECTED &&
  match _sessionId t with Some _ => true | None => false end.

(** *** Teardown *)

(** [for (const [_id, pending] of this.pendingRequests) ...] *)
Definition rejectPending (m : list (Json * PendingRequest)) : list Effect :=
  flat_map
    (fun kv => [ClearTimeout (timeout (snd kv));
                Reject (promise (snd kv)) (Error "Transport disconnected")])
    m.

(** [cleanup()].  [stream.close()] on an open stream marks it closed,
    closes the connection and emits [close] before it returns, and the
    listener that [connect()] put on the stream then runs
    [handleStreamClose]: that run is [onStreamClose]. *)
Definition cleanupWith (onStreamClose : M unit) : M unit :=
  t <- get ;;
  tellAll (rejectPending (pendingRequests t)) ;;
  modify (set_pendingRequests []) ;;
  match stream t with
  | Some s =>
      (if _isOpen s then
         modify (set_stream (Some (mkStream (handle s) false))) ;;
         tell (ZitiClose (handle s)) ;;
         onStreamClose
       else ret tt) ;;
      modify (set_stream None)
  | None => ret tt
  end ;;
  modify (fun t => set_sseParser (Parser.reset (sseParser t)) t) ;;
  modify (set_sessionId None).

(** [reconnect()] up to its first [await]: the wait of [delay]
    milliseconds, after which it goes on with [connect()]. *)
Definition reconnectWith (cleanup : M unit) : M unit :=
  t <- get ;;
  if (maxReconnectAttempts (options t) <=? Z.of_nat (reconnectAttempts t))%Z
  then
    tell (LogError
            ("Max reconnect attempts ("
             ++ Value.Z_toString (maxReconnectAttempts (options t))
             ++ ") exceeded") None) ;;
    setState DISCONNECTED ;;
    emit (ev_disconnected "Max reconnect attempts exceeded")
  else
    modify (set_reconnectAttempts (S (reconnectAttempts t))) ;;
    setState RECONNECTING ;;
    emit (ev_reconnecting (S (reconnectAttempts t))) ;;
    let delay :=
      (reconnectDelay (options t)
       * 2 ^ (Z.of_nat (S (reconnectAttempts t)) - 1))%Z in
    cleanup ;;
    tell (SetTimeout ReconnectDelay delay).

Definition handleStreamCloseWith (reconnect : M unit) : M unit :=
  t <- get ;;
  if TransportState_eqb (_state t) CLOSED then ret tt
  else
    modify (set_sessionId None) ;;
    if autoReconnect (options t) then reconnect
    else
      setState DISCONNECTED ;;
      emit (ev_disconnected "Stream closed").

(** The methods as they run inside [stream.close()]: the stream is marked
    closed by then, so the [close()] of this inner teardown does nothing. *)
Definition cleanup_inner : M unit := cleanupWith (ret tt).
Definition reconnect_inner : M unit := reconnectWith cleanup_inner.
Definition handleStreamClose_inner : M unit :=
  handleStreamCloseWith reconnect_inner.

Definition cleanup : M unit := cleanupWith handleStreamClose_inner.
Definition reconnect : M unit := reconnectWith cleanup.
Definition handleStreamClose : M unit := handleStreamCloseWith reconnect.

Definition handleStreamError (e : JSError) : M unit :=
  emit (ev_error e) ;;
  t <- get ;;
  if autoReconnect (options t) && negb (TransportState_eqb (_state t) CLOSED)
  then reconnect
  else
    setState DISCONNECTED ;;
    emit (ev_disconnected (errorMessage e)).

(** The listener of the stream's [error] event. *)
Definition onStreamError (e : JSError) : M unit :=
  tell (LogError "Stream error:" (Some (errorMessage e))) ;;
  handleStreamError e.

(** [ZitiStreamImpl._onError]: the stream marks itself closed, then emits
    [error]. *)
Definition stream_onError (e : JSError) : M unit :=
  modify (fun t => match stream t with
                   | Some s => set_stream (Some (mkStream (handle s) false)) t
                   | None => t
                   end) ;;
  onStreamError e.

Definition handleReconnectEvent : M unit := reconnect.

Definition disconnect : M unit :=
  setState CLOSED ;;
  cleanup ;;
  emit (ev_disconnected "User requested disconnect").

(** *** Sending *)

Section WithJSON.

(** [JSON.parse]; [inr] carries the thrown error as a template literal
    renders it.  [JSON.stringify]. *)
Variable JSON_parse : string -> Json + string.
Variable JSON_stringify : Json -> string.

(** [sendImmediate(message)] up to [await httpRequest(...)]. *)
Definition sendImmediate (message : Json) : M unit :=
  t <- get ;;
  let url := messagePath t ++ "?sessionId="
             ++ match _sessionId t with Some s => s | None => "null" end in
  let body := JSON_stringify message in
  tell (HttpRequest (serviceName t) url body).

(** [sendImmediate] from the response on. *)
Definition sendImmediate_resume (r : HttpOutcome) : M (Outcome unit) :=
  let catch (message_error : string) : M (Outcome unit) :=
    tell (LogError "Failed to send message:" (Some message_error)) ;;
    ret (Throws (Error ("Failed to send message: " ++ message_error))) in
  match r with
  | Response status body =>
      if (400 <=? status)%Z
      then catch ("Server error " ++ Value.Z_toString status ++ ": " ++ body)
      else ret (Returns tt)
  | Rejected message_error => catch message_error
  end.

(** [send(message)] up to its first [await], if it has one. *)
Definition send (message : Json) : M SendStep :=
  t <- get ;;
  if negb (isReady t) then
    modify (set_messageQueue (Queue.push (messageQueue t) message)) ;;
    ret SendQueued
  else
    sendImmediate message ;;
    ret SendAwaitsResponse.

(** [send] from the response on. *)
Definition send_resume (r : HttpOutcome) : M (Outcome unit) :=
  sendImmediate_resume r.

(** *** The drain of the message queue *)

(** The [while] loop of [processQueuedMessages], from its test, up to
    the next [await] or to the [finally] block.  [queue] is the content
    of [messageQueue] at that point: [message] is what [tryPop()] takes
    from it, [rest] what it leaves. *)
Fixpoint drainLoop (queue : list Json) : M unit :=
  match queue with
  | [] => modify (set_isProcessingQueue false)
  | message :: rest =>
      t <- get ;;
      if isReady t then
        modify (set_messageQueue rest) ;;
        if Value.truthy message then sendImmediate message
        else drainLoop rest
      else modify (set_isProcessingQueue false)
  end.

Definition processQueuedMessages : M unit :=
  t <- get ;;
  if isProcessingQueue t then ret tt
  else
    modify (set_isProcessingQueue true) ;;
    t1 <- get ;;
    drainLoop (messageQueue t1).

(** [processQueuedMessages] from the end of an awaited [sendImmediate]
    on. *)
Definition processQueuedMessages_resume (r : HttpOutcome) : M unit :=
  o <- sendImmediate_resume r ;;
  match o with
  | Returns _ => t <- get ;; drainLoop (messageQueue t)
  | Throws e =>
      tell (LogError "Error processing queued messages:"
              (Some (errorMessage e))) ;;
      modify (set_isProcessingQueue false)
  end.

(** *** Requests *)

(** [request(message)], for a [message] that is an object, up to the first
    [await] of its [send].  The promise it returns is [promise], its timer
    is [RequestTimer promise]. *)
Definition request (message : Json) (promise : nat)
  : M (Outcome SendStep) :=
  match Value.member "id" message with
  | None => ret (Throws (Error "Request message must have an id"))
  | Some i =>
      t <- get ;;
      tell (SetTimeout (RequestTimer promise) (requestTimeout (options t))) ;;
      modify (set_pendingRequests
                (Map.set (pendingRequests t) i
                   (mkPending promise (RequestTimer promise)))) ;;
      s <- send message ;;
      ret (Returns s)
  end.

(** The [catch] handler that [request] puts on its [send]. *)
Definition request_sendFailed (i : Json) (promise : nat) (e : JSError)
  : M unit :=
  tell (ClearTimeout (RequestTimer promise)) ;;
  modify (fun t => set_pendingRequests (Map.delete (pendingRequests t) i) t) ;;
  tell (Reject promise e).

(** The timer of [request] fires. *)
Definition request_timeout (i : Json) (promise : nat) : M unit :=
  modify (fun t => set_pendingRequests (Map.delete (pendingRequests t) i) t) ;;
  tell (Reject promise
          (Error ("Request timeout for id: " ++ Value.toString i))).

(** *** SSE events *)

Definition isTokenChar (c : ascii) : bool :=
  negb (Ascii.eqb c "&" || JS.isWhiteSpace c).

Fixpoint takeToken (s : string) : string :=
  match s with
  | String c s' => if isTokenChar c then String c (takeToken s') else ""
  | EmptyString => ""
  end.

(** [data.match(/sessionId=([^&\s]+)/)], the first group. *)
Fixpoint matchSessionId (s : string) : option string :=
  let here :=
    if JS.startsWith s "sessionId=" then
      match takeToken (JS.sliceFrom s 10) with
      | EmptyString => None
      | tok => Some tok
      end
    else None in
  match here with
  | Some tok => Some tok
  | None =>
      match s with
      | EmptyString => None
      | String _ s' => matchSessionId s'
      end
  end.

Definition handleEndpointEvent (event : SSEEvent) : M unit :=
  match matchSessionId (data event) with
  | Some sid =>
      modify (set_sessionId (Some sid)) ;;
      setState CONNECTED ;;
      emit ev_connected ;;
      modify (set_reconnectAttempts 0) ;;
      processQueuedMessages
  | None =>
      tell (LogError "Failed to extract sessionId from endpoint event" None) ;;
      emit (ev_error (Error "Invalid endpoint event: missing sessionId"))
  end.

Definition handleMessageEvent (event : SSEEvent) : M unit :=
  let catch (text : string) : M unit :=
    tell (LogError "Failed to parse message:" (Some (data event))) ;;
    emit (ev_error (Error ("Failed to parse MCP message: " ++ text))) in
  match JSON_parse (data event) with
  | inr thrown => catch thrown
  | inl JNull =>
      catch "TypeError: Cannot read properties of null (reading 'id')"
  | inl m =>
      t <- get ;;
      match Value.member "id" m with
      | Some i =>
          match Map.get (pendingRequests t) i with
          | Some pending =>
              tell (ClearTimeout (timeout pending)) ;;
              modify (set_pendingRequests
                        (Map.delete (pendingRequests t) i)) ;;
              match Value.member "error" m with
              | Some e =>
                  if Value.truthy e
                  then tell (Reject (promise pending)
                               (newError (Value.member "message" e)))
                  else tell (Resolve (promise pending)
                               (Value.member "result" m))
              | None =>
                  tell (Resolve (promise pending) (Value.member "result" m))
              end
          | None => emit (ev_message m)
          end
      | None => emit (ev_message m)
      end
  end.

Definition handleSSEEvent (event : SSEEvent) : M unit :=
  if type event =? "endpoint" then handleEndpointEvent event
  else if type event =? "message" then handleMessageEvent event
  else if type event =? "reconnect" then handleReconnectEvent
  else ret tt.

(** *** The stream's data, through the parser

    The parser calls its [event] listener, which is [handleSSEEvent],
    from inside [dispatchEvent]: the handler runs between two lines of
    the chunk and may reset the parser under it. *)

Definition modifyParser (f : SSEParser -> SSEParser) : M unit :=
  modify (fun t => set_sseParser (f (sseParser t)) t).

Definition parser_dispatchEvent : M unit :=
  t <- get ;;
  match Parser.pendingEvent (sseParser t) with
  | None => modifyParser Parser.resetEvent
  | Some event =>
      modifyParser Parser.updateLastEventId ;;
      handleSSEEvent event ;;
      modifyParser Parser.resetEvent
  end.

Fixpoint parser_processLines (lines : list string) : M unit :=
  match lines with
  | [] => ret tt
  | line :: rest =>
      (if line =? "" then parser_dispatchEvent
       else modifyParser (fun p => Parser.processFieldLine p line)) ;;
      parser_processLines rest
  end.

Definition parser_processBuffer : M unit :=
  t <- get ;;
  let (lines, lastLine) := JS.pop (JS.split_CRLF (buffer (sseParser t))) in
  modifyParser
    (fun p => Parser.setBuffer p
                (match lastLine with Some l => l | None => "" end)) ;;
  parser_processLines lines.

(** The listener of the stream's [data] event, [sseParser.feed(chunk)],
    past the decoding of the chunk: [chunk] is the decoded text. *)
Definition onStreamData (chunk : string) : M unit :=
  modifyParser (fun p => Parser.setBuffer p (buffer p ++ chunk)) ;;
  t <- get ;;
  let p := sseParser t in
  if negb (httpHeadersParsed p) then
    match JS.indexOf (buffer p) JS.CRLFCRLF with
    | Some headerEnd =>
        modifyParser
          (fun p => Parser.setHttpHeadersParsed
                      (Parser.setBuffer p
                         (JS.sliceFrom (buffer p) (headerEnd + 4))) true) ;;
        parser_processBuffer
    | None => ret tt
    end
  else parser_processBuffer.

(** The listener on the chunk as the stream emits it ([_onData] emits the
    [Buffer] it was handed). *)
Definition onStreamChunk (Buffer_toString : list Byte.byte -> string)
    (chunk : Parser.Chunk) : M unit :=
  onStreamData (Parser.chunkData Buffer_toString chunk).

(** *** Connecting *)

(** The [catch] block of [connect]. *)
Definition connect_catch (text : string) : M ConnectStep :=
  setState DISCONNECTED ;;
  tell (LogError "Connection failed:" (Some text)) ;;
  ret (ConnectThrows (Error ("Failed to connect: " ++ text))).

(** [connect()] up to [await createHttpStream(...)]; [isInitialized] is
    what [zitiConnection.isInitialized()] answers. *)
Definition connect (isInitialized : bool) : M ConnectStep :=
  t <- get ;;
  if TransportState_eqb (_state t) CONNECTED then ret ConnectReturns
  else
    setState CONNECTING ;;
    if negb isInitialized
    then connect_catch "ZitiConnection not initialized"
    else
      tell (CreateHttpStream (serviceName t) (ssePath t)) ;;
      ret ConnectAwaitsStream.

(** One run of [checkSession] inside [waitForSession]. *)
Definition checkSession (t : ZitiSSETransport) : SessionCheck :=
  if match _sessionId t with
     | Some s => negb (s =? "")
     | None => false
     end
  then SessionEstablished
  else if TransportState_eqb (_state t) DISCONNECTED
       then ClosedBeforeSession
       else PollAgain.

(** [connect] at a run of [checkSession]. *)
Definition connect_checkSession : M ConnectStep :=
  t <- get ;;
  match checkSession t with
  | SessionEstablished =>
      tell (ClearTimeout SessionTimer) ;;
      ret ConnectReturns
  | ClosedBeforeSession =>
      tell (ClearTimeout SessionTimer) ;;
      connect_catch "Connection closed before session established"
  | PollAgain =>
      tell (SetTimeout SessionPoll 100) ;;
      ret ConnectAwaitsSession
  end.

(** [connect] from the answer of [createHttpStream] on: the new stream's
    handle, or the text of the error it threw. *)
Definition connect_onStream (r : nat + string) : M ConnectStep :=
  match r with
  | inr text => connect_catch text
  | inl h =>
      modify (set_stream (Some (mkStream h true))) ;;
      t <- get ;;
      tell (SetTimeout SessionTimer (connectTimeout (options t))) ;;
      connect_checkSession
  end.

(** The timer of [waitForSession] fires. *)
Definition connect_onTimeout : M ConnectStep :=
  connect_catch "Session establishment timeout".

(** The promise of [waitForSession], given the transport as each run of
    [checkSession] finds it, in order, up to the moment the timer
    fires. *)
Fixpoint waitForSession (polls : list ZitiSSETransport) : WaitOutcome :=
  match polls with
  | [] => WaitRejected (Error "Session establishment timeout")
  | t :: later =>
      match checkSession t with
      | SessionEstablished => WaitResolved
      | ClosedBeforeSession =>
          WaitRejected (Error "Connection closed before session established")
      | PollAgain => waitForSession later
      end
  end.

(** [reconnect] after its wait: [connect()], whose failure is logged. *)
Definition reconnect_resume (isInitialized : bool) : M ConnectStep :=
  s <- connect isInitialized ;;
  match s with
  | ConnectThrows e =>
      tell (LogError "Reconnection failed:" (Some (errorMessage e))) ;;
      ret s
  | _ => ret s
  end.

End WithJSON.

End Transport.

(** [interface MCPMessage] (src/transport/ITransport.ts), as a test on a
    parsed value: an object with [jsonrpc: '2.0'], [id?: string | number],
    [method?: string], [params?: Record<string, unknown>], [result?: unknown]
    and [error?: { code: number; message: string; data?: unknown }]. *)
Definition isMCPError (e : Json) : bool :=
  match e with
  | JObj ms =>
      match Value.lookup "code" ms, Value.lookup "message" ms with
      | Some (JNum _), Some (JStr _) => true
      | _, _ => false
      end
  | _ => false
  end.

Definition isMCPMessage (m : Json) : bool :=
  match m with
  | JObj ms =>
      match Value.lookup "jsonrpc" ms with
      | Some (JStr v) => v =? "2.0"
      | _ => false
      end
      && match Value.lookup "id" ms with
         | None | Some (JStr _) | Some (JNum _) => true
         | _ => false
         end
      && match Value.lookup "method" ms with
         | None | Some (JStr _) => true
         | _ => false
         end
      && match Value.lookup "params" ms with
         | None | Some (JObj _) => true
         | _ => false
         end
      && match Value.lookup "error" ms with
         | None => true
         | Some e => isMCPError e
         end
  | _ => false
  end.

(** The transport after a teardown that found the stream's [close]
    listener with nothing to do. *)
Definition tornDown (t : ZitiSSETransport) : ZitiSSETransport :=
  Transport.set_sessionId None
    (Transport.set_sseParser (Parser.reset (sseParser t))
       (Transport.set_stream None (Transport.set_pendingRequests [] t))).

(** The effects of that teardown. *)
Definition teardownEffects (t : ZitiSSETransport) : list Effect :=
  (Transport.rejectPending (pendingRequests t)
   ++ match stream t with
      | Some s => if _isOpen s then [ZitiClose (handle s)] else []
      | None => []
      end)%list.

(** [response.status >= 400], or a rejected [httpRequest]: the dispatch
    that [sendImmediate] reports as failed. *)
Definition dispatchFails (r : HttpOutcome) : bool :=
  match r with
  | Response status _ => (400 <=? status)%Z
  | Rejected _ => true
  end.

(** ** The collaborators and inputs of the worked examples *)

Module Sample.

Definition quote : string := String (ascii_of_nat 34) "".
Definition lf : string := String JS.LF "".

(** The response and the error response of the transport's tests. *)
Definition responseText : string :=
  "{" ++ quote ++ "jsonrpc" ++ quote ++ ":" ++ quote ++ "2.0" ++ quote
  ++ "," ++ quote ++ "id" ++ quote ++ ":42," ++ quote ++ "result" ++ quote
  ++ ":true}".
Definition response : Json :=
  JObj [("jsonrpc", JStr "2.0"); ("id", JNum 42); ("result", JBool true)].

Definition errorText : string :=
  "{" ++ quote ++ "jsonrpc" ++ quote ++ ":" ++ quote ++ "2.0" ++ quote
  ++ "," ++ quote ++ "id" ++ quote ++ ":43," ++ quote ++ "error" ++ quote
  ++ ":{" ++ quote ++ "code" ++ quote ++ ":-32600," ++ quote ++ "message"
  ++ quote ++ ":" ++ quote ++ "Invalid Request" ++ quote ++ "}}".
Definition errorResponse : Json :=
  JObj [("jsonrpc", JStr "2.0"); ("id", JNum 43);
        ("error", JObj [("code", JNum (-32600));
                        ("message", JStr "Invalid Request")])].

(** [JSON.parse] on the two texts above; any other text is taken as
    malformed. *)
Definition parse (s : string) : Json + string :=
  if s =? responseText then inl response
  else if s =? errorText then inl errorResponse
  else inr "SyntaxError: Unexpected token".

(** [JSON.stringify] for values whose strings need no escape. *)
Fixpoint stringify (v : Json) : string :=
  match v with
  | JNull => "null"
  | JBool true => "true"
  | JBool false => "false"
  | JNum n => Value.Z_toString n
  | JStr s => quote ++ s ++ quote
  | JArr l => "[" ++ String.concat "," (map stringify l) ++ "]"
  | JObj ms =>
      "{" ++ String.concat ","
               (map (fun kv => quote ++ fst kv ++ quote ++ ":"
                               ++ stringify (snd kv)) ms)
      ++ "}"
  end.

(** The handshake of the tests: HTTP headers, then the [endpoint] event. *)
Definition handshake : string :=
  "HTTP/1.1 200 OK" ++ JS.CRLFCRLF ++ "event: endpoint" ++ lf
  ++ "data: /message?sessionId=sess123" ++ lf ++ lf.

Definition noReconnect : TransportOptions :=
  {| autoReconnect := false; maxReconnectAttempts := 3;
     reconnectDelay := 1000; connectTimeout := 5000;
     requestTimeout := 5000 |}.

(** The options of the reconnection test. *)
Definition twoAttempts : TransportOptions :=
  {| autoReconnect := true; maxReconnectAttempts := 2;
     reconnectDelay := 50; connectTimeout := 5000;
     requestTimeout := 60000 |}.

Definition msg1 : Json := JObj [("jsonrpc", JStr "2.0"); ("method", JStr "msg1")].
Definition msg2 : Json := JObj [("jsonrpc", JStr "2.0"); ("method", JStr "msg2")].

Import Transport.
Local Open Scope transport_scope.

(** A transport, connected: [connect()], the stream with handle 1, the
    handshake. *)
Definition connectedRun : M unit :=
  connect true ;;
  connect_onStream (inl 1) ;;
  onStreamData parse stringify handshake.

Definition connected (opts : TransportOptions) : ZitiSSETransport :=
  stateOf (connectedRun (Transport.new opts "test-service" None None)).

(** Two messages sent before the session exists, then the handshake: the
    drain has dispatched the first one and waits for its response. *)
Definition draining (opts : TransportOptions) : ZitiSSETransport :=
  stateOf ((send stringify msg1 ;; send stringify msg2 ;; connectedRun)
             (Transport.new opts "test-service" None None)).

(** A connected transport with the two requests of the tests pending,
    ids 42 and 43, promises 1 and 2. *)
Definition awaiting (opts : TransportOptions) : ZitiSSETransport :=
  stateOf ((request stringify
              (JObj [("jsonrpc", JStr "2.0"); ("id", JNum 42);
                     ("method", JStr "tools/list")]) 1 ;;
            request stringify
              (JObj [("jsonrpc", JStr "2.0"); ("id", JNum 43);
                     ("method", JStr "invalid")]) 2)
             (connected opts)).

(** A connected transport whose stream has failed twice and come back
    each time: the attempt counter stands at the maximum of 2 while the
    third failure is being handled. *)
Definition exhausted : ZitiSSETransport :=
  set_reconnectAttempts 2 (connected twoAttempts).

(** A connected transport whose stream has just marked itself closed, as
    [_onError] leaves it. *)
Definition failed : ZitiSSETransport :=
  set_stream (Some (mkStream 1 false)) (connected twoAttempts).

Definition messageEvent (text : string) : SSEEvent :=
  {| type := "message"; data := text; id := None; retry := None |}.

(** [Buffer.toString('utf-8')] on a buffer of ASCII bytes: one code unit
    for each byte. *)
Definition toString_ascii (bytes : list Byte.byte) : string :=
  string_of_list_byte bytes.

(** [Buffer.from(text)] for ASCII text. *)
Definition Buffer_from (text : string) : Parser.Chunk :=
  Parser.ChunkBuffer (list_byte_of_string text).

End Sample.

(** ** One event cycle, in the words of the specification *)

Module Cycle.

(** The text of a complete cycle: each field line followed by the end of
    line, then a blank line. *)
Fixpoint text (eol : string) (lines : list string) : string :=
  match lines with
  | [] => eol
  | l :: rest => l ++ eol ++ text eol rest
  end.

(** The value of a [data:] line: what follows the colon, less one leading
    space; a bare [data] has the empty value; no other line has one. *)
Definition dataValue (line : string) : option string :=
  if JS.startsWith line "data:" then
    let v := JS.sliceFrom line 5 in
    Some (if JS.startsWith v " " then JS.sliceFrom v 1 else v)
  else if line =? "data" then Some ""
  else None.

(** The values of the [data] lines, in field order. *)
Fixpoint dataValues (lines : list string) : list string :=
  match lines with
  | [] => []
  | l :: rest =>
      match dataValue l with
      | Some v => v :: dataValues rest
      | None => dataValues rest
      end
  end.

(** A field line is not empty and holds no line feed or carriage return. *)
Definition isFieldLine (l : string) : bool :=
  negb (l =? "") && negb (JS.includes l JS.LF) && negb (JS.includes l JS.CR).

End Cycle.

(** The complete lines of [s] and the text after its last line feed, in
    one pass: what [split] and [pop] hand to [processBuffer], before the
    carriage returns are dropped. *)
Fixpoint linesAndRest (s : string) : list string * string :=
  match s with
  | EmptyString => ([], EmptyString)
  | String c s' =>
      let (ls, r) := linesAndRest s' in
      if Ascii.eqb c JS.LF then (EmptyString :: ls, r)
      else match ls with
           | [] => ([], String c r)
           | l :: ls' => (String c l :: ls', r)
           end
  end.

(** ** Queue with its waiters (src/utils/Queue.ts, all of it)

    [pop()] on an empty queue leaves a resolver in [waiters]; a resolver is
    named by a number.  [pop()] tells an item from no item by
    [item !== undefined]: [isUndefined] says which values of the item type
    are [undefined]. *)

Module AsyncQueue.

Record Queue (T : Type) := mkQueue {
  items : list T;
  waiters : list nat
}.
Arguments mkQueue {T} items waiters.
Arguments items {T} q.
Arguments waiters {T} q.

(** [new Queue()] *)
Definition new {T} : Queue T := mkQueue [] [].

(** [push(item)]: the new queue, and the waiter that was handed the item,
    if one was waiting. *)
Definition push {T} (q : Queue T) (item : T) : Queue T * option (nat * T) :=
  match waiters q with
  | waiter :: rest => (mkQueue (items q) rest, Some (waiter, item))
  | [] => (mkQueue (items q ++ [item])%list [], None)
  end.

(** [pop()]: the item that is returned at once, or [None] when the promise
    waits, its resolver [resolve] queued.  The head of [items] is shifted
    out before it is tested. *)
Definition pop {T} (isUndefined : T -> bool) (q : Queue T) (resolve : nat)
  : Queue T * option T :=
  match items q with
  | item :: rest =>
      if isUndefined item
      then (mkQueue rest (waiters q ++ [resolve])%list, None)
      else (mkQueue rest (waiters q), Some item)
  | [] => (mkQueue [] (waiters q ++ [resolve])%list, None)
  end.

(** [tryPop()]: [None] is the [undefined] that [shift()] gives on an empty
    array. *)
Definition tryPop {T} (q : Queue T) : Queue T * option T :=
  match items q with
  | item :: rest => (mkQueue rest (waiters q), Some item)
  | [] => (q, None)
  end.

Definition isEmpty {T} (q : Queue T) : bool :=
  (List.length (items q) =? 0)%nat.

Definition length {T} (q : Queue T) : nat := List.length (items q).

Definition clear {T} (q : Queue T) : Queue T := mkQueue [] (waiters q).

(** [drain()]: all the items, and the queue without them. *)
Definition drain {T} (q : Queue T) : Queue T * list T :=
  (mkQueue [] (waiters q), items q).

(** A call on the queue, and what the caller gets from it. *)
Inductive Call (T : Type) :=
| CallPush (item : T)
| CallPop (resolve : nat)
| CallTryPop
| CallClear
| CallDrain.
Arguments CallPush {T} item.
Arguments CallPop {T} resolve.
Arguments CallTryPop {T}.
Arguments CallClear {T}.
Arguments CallDrain {T}.

Inductive Answer (T : Type) :=
| Handed (waiter : nat) (item : T)
| Stored
| Got (item : T)
| Waits
| Nothing
| Cleared
| Drained (all : list T).
Arguments Handed {T} waiter item.
Arguments Stored {T}.
Arguments Got {T} item.
Arguments Waits {T}.
Arguments Nothing {T}.
Arguments Cleared {T}.
Arguments Drained {T} all.

Definition call {T} (isUndefined : T -> bool) (q : Queue T) (c : Call T)
  : Queue T * Answer T :=
  match c with
  | CallPush item =>
      match push q item with
      | (q', Some (w, x)) => (q', Handed w x)
      | (q', None) => (q', Stored)
      end
  | CallPop resolve =>
      match pop isUndefined q resolve with
      | (q', Some x) => (q', Got x)
      | (q', None) => (q', Waits)
      end
  | CallTryPop =>
      match tryPop q with
      | (q', Some x) => (q', Got x)
      | (q', None) => (q', Nothing)
      end
  | CallClear => (clear q, Cleared)
  | CallDrain => (fst (drain q), Drained (snd (drain q)))
  end.

(** A sequence of calls, with the answers in order. *)
Fixpoint calls {T} (isUndefined : T -> bool) (q : Queue T)
    (cs : list (Call T)) : Queue T * list (Answer T) :=
  match cs with
  | [] => (q, [])
  | c :: rest =>
      let (q1, a) := call isUndefined q c in
      let (q2, answers) := calls isUndefined q1 rest in
      (q2, a :: answers)
  end.

(** No call pushes [undefined]. *)
Definition pushesDefined {T} (isUndefined : T -> bool) (cs : list (Call T))
  : bool :=
  forallb (fun c => match c with
                    | CallPush x => negb (isUndefined x)
                    | _ => true
                    end) cs.

Definition noClear {T} (cs : list (Call T)) : bool :=
  forallb (fun c => match c with CallClear => false | _ => true end) cs.

(** The items that the calls push, and the items that the answers give
    out, each in call order. *)
Definition pushed {T} (cs : list (Call T)) : list T :=
  flat_map (fun c => match c with CallPush x => [x] | _ => [] end) cs.

Definition delivered {T} (answers : list (Answer T)) : list T :=
  flat_map (fun a => match a with
                     | Handed _ x => [x]
                     | Got x => [x]
                     | Drained all => all
                     | _ => []
                     end) answers.

(** The resolvers of the [pop()] calls that had to wait, and the resolvers
    that a later [push] has called, each in call order. *)
Fixpoint waited {T} (cs : list (Call T)) (answers : list (Answer T))
  : list nat :=
  match cs, answers with
  | CallPop r :: cs', Waits :: answers' => r :: waited cs' answers'
  | _ :: cs', _ :: answers' => waited cs' answers'
  | _, _ => []
  end.

Definition served {T} (answers : list (Answer T)) : list nat :=
  flat_map (fun a => match a with Handed w _ => [w] | _ => [] end) answers.

(** What the queue keeps when nothing [undefined] is pushed: no resolver
    waits while an item is stored, and no stored item is [undefined]. *)
Definition wf {T} (isUndefined : T -> bool) (q : Queue T) : Prop :=
  (items q = [] \/ waiters q = [])
  /\ forallb (fun x => negb (isUndefined x)) (items q) = true.

End AsyncQueue.

(** ** Several calls in a row *)

Module Run.

Import Transport.
Local Open Scope transport_scope.

Section WithJSON.

Variable JSON_stringify : Json -> string.

(** [send(m)] for each message in turn, each call taken up to the point
    where it gives control back. *)
Fixpoint sendAll (ms : list Json) : M unit :=
  match ms with
  | [] => ret tt
  | m :: rest => send JSON_stringify m ;; sendAll rest
  end.

(** A drain that is waiting on a dispatch, resumed with the outcome of each
    dispatch in turn. *)
Fixpoint resumeAll (outcomes : list HttpOutcome) : M unit :=
  match outcomes with
  | [] => ret tt
  | r :: rest => processQueuedMessages_resume JSON_stringify r ;; resumeAll rest
  end.

(** [processQueuedMessages()] from its call to the end of the dispatches
    that [outcomes] answers, nothing else happening in between. *)
Definition drainWith (outcomes : list HttpOutcome) : M unit :=
  processQueuedMessages JSON_stringify ;; resumeAll outcomes.

(** The request that [sendImmediate] makes for [m]. *)
Definition requestFor (t : ZitiSSETransport) (m : Json) : Effect :=
  HttpRequest (serviceName t)
    (messagePath t ++ "?sessionId="
     ++ match _sessionId t with Some s => s | None => "null" end)
    (JSON_stringify m).

End WithJSON.

(** The parser's listener, run on each event in turn. *)
Fixpoint handleAll (JSON_parse : string -> Json + string)
    (JSON_stringify : Json -> string) (events : list SSEEvent) : M unit :=
  match events with
  | [] => ret tt
  | event :: rest =>
      handleSSEEvent JSON_parse JSON_stringify event ;;
      handleAll JSON_parse JSON_stringify rest
  end.

(** The [data] listener of the stream, run on the chunks that arrive, one
    after the other. *)
Fixpoint dataAll (JSON_parse : string -> Json + string)
    (JSON_stringify : Json -> string) (chunks : list string) : M unit :=
  match chunks with
  | [] => ret tt
  | chunk :: rest =>
      onStreamData JSON_parse JSON_stringify chunk ;;
      dataAll JSON_parse JSON_stringify rest
  end.

(** The same on the chunks as the stream emits them. *)
Fixpoint chunksAll (Buffer_toString : list Byte.byte -> string)
    (JSON_parse : string -> Json + string)
    (JSON_stringify : Json -> string) (chunks : list Parser.Chunk) : M unit :=
  match chunks with
  | [] => ret tt
  | chunk :: rest =>
      onStreamChunk JSON_parse JSON_stringify Buffer_toString chunk ;;
      chunksAll Buffer_toString JSON_parse JSON_stringify rest
  end.

(** [reconnect()] called [n] times in a row, as by [n] stream failures with
    no handshake in between. *)
Fixpoint reconnects (n : nat) : M unit :=
  match n with
  | O => ret tt
  | S k => reconnect ;; reconnects k
  end.

End Run.

(** A session token: not empty, no [&] and no white space in it. *)
Fixpoint isToken_chars (s : string) : bool :=
  match s with
  | EmptyString => true
  | String c s' => Transport.isTokenChar c && isToken_chars s'
  end.

Definition isToken (s : string) : bool :=
  negb (s =? "") && isToken_chars s.

(** [t'] is [t] but for the message queue and the flag of the drain. *)
Definition sameButQueue (t t' : ZitiSSETransport) : Prop :=
  _state t' = _state t
  /\ _sessionId t' = _sessionId t
  /\ options t' = options t
  /\ stream t' = stream t
  /\ sseParser t' = sseParser t
  /\ serviceName t' = serviceName t
  /\ ssePath t' = ssePath t
  /\ messagePath t' = messagePath t
  /\ pendingRequests t' = pendingRequests t
  /\ reconnectAttempts t' = reconnectAttempts t.

(** What no step of a teardown, a reconnection or a stream handler does:
    it leaves the message queue, the flag of the drain and the options
    alone, it adds no pending request, and it does not take the attempt
    counter past the maximum. *)
Definition teardownKeeps (t t' : ZitiSSETransport) : Prop :=
  messageQueue t' = messageQueue t
  /\ isProcessingQueue t' = isProcessingQueue t
  /\ options t' = options t
  /\ (pendingRequests t = [] -> pendingRequests t' = [])
  /\ (_sessionId t = None -> _sessionId t' = None)
  /\ ((Z.of_nat (reconnectAttempts t) <= maxReconnectAttempts (options t))%Z ->
      (Z.of_nat (reconnectAttempts t') <= maxReconnectAttempts (options t))%Z).

Definition stepKeeps {A} (m : Transport.M A) : Prop :=
  forall t, teardownKeeps t (Transport.stateOf (m t)).

(** A step of the transport that neither reads nor writes the parser. *)
Definition apartFromParser (m : Transport.M unit) : Prop :=
  forall p t,
    m (Transport.set_sseParser p t)
    = (tt, Transport.set_sseParser p (Transport.stateOf (m t)),
       Transport.effectsOf (m t)).

(** No event of the list asks for a reconnection. *)
Definition noReconnectEvent (events : list SSEEvent) : bool :=
  forallb (fun event => negb (type event =? "reconnect")) events.

(** ** Facts about the string primitives *)

Section StringFacts.

Lemma append_nil_r (s : string) : s ++ "" = s.
Proof. induction s; simpl; congruence. Qed.

Lemma append_assoc (a b c : string) : (a ++ b) ++ c = a ++ (b ++ c).
Proof. induction a; simpl; congruence. Qed.

Lemma length_append (a b : string) :
  String.length (a ++ b) = String.length a + String.length b.
Proof. induction a; simpl; congruence. Qed.

Lemma startsWith_iff (s p : string) :
  JS.startsWith s p = true <-> exists r, s = p ++ r.
Proof.
  unfold JS.startsWith. revert s.
  induction p as [|c p IH]; intros s; simpl.
  - destruct s; split; eauto.
  - destruct s as [|d s].
    + split; [discriminate | intros [r H]; discriminate].
    + destruct (ascii_dec c d) as [->|N]; simpl.
      * destruct (ascii_dec d d) as [_|N]; [|congruence].
        rewrite IH. split; intros [r H]; exists r; congruence.
      * destruct (ascii_dec c d) as [->|_]; [congruence|].
        split; [discriminate | intros [r H]; congruence].
Qed.

Lemma startsWith_length (s p : string) :
  JS.startsWith s p = true -> String.length p <= String.length s.
Proof.
  intros H. apply startsWith_iff in H as [r ->].
  rewrite length_append. lia.
Qed.

Lemma startsWith_app (s t p : string) :
  JS.startsWith s p = true -> JS.startsWith (s ++ t) p = true.
Proof.
  intros H. apply startsWith_iff in H as [r ->].
  apply startsWith_iff. exists (r ++ t). apply append_assoc.
Qed.

Lemma append_inj_length (a b c d : string) :
  a ++ b = c ++ d -> String.length a <= String.length c ->
  exists m, c = a ++ m.
Proof.
  revert c. induction a as [|x a IH]; intros c H L; simpl in *.
  - eauto.
  - destruct c as [|y c]; simpl in *; [lia|].
    injection H as -> H. destruct (IH c H) as [m ->]; [lia|]. eauto.
Qed.

(** A match that fits inside [s] is a match of [s]. *)
Lemma startsWith_app_inv (s t p : string) :
  JS.startsWith (s ++ t) p = true ->
  String.length p <= String.length s ->
  JS.startsWith s p = true.
Proof.
  intros H L. apply startsWith_iff in H as [r H].
  apply startsWith_iff. symmetry in H.
  destruct (append_inj_length _ _ _ _ H L) as [m ->]. eauto.
Qed.

Lemma indexOf_bound (s p : string) (i : nat) :
  JS.indexOf s p = Some i -> i + String.length p <= String.length s.
Proof.
  revert i. induction s as [|c s IH]; intros i; cbn [JS.indexOf].
  - destruct (JS.startsWith "" p) eqn:E; [|discriminate].
    intros [= <-]. apply startsWith_length in E. simpl in *. lia.
  - destruct (JS.startsWith (String c s) p) eqn:E.
    + intros [= <-]. apply startsWith_length in E. simpl in *. lia.
    + destruct (JS.indexOf s p) as [j|]; cbn [option_map]; [|discriminate].
      intros [= <-]. specialize (IH j eq_refl). simpl. lia.
Qed.

(** The first occurrence does not move when text is appended. *)
Lemma indexOf_app (s t p : string) (i : nat) :
  JS.indexOf s p = Some i -> JS.indexOf (s ++ t) p = Some i.
Proof.
  revert i. induction s as [|c s IH]; intros i; cbn [JS.indexOf].
  - destruct (JS.startsWith "" p) eqn:E; [|discriminate].
    intros [= <-]. apply (startsWith_app _ t) in E. cbn [append] in *.
    destruct t; cbn [JS.indexOf]; rewrite E; reflexivity.
  - destruct (JS.startsWith (String c s) p) eqn:E.
    + intros [= <-]. apply (startsWith_app _ t) in E. cbn [append] in E.
      cbn [append JS.indexOf]. rewrite E. reflexivity.
    + destruct (JS.indexOf s p) as [j|] eqn:F; cbn [option_map];
        [|discriminate].
      intros [= <-]. cbn [append JS.indexOf].
      destruct (JS.startsWith (String c (s ++ t)) p) eqn:G.
      * apply indexOf_bound in F.
        apply (startsWith_app_inv (String c s) t) in G; [congruence|].
        simpl. lia.
      * rewrite (IH j eq_refl). reflexivity.
Qed.

Lemma indexOf_app_None (s t p : string) :
  JS.indexOf (s ++ t) p = None -> JS.indexOf s p = None.
Proof.
  intros H. destruct (JS.indexOf s p) as [i|] eqn:E; [|reflexivity].
  rewrite (indexOf_app _ t _ _ E) in H. discriminate.
Qed.

(** [indexOf] finds an occurrence whenever there is one. *)
Lemma indexOf_None_iff (s p : string) :
  JS.indexOf s p = None <-> forall a b, s <> a ++ p ++ b.
Proof.
  induction s as [|c s IH]; cbn [JS.indexOf].
  - destruct (JS.startsWith "" p) eqn:E.
    + split; [discriminate|]. intros H.
      apply startsWith_iff in E as [r E]. exfalso. apply (H "" r). exact E.
    + split; [|reflexivity]. intros _ a b H.
      destruct a; simpl in H; [|discriminate].
      assert (JS.startsWith "" p = true) by (apply startsWith_iff; eauto).
      congruence.
  - destruct (JS.startsWith (String c s) p) eqn:E.
    + split; [discriminate|]. intros H.
      apply startsWith_iff in E as [r E]. exfalso. apply (H "" r). exact E.
    + destruct (JS.indexOf s p) as [j|]; cbn [option_map].
      * split; [discriminate|]. intros H.
        assert (N : forall a b, s <> a ++ p ++ b).
        { intros a b ->. apply (H (String c a) b). reflexivity. }
        apply IH in N. discriminate.
      * split; [|reflexivity]. intros _ a b H.
        destruct a as [|d a]; simpl in H.
        -- assert (JS.startsWith (String c s) p = true)
             by (apply startsWith_iff; eauto).
           congruence.
        -- injection H as _ H. revert H. apply IH. reflexivity.
Qed.

Lemma sliceFrom_app (s t : string) (n : nat) :
  n <= String.length s -> JS.sliceFrom (s ++ t) n = JS.sliceFrom s n ++ t.
Proof.
  revert s. induction n as [|n IH]; intros s L; simpl.
  - reflexivity.
  - destruct s as [|c s]; simpl in *; [lia|]. apply IH. lia.
Qed.

End StringFacts.

(** ** Facts about the parser *)

Ltac case_fields :=
  repeat match goal with
         | |- context [if ?c then _ else _] => destruct c
         | |- context [match ?c with Some _ => _ | None => _ end] =>
             destruct c
         end.

Section ParserFacts.

Lemma splitLF_linesAndRest (s : string) :
  JS.splitLF s = (fst (linesAndRest s) ++ [snd (linesAndRest s)])%list.
Proof.
  induction s as [|c s IH]; simpl; [reflexivity|].
  destruct (linesAndRest s) as [ls r]. simpl in IH. rewrite IH.
  destruct (Ascii.eqb c JS.LF); [reflexivity|].
  destruct ls; reflexivity.
Qed.

Lemma linesAndRest_app (a b : string) :
  linesAndRest (a ++ b) =
  let (la, ra) := linesAndRest a in
  let (lb, rb) := linesAndRest (ra ++ b) in
  ((la ++ lb)%list, rb).
Proof.
  induction a as [|c a IH]; simpl.
  - destruct (linesAndRest b); reflexivity.
  - rewrite IH. destruct (linesAndRest a) as [la ra].
    destruct (Ascii.eqb c JS.LF) eqn:E.
    + destruct (linesAndRest (ra ++ b)); reflexivity.
    + destruct la as [|l la]; simpl.
      * rewrite E. destruct (linesAndRest (ra ++ b)) as [lb rb].
        destruct lb; reflexivity.
      * destruct (linesAndRest (ra ++ b)); reflexivity.
Qed.

Lemma pop_snoc {A} (l : list A) (x : A) :
  JS.pop (l ++ [x]) = (l, Some x).
Proof.
  unfold JS.pop. destruct (l ++ [x])%list eqn:E.
  - destruct l; discriminate.
  - rewrite <- E. rewrite removelast_last. f_equal.
    rewrite length_app. simpl.
    replace (List.length l + 1 - 1) with (List.length l) by lia.
    rewrite nth_error_app2 by lia. rewrite Nat.sub_diag. reflexivity.
Qed.

(** What [processBuffer] takes from the buffer. *)
Lemma pop_split_CRLF (s : string) :
  JS.pop (JS.split_CRLF s) =
  (map JS.dropCR (fst (linesAndRest s)), Some (snd (linesAndRest s))).
Proof.
  unfold JS.split_CRLF. rewrite splitLF_linesAndRest.
  rewrite removelast_last, last_last. apply pop_snoc.
Qed.

Lemma setBuffer_setBuffer p a b :
  Parser.setBuffer (Parser.setBuffer p a) b = Parser.setBuffer p b.
Proof. reflexivity. Qed.

Lemma setBuffer_buffer p : Parser.setBuffer p (buffer p) = p.
Proof. destruct p; reflexivity. Qed.

(** No line handler reads or writes the buffer. *)
Lemma processLine_setBuffer p b line :
  Parser.processLine (Parser.setBuffer p b) line =
  (Parser.setBuffer (fst (Parser.processLine p line)) b,
   snd (Parser.processLine p line)).
Proof.
  unfold Parser.processLine.
  destruct (line =? "").
  - unfold Parser.dispatchEvent, Parser.pendingEvent,
      Parser.updateLastEventId. simpl.
    destruct (eventData p); [reflexivity|].
    destruct (eventId p); reflexivity.
  - unfold Parser.processFieldLine, Parser.processField. simpl.
    case_fields; reflexivity.
Qed.

Lemma processLines_setBuffer p b lines :
  Parser.processLines (Parser.setBuffer p b) lines =
  (Parser.setBuffer (fst (Parser.processLines p lines)) b,
   snd (Parser.processLines p lines)).
Proof.
  revert p. induction lines as [|l ls IH]; intros p; simpl.
  - reflexivity.
  - rewrite processLine_setBuffer.
    destruct (Parser.processLine p l) as [p1 e1]. simpl.
    rewrite IH. destruct (Parser.processLines p1 ls). reflexivity.
Qed.

Lemma processLines_app p l1 l2 :
  Parser.processLines p (l1 ++ l2) =
  let (p1, e1) := Parser.processLines p l1 in
  let (p2, e2) := Parser.processLines p1 l2 in
  (p2, (e1 ++ e2)%list).
Proof.
  revert p. induction l1 as [|l ls IH]; intros p; simpl.
  - destruct (Parser.processLines p l2); reflexivity.
  - destruct (Parser.processLine p l) as [q e]. rewrite IH.
    destruct (Parser.processLines q ls) as [p1 e1].
    destruct (Parser.processLines p1 l2) as [p2 e2].
    rewrite app_assoc. reflexivity.
Qed.

Lemma processBuffer_eq p :
  Parser.processBuffer p =
  Parser.processLines
    (Parser.setBuffer p (snd (linesAndRest (buffer p))))
    (map JS.dropCR (fst (linesAndRest (buffer p)))).
Proof. unfold Parser.processBuffer. rewrite pop_split_CRLF. reflexivity. Qed.

Lemma processLines_buffer p lines :
  buffer (fst (Parser.processLines p lines)) = buffer p.
Proof.
  rewrite <- (setBuffer_buffer p) at 1. rewrite processLines_setBuffer.
  reflexivity.
Qed.

(** Processing a buffer to which [b] was appended is processing the
    buffer, then appending [b] to what is left and processing that. *)
Lemma processBuffer_app p a b :
  Parser.processBuffer (Parser.setBuffer p (a ++ b)) =
  let (p1, e1) := Parser.processBuffer (Parser.setBuffer p a) in
  let (p2, e2) :=
    Parser.processBuffer (Parser.setBuffer p1 (buffer p1 ++ b)) in
  (p2, (e1 ++ e2)%list).
Proof.
  rewrite !processBuffer_eq. simpl buffer. rewrite !setBuffer_setBuffer.
  rewrite linesAndRest_app.
  destruct (linesAndRest a) as [la ra]. simpl fst. simpl snd.
  rewrite (processLines_setBuffer p ra).
  destruct (Parser.processLines p (map JS.dropCR la)) as [p1 e1] eqn:E1.
  simpl fst. simpl snd.
  rewrite processBuffer_eq. simpl buffer. rewrite !setBuffer_setBuffer.
  destruct (linesAndRest (ra ++ b)) as [lb rb]. simpl fst. simpl snd.
  rewrite map_app, processLines_setBuffer, processLines_app, E1.
  rewrite (processLines_setBuffer p1 rb).
  destruct (Parser.processLines p1 (map JS.dropCR lb)). reflexivity.
Qed.

Lemma processBuffer_httpHeadersParsed p :
  httpHeadersParsed (fst (Parser.processBuffer p)) = httpHeadersParsed p.
Proof.
  rewrite processBuffer_eq.
  generalize (map JS.dropCR (fst (linesAndRest (buffer p)))).
  generalize (snd (linesAndRest (buffer p))). intros b lines.
  rewrite processLines_setBuffer. simpl. clear b.
  revert p. induction lines as [|l ls IH]; intros p; simpl; [reflexivity|].
  destruct (Parser.processLine p l) as [q e] eqn:E.
  specialize (IH q). destruct (Parser.processLines q ls). simpl in *.
  rewrite IH. clear IH.
  unfold Parser.processLine in E.
  destruct (l =? "").
  - unfold Parser.dispatchEvent, Parser.pendingEvent,
      Parser.updateLastEventId in E.
    destruct (eventData p); [|destruct (eventId p)];
      injection E as <- _; reflexivity.
  - injection E as <- _.
    unfold Parser.processFieldLine, Parser.processField.
    case_fields; reflexivity.
Qed.

Lemma feed_eq p c :
  Parser.feed p c =
  if httpHeadersParsed p
  then Parser.processBuffer (Parser.setBuffer p (buffer p ++ c))
  else match JS.indexOf (buffer p ++ c) JS.CRLFCRLF with
       | Some i =>
           Parser.processBuffer
             (Parser.setBuffer (Parser.setHttpHeadersParsed p true)
                (JS.sliceFrom (buffer p ++ c) (i + 4)))
       | None => (Parser.setBuffer p (buffer p ++ c), [])
       end.
Proof. unfold Parser.feed. simpl. destruct (httpHeadersParsed p); reflexivity. Qed.

Lemma processBuffer_parsed p p1 e1 :
  Parser.processBuffer p = (p1, e1) ->
  httpHeadersParsed p1 = httpHeadersParsed p.
Proof.
  intros E. change p1 with (fst (p1, e1)). rewrite <- E.
  apply processBuffer_httpHeadersParsed.
Qed.

(** Two [feed] calls are one [feed] call with the two chunks joined. *)
Lemma feed_app p a b :
  Parser.feed p (a ++ b) =
  let (p1, e1) := Parser.feed p a in
  let (p2, e2) := Parser.feed p1 b in
  (p2, (e1 ++ e2)%list).
Proof.
  rewrite (feed_eq p (a ++ b)), (feed_eq p a), <- append_assoc.
  destruct (httpHeadersParsed p) eqn:HP.
  - rewrite processBuffer_app.
    destruct (Parser.processBuffer (Parser.setBuffer p (buffer p ++ a)))
      as [p1 e1] eqn:E1.
    apply processBuffer_parsed in E1. simpl in E1.
    rewrite feed_eq, E1, HP. reflexivity.
  - destruct (JS.indexOf (buffer p ++ a) JS.CRLFCRLF) as [i|] eqn:I.
    + rewrite (indexOf_app _ b _ _ I).
      rewrite sliceFrom_app
        by (apply indexOf_bound in I; simpl in I; lia).
      rewrite processBuffer_app.
      destruct (Parser.processBuffer
                  (Parser.setBuffer (Parser.setHttpHeadersParsed p true)
                     (JS.sliceFrom (buffer p ++ a) (i + 4))))
        as [p1 e1] eqn:E1.
      apply processBuffer_parsed in E1. simpl in E1.
      rewrite feed_eq, E1. reflexivity.
    + rewrite feed_eq. simpl. rewrite HP.
      destruct (JS.indexOf ((buffer p ++ a) ++ b) JS.CRLFCRLF);
        [|reflexivity].
      match goal with
      | |- _ = let (_, _) := ?x in _ => change x with
            (Parser.processBuffer
               (Parser.setBuffer (Parser.setHttpHeadersParsed p true)
                  (JS.sliceFrom ((buffer p ++ a) ++ b) (n + 4))))
      end.
      destruct (Parser.processBuffer _). reflexivity.
Qed.

End ParserFacts.

(** ** The parser: claims *)

Section ParserClaims.

Lemma concat_cons (c : string) (rest : list string) :
  String.concat "" (c :: rest) = c ++ String.concat "" rest.
Proof.
  destruct rest; simpl; [rewrite append_nil_r|]; reflexivity.
Qed.

Lemma feed_empty_new : Parser.feed Parser.new "" = (Parser.new, []).
Proof. reflexivity. Qed.

Lemma reset_new (p : SSEParser) : Parser.reset p = Parser.new.
Proof. reflexivity. Qed.

(** Feeding chunk after chunk is feeding their concatenation, from a state
    in which a [feed] of nothing does nothing. *)
Lemma feedAll_concat (p : SSEParser) (chunks : list string) :
  Parser.feed p "" = (p, []) ->
  Parser.feedAll p chunks = Parser.feed p (String.concat "" chunks).
Proof.
  intros H0. revert p H0.
  induction chunks as [|c rest IH]; intros p H0.
  - simpl. symmetry. exact H0.
  - rewrite concat_cons, feed_app. simpl.
    destruct (Parser.feed p c) as [p1 e1] eqn:E1.
    assert (H1 : Parser.feed p1 "" = (p1, [])).
    { pose proof (feed_app p c "") as F. rewrite append_nil_r, E1 in F.
      destruct (Parser.feed p1 "") as [p2 e2].
      injection F as Fp Fe.
      assert (e2 = []).
      { apply (f_equal (@List.length _)) in Fe. rewrite length_app in Fe.
        destruct e2; [reflexivity | simpl in Fe; lia]. }
      subst. reflexivity. }
    rewrite (IH p1 H1). reflexivity.
Qed.

(** What [feed] does while the separator has not been seen. *)
Lemma feed_before_separator (p : SSEParser) (c : string) :
  httpHeadersParsed p = false ->
  JS.indexOf (buffer p ++ c) JS.CRLFCRLF = None ->
  Parser.feed p c = (Parser.setBuffer p (buffer p ++ c), []).
Proof.
  intros HP I. rewrite feed_eq, HP, I. reflexivity.
Qed.

Lemma feedAll_before_separator (p : SSEParser) (chunks : list string) :
  httpHeadersParsed p = false ->
  JS.indexOf (buffer p ++ String.concat "" chunks) JS.CRLFCRLF = None ->
  Parser.feedAll p chunks =
  (Parser.setBuffer p (buffer p ++ String.concat "" chunks), []).
Proof.
  revert p. induction chunks as [|c rest IH]; intros p HP I.
  - simpl. rewrite append_nil_r. destruct p; reflexivity.
  - rewrite concat_cons in *. rewrite <- append_assoc in I.
    simpl. rewrite feed_before_separator;
      [|exact HP | exact (indexOf_app_None _ _ _ I)].
    rewrite IH; [|exact HP | exact I].
    simpl. rewrite append_assoc. reflexivity.
Qed.

End ParserClaims.

(** *** One cycle, once the headers are behind *)

Section CycleFacts.

Lemma linesAndRest_line (l rest : string) :
  JS.includes l JS.LF = false ->
  linesAndRest (l ++ String JS.LF rest) =
  (l :: fst (linesAndRest rest), snd (linesAndRest rest)).
Proof.
  induction l as [|c l IH]; intros N.
  - simpl. destruct (linesAndRest rest). reflexivity.
  - simpl in N. apply orb_false_elim in N as [C N].
    cbn [append linesAndRest]. rewrite (IH N), C. reflexivity.
Qed.

Lemma includes_append (a b : string) (c : ascii) :
  JS.includes (a ++ b) c = JS.includes a c || JS.includes b c.
Proof.
  induction a as [|d a IH]; simpl; [reflexivity|].
  rewrite IH, orb_assoc. reflexivity.
Qed.

Lemma dropCR_CR (l : string) : JS.dropCR (l ++ String JS.CR "") = l.
Proof.
  induction l as [|c l IH]; [reflexivity|].
  cbn [append JS.dropCR]. rewrite IH.
  destruct (l ++ String JS.CR "") eqn:E; [|reflexivity].
  destruct l; discriminate.
Qed.

Lemma dropCR_none (l : string) : JS.includes l JS.CR = false -> JS.dropCR l = l.
Proof.
  induction l as [|c l IH]; [reflexivity|]. simpl.
  intros N. apply orb_false_elim in N as [C N]. rewrite C, (IH N).
  destruct l; reflexivity.
Qed.

(** The lines that [processBuffer] takes out of a cycle are its field
    lines and one empty line; nothing is left in the buffer. *)
Lemma lines_of_cycle (cr : string) (lines : list string) :
  cr = "" \/ cr = String JS.CR "" ->
  forallb Cycle.isFieldLine lines = true ->
  map JS.dropCR (fst (linesAndRest (Cycle.text (cr ++ String JS.LF "") lines)))
  = (lines ++ [""])%list
  /\ snd (linesAndRest (Cycle.text (cr ++ String JS.LF "") lines)) = "".
Proof.
  intros CR. induction lines as [|l rest IH]; intros F.
  - destruct CR as [-> | ->]; split; reflexivity.
  - cbn [forallb] in F. apply andb_true_iff in F as [L F].
    unfold Cycle.isFieldLine in L. rewrite !andb_true_iff in L.
    destruct L as [[_ L1] L2].
    apply negb_true_iff in L1. apply negb_true_iff in L2.
    destruct (IH F) as [IH1 IH2].
    cbn [Cycle.text].
    replace (l ++ (cr ++ String JS.LF "")
               ++ Cycle.text (cr ++ String JS.LF "") rest)
      with ((l ++ cr)
              ++ String JS.LF (Cycle.text (cr ++ String JS.LF "") rest))
      by (rewrite !append_assoc; reflexivity).
    rewrite linesAndRest_line.
    + cbn [fst snd map]. rewrite IH1, IH2. split; [|reflexivity].
      rewrite <- app_comm_cons. f_equal.
      destruct CR as [-> | ->];
        [rewrite append_nil_r; apply dropCR_none; exact L2 | apply dropCR_CR].
    + rewrite includes_append, L1.
      destruct CR as [-> | ->]; reflexivity.
Qed.

Lemma indexOf_split (s p : string) (i : nat) :
  JS.indexOf s p = Some i ->
  s = JS.sliceTo s i ++ p ++ JS.sliceFrom s (i + String.length p).
Proof.
  revert i. induction s as [|c s IH]; intros i; cbn [JS.indexOf].
  - destruct (JS.startsWith "" p) eqn:E; [|discriminate].
    intros [= <-]. apply startsWith_iff in E as [r E].
    destruct p; [reflexivity | discriminate].
  - destruct (JS.startsWith (String c s) p) eqn:E.
    + intros [= <-]. apply startsWith_iff in E as [r E].
      cbn [JS.sliceTo append Nat.add]. rewrite E at 1. f_equal.
      rewrite E. clear. induction p; simpl; auto.
    + destruct (JS.indexOf s p) as [j|]; cbn [option_map]; [|discriminate].
      intros [= <-]. cbn [JS.sliceTo JS.sliceFrom append Nat.add].
      f_equal. apply IH. reflexivity.
Qed.

Lemma processField_eventData (p : SSEParser) (field value : string) :
  eventData (Parser.processField p field value) =
  if field =? "data" then (eventData p ++ [value])%list else eventData p.
Proof.
  unfold Parser.processField.
  destruct (field =? "event") eqn:E.
  - apply String.eqb_eq in E. subst. reflexivity.
  - destruct (field =? "data"); [reflexivity|].
    case_fields; reflexivity.
Qed.

(** A field line adds its data value, if it has one, and nothing else to
    the data of the pending event. *)
Lemma processFieldLine_eventData (p : SSEParser) (line : string) :
  eventData (Parser.processFieldLine p line) =
  (eventData p
   ++ match Cycle.dataValue line with Some v => [v] | None => [] end)%list.
Proof.
  unfold Cycle.dataValue.
  destruct (JS.startsWith line "data:") eqn:D.
  - apply startsWith_iff in D as [r ->].
    assert (C : JS.startsWith ("data:" ++ r) ":" = false) by reflexivity.
    assert (I : JS.indexOf ("data:" ++ r) ":" = Some 4)
      by (destruct r; reflexivity).
    unfold Parser.processFieldLine. rewrite C, I, processField_eventData.
    reflexivity.
  - destruct (line =? "data") eqn:B.
    + apply String.eqb_eq in B. subst. reflexivity.
    + rewrite app_nil_r. unfold Parser.processFieldLine.
      destruct (JS.startsWith line ":"); [reflexivity|].
      destruct (JS.indexOf line ":") as [i|] eqn:I;
        rewrite processField_eventData.
      * destruct (JS.sliceTo line i =? "data") eqn:S; [|reflexivity].
        apply String.eqb_eq in S. apply indexOf_split in I.
        rewrite S in I.
        assert (JS.startsWith line "data:" = true).
        { apply startsWith_iff. eexists. rewrite I at 1. reflexivity. }
        congruence.
      * rewrite B. reflexivity.
Qed.

Lemma processLines_fields (p : SSEParser) (lines : list string) :
  forallb Cycle.isFieldLine lines = true ->
  snd (Parser.processLines p lines) = []
  /\ eventData (fst (Parser.processLines p lines))
     = (eventData p ++ Cycle.dataValues lines)%list.
Proof.
  revert p. induction lines as [|l rest IH]; intros p F.
  - simpl. rewrite app_nil_r. auto.
  - cbn [forallb] in F. apply andb_true_iff in F as [L F].
    unfold Cycle.isFieldLine in L. rewrite !andb_true_iff in L.
    destruct L as [[L0 _] _]. apply negb_true_iff in L0.
    cbn [Parser.processLines Cycle.dataValues]. unfold Parser.processLine.
    rewrite L0.
    destruct (IH (Parser.processFieldLine p l) F) as [E D].
    destruct (Parser.processLines (Parser.processFieldLine p l) rest)
      as [p2 e2]. cbn [fst snd] in *. subst e2. split; [reflexivity|].
    rewrite D, processFieldLine_eventData, <- app_assoc.
    destruct (Cycle.dataValue l); reflexivity.
Qed.

(** Past the header gate the parser does what C2 says: a complete cycle
    with at least one [data] line, ended by LF or by CRLF, fed in one call,
    emits exactly one event, whose data is the values of the [data] lines
    joined by line feeds. *)
Lemma feed_single_cycle_after_headers (cr : string) (lines : list string) :
  cr = "" \/ cr = String JS.CR "" ->
  forallb Cycle.isFieldLine lines = true ->
  Cycle.dataValues lines <> [] ->
  exists event,
    snd (Parser.feed (Parser.setHttpHeadersParsed Parser.new true)
           (Cycle.text (cr ++ String JS.LF "") lines)) = [event]
    /\ data event = JS.join (Cycle.dataValues lines) (String JS.LF "").
Proof.
  intros CR F D.
  rewrite feed_eq. cbn [httpHeadersParsed Parser.setHttpHeadersParsed
                         Parser.new buffer append].
  rewrite processBuffer_eq. cbn [buffer Parser.setBuffer].
  destruct (lines_of_cycle cr lines CR F) as [L R]. rewrite L, R.
  rewrite processLines_app.
  match goal with
  | |- context [Parser.processLines ?q lines] =>
      destruct (processLines_fields q lines F) as [E V];
      destruct (Parser.processLines q lines) as [p1 e1]
  end.
  cbn [fst snd eventData Parser.setBuffer app] in *. subst e1.
  cbn [Parser.processLines Parser.processLine String.eqb].
  unfold Parser.dispatchEvent, Parser.pendingEvent. rewrite V.
  destruct (Cycle.dataValues lines) as [|v vs] eqn:DV; [contradiction|].
  eexists. split; reflexivity.
Qed.

End CycleFacts.

(** C2.  The claim fails for the parser as it is built: a fresh parser holds
    back every byte until it has seen CRLF CRLF, so the single-cycle input
    of the test "should parse simple message event", [data: hello world]
    followed by a blank line, emits no event, and the input of the test
    "should handle CRLF line endings" loses its only [data] line to the
    header skip.  The same cycle behind an HTTP header block gives the one
    event that the tests expect. *)
Theorem feed_single_cycle_emits_nothing :
  snd (Parser.feed Parser.new
         ("data: hello world" ++ String JS.LF (String JS.LF ""))) = []
  /\ snd (Parser.feed Parser.new
            ("data: test" ++ JS.CRLFCRLF)) = []
  /\ snd (Parser.feed Parser.new
            ("HTTP/1.1 200 OK" ++ JS.CRLFCRLF
             ++ "data: hello world" ++ String JS.LF (String JS.LF "")))
     = [{| type := "message"; data := "hello world";
           id := None; retry := None |}].
Proof. repeat split. Qed.

(** C3.  Chunk-boundary independence: however the input [s] is cut into
    consecutive chunks, feeding the chunks one by one to a fresh parser
    emits the same events, in the same order, and leaves the parser in the
    same state (so the same [lastEventId] and retry interval) as feeding
    [s] in one call. *)
Theorem feed_chunk_boundary_independence (s : string) (chunks : list string) :
  String.concat "" chunks = s ->
  snd (Parser.feedAll Parser.new chunks) = snd (Parser.feed Parser.new s)
  /\ Parser.getLastEventId (fst (Parser.feedAll Parser.new chunks))
     = Parser.getLastEventId (fst (Parser.feed Parser.new s))
  /\ Parser.getRetryInterval (fst (Parser.feedAll Parser.new chunks))
     = Parser.getRetryInterval (fst (Parser.feed Parser.new s))
  /\ fst (Parser.feedAll Parser.new chunks) = fst (Parser.feed Parser.new s).
Proof.
  intros <-. rewrite (feedAll_concat Parser.new chunks feed_empty_new).
  repeat split.
Qed.

Lemma feed_chunk_boundary_independence_witness :
  let s := "HTTP/1.1 200 OK" ++ JS.CRLFCRLF ++ "id: 7" ++ String JS.LF ""
           ++ "retry: 250" ++ String JS.CR (String JS.LF "")
           ++ "data: a" ++ String JS.LF "" ++ "data:  b"
           ++ String JS.LF (String JS.LF "") ++ "data: c"
           ++ String JS.LF (String JS.CR (String JS.LF "")) in
  let chunks := ["HTTP/1.1 200 OK" ++ String JS.CR (String JS.LF "")
                   ++ String JS.CR "";
                 String JS.LF "" ++ "id: 7" ++ String JS.LF "" ++ "ret";
                 "ry: 250" ++ String JS.CR "";
                 String JS.LF "" ++ "data: a" ++ String JS.LF "" ++ "da";
                 "";
                 "ta:  b" ++ String JS.LF (String JS.LF "") ++ "data: c"
                   ++ String JS.LF (String JS.CR "");
                 String JS.LF ""] in
  List.length (snd (Parser.feed Parser.new s)) = 2
  /\ snd (Parser.feedAll Parser.new chunks) = snd (Parser.feed Parser.new s).
Proof.
  split; [reflexivity|].
  apply (feed_chunk_boundary_independence _ _). reflexivity.
Defined.

(** C10.  As long as the concatenation of everything fed to a fresh parser
    (or to one just [reset()]) holds no CRLF CRLF, no event is emitted,
    [getLastEventId()] and [getRetryInterval()] stay undefined and every
    byte sits in the buffer, the headers still counted as not consumed. *)
Theorem feed_buffers_until_separator (start : SSEParser) (chunks : list string) :
  start = Parser.new \/ (exists p, start = Parser.reset p) ->
  JS.indexOf (String.concat "" chunks) JS.CRLFCRLF = None ->
  snd (Parser.feedAll start chunks) = []
  /\ Parser.getLastEventId (fst (Parser.feedAll start chunks)) = None
  /\ Parser.getRetryInterval (fst (Parser.feedAll start chunks)) = None
  /\ buffer (fst (Parser.feedAll start chunks)) = String.concat "" chunks
  /\ httpHeadersParsed (fst (Parser.feedAll start chunks)) = false.
Proof.
  intros S I.
  assert (start = Parser.new) as -> by (destruct S as [|[p ->]]; trivial).
  rewrite feedAll_before_separator by (trivial; exact I).
  repeat split.
Qed.

Lemma feed_buffers_until_separator_witness :
  let chunks := ["event: endpoint" ++ String JS.LF "" ++ "id: 3";
                 String JS.LF "" ++ "retry: 10" ++ String JS.CR (String JS.LF "");
                 "data: /message?sessionId=abc123"
                   ++ String JS.LF (String JS.LF "")] in
  snd (Parser.feedAll (Parser.reset Parser.new) chunks) = []
  /\ Parser.getLastEventId (fst (Parser.feedAll (Parser.reset Parser.new) chunks))
     = None
  /\ Parser.getRetryInterval
       (fst (Parser.feedAll (Parser.reset Parser.new) chunks)) = None.
Proof.
  intros chunks.
  destruct (feed_buffers_until_separator (Parser.reset Parser.new) chunks)
    as (E & L & R & _).
  - right. exists Parser.new. reflexivity.
  - reflexivity.
  - auto.
Defined.

(** ** The transport: claims *)

Import Transport.

Ltac run_M :=
  unfold Transport.bind, Transport.ret, Transport.get, Transport.modify,
    Transport.emit, Transport.tell, Transport.tellAll,
    Transport.stateOf, Transport.effectsOf, Transport.valueOf in *;
  cbn beta iota zeta in *.

Section TransportFacts.

Lemma TransportState_eqb_eq (a b : TransportState) :
  TransportState_eqb a b = true <-> a = b.
Proof. destruct a, b; simpl; split; intros H; congruence. Qed.

(** [setState] always leaves the transport in the state it was given. *)
Lemma setState_state (s : TransportState) (t : ZitiSSETransport) :
  stateOf (setState s t) = set_state s t.
Proof.
  unfold setState. destruct (TransportState_eqb (_state t) s) eqn:E; simpl.
  - apply TransportState_eqb_eq in E. subst. destruct t; reflexivity.
  - reflexivity.
Qed.

(** It tells the listeners only of a change. *)
Lemma setState_effects (s : TransportState) (t : ZitiSSETransport) :
  effectsOf (setState s t) =
  if TransportState_eqb (_state t) s then [] else [Emit (ev_stateChange s)].
Proof.
  unfold setState. destruct (TransportState_eqb (_state t) s); reflexivity.
Qed.

Lemma setState_eq (s : TransportState) (t : ZitiSSETransport) :
  setState s t =
  (tt, set_state s t,
   if TransportState_eqb (_state t) s then [] else [Emit (ev_stateChange s)]).
Proof.
  pose proof (setState_state s t) as A.
  pose proof (setState_effects s t) as B.
  destruct (setState s t) as [[[] t'] e]. run_M. simpl in *. congruence.
Qed.

End TransportFacts.

(** [reconnect()] on a transport whose stream is open: the [close()] of
    the teardown runs the stream's [close] listener before it returns. *)
Lemma reconnect_open_stream_eq (t : ZitiSSETransport) (h : nat) :
  stream t = Some (mkStream h true) ->
  (Z.of_nat (reconnectAttempts t) < maxReconnectAttempts (options t))%Z ->
  let t1 := set_stream (Some (mkStream h false))
              (set_pendingRequests []
                 (set_state RECONNECTING
                    (set_reconnectAttempts (S (reconnectAttempts t)) t))) in
  let inner := handleStreamClose_inner t1 in
  reconnect t
  = (tt,
     set_sessionId None
       (set_sseParser (Parser.reset (sseParser (stateOf inner)))
          (set_stream None (stateOf inner))),
     (if TransportState_eqb (_state t) RECONNECTING then []
      else [Emit (ev_stateChange RECONNECTING)])
     ++ [Emit (ev_reconnecting (S (reconnectAttempts t)))]
     ++ rejectPending (pendingRequests t)
     ++ [ZitiClose h]
     ++ effectsOf inner
     ++ [SetTimeout ReconnectDelay
           (reconnectDelay (options t)
            * 2 ^ (Z.of_nat (S (reconnectAttempts t)) - 1))])%list.
Proof.
  intros St Lt. cbv zeta. apply Z.leb_gt in Lt.
  unfold reconnect, reconnectWith. run_M. rewrite Lt. rewrite setState_eq.
  unfold cleanup, cleanupWith. run_M.
  cbn [stream set_state set_reconnectAttempts set_pendingRequests
       pendingRequests _state].
  rewrite St. cbn [_isOpen handle]. run_M.
  destruct (handleStreamClose_inner _) as [[[] ti] ei].
  cbn [fst snd]. rewrite ?app_nil_r. cbn [Datatypes.app].
  rewrite <- app_assoc. reflexivity.
Qed.

(** [handleStreamClose] as it runs inside that [close()]: the stream is
    marked closed and the transport is RECONNECTING. *)
Lemma handleStreamClose_inner_eq (t : ZitiSSETransport) (h : nat) :
  stream t = Some (mkStream h false) ->
  _state t = RECONNECTING ->
  pendingRequests t = [] ->
  handleStreamClose_inner t
  = if autoReconnect (options t) then
      if (maxReconnectAttempts (options t) <=? Z.of_nat (reconnectAttempts t))%Z
      then
        (tt, set_state DISCONNECTED (set_sessionId None t),
         [LogError ("Max reconnect attempts ("
                    ++ Value.Z_toString (maxReconnectAttempts (options t))
                    ++ ") exceeded") None;
          Emit (ev_stateChange DISCONNECTED);
          Emit (ev_disconnected "Max reconnect attempts exceeded")])
      else
        (tt,
         tornDown (set_reconnectAttempts (S (reconnectAttempts t)) t),
         [Emit (ev_reconnecting (S (reconnectAttempts t)));
          SetTimeout ReconnectDelay
            (reconnectDelay (options t)
             * 2 ^ (Z.of_nat (S (reconnectAttempts t)) - 1))])
    else
      (tt, set_state DISCONNECTED (set_sessionId None t),
       [Emit (ev_stateChange DISCONNECTED);
        Emit (ev_disconnected "Stream closed")]).
Proof.
  intros St R P.
  unfold handleStreamClose_inner, handleStreamCloseWith. run_M.
  rewrite R. cbn [TransportState_eqb].
  destruct (autoReconnect (options t)).
  - unfold reconnect_inner, reconnectWith. run_M.
    cbn [options reconnectAttempts set_sessionId].
    destruct (maxReconnectAttempts (options t) <=? Z.of_nat (reconnectAttempts t))%Z.
    + rewrite setState_eq. cbn [_state set_sessionId]. rewrite R. reflexivity.
    + rewrite setState_eq.
      cbn [_state set_sessionId set_reconnectAttempts]. rewrite R.
      cbn [TransportState_eqb].
      unfold cleanup_inner, cleanupWith. run_M.
      cbn [stream pendingRequests set_state set_sessionId
           set_reconnectAttempts set_pendingRequests].
      rewrite St, P. cbn [_isOpen rejectPending flat_map fst snd Datatypes.app].
      unfold tornDown. destruct t; cbn in *; subst. reflexivity.
  - rewrite setState_eq. cbn [_state set_sessionId]. rewrite R. reflexivity.
Qed.

(** At the maximum [reconnect()] gives up and sets no timer. *)
Lemma reconnect_at_maximum (t : ZitiSSETransport) :
  (maxReconnectAttempts (options t) <= Z.of_nat (reconnectAttempts t))%Z ->
  reconnect t =
  (tt, set_state DISCONNECTED t,
   [LogError ("Max reconnect attempts ("
              ++ Value.Z_toString (maxReconnectAttempts (options t))
              ++ ") exceeded") None]
   ++ (if TransportState_eqb (_state t) DISCONNECTED then []
       else [Emit (ev_stateChange DISCONNECTED)])
   ++ [Emit (ev_disconnected "Max reconnect attempts exceeded")])%list.
Proof.
  intros H. unfold reconnect, reconnectWith. run_M.
  apply Z.leb_le in H. rewrite H.
  rewrite setState_eq. reflexivity.
Qed.

(** C5.  The code at a trigger that finds the stream open, as the server's
    [reconnect] event does, with the counter below the maximum.  The first
    attempt is announced as the policy says; then the teardown closes the
    stream, the stream emits [close], and the transport's own listener
    takes that for a stream closure.  With auto-reconnect on the policy
    runs a second time inside the first: below the maximum the one trigger
    uses up two attempts and arms two timers; at the maximum the transport
    gives up, DISCONNECTED with "Max reconnect attempts exceeded", although
    the counter had not reached the maximum at the trigger, and the timer of
    the first attempt is armed all the same.  With auto-reconnect off the
    transport ends DISCONNECTED with "Stream closed", the timer armed. *)
Theorem reconnect_directive_on_open_stream
    (t : ZitiSSETransport) (s : ZitiStream) :
  stream t = Some s ->
  _isOpen s = true ->
  (Z.of_nat (reconnectAttempts t) < maxReconnectAttempts (options t))%Z ->
  let attempt := S (reconnectAttempts t) in
  let delay (n : nat) :=
    (reconnectDelay (options t) * 2 ^ (Z.of_nat n - 1))%Z in
  let first :=
    ((if TransportState_eqb (_state t) RECONNECTING then []
      else [Emit (ev_stateChange RECONNECTING)])
     ++ [Emit (ev_reconnecting attempt)]
     ++ rejectPending (pendingRequests t)
     ++ [ZitiClose (handle s)])%list in
  let r := handleReconnectEvent t in
  (autoReconnect (options t) = true ->
   (Z.of_nat attempt < maxReconnectAttempts (options t))%Z ->
   _state (stateOf r) = RECONNECTING
   /\ reconnectAttempts (stateOf r) = S attempt
   /\ effectsOf r
      = (first
         ++ [Emit (ev_reconnecting (S attempt));
             SetTimeout ReconnectDelay (delay (S attempt));
             SetTimeout ReconnectDelay (delay attempt)])%list)
  /\ (autoReconnect (options t) = true ->
      (maxReconnectAttempts (options t) <= Z.of_nat attempt)%Z ->
      _state (stateOf r) = DISCONNECTED
      /\ reconnectAttempts (stateOf r) = attempt
      /\ effectsOf r
         = (first
            ++ [LogError ("Max reconnect attempts ("
                          ++ Value.Z_toString (maxReconnectAttempts (options t))
                          ++ ") exceeded") None;
                Emit (ev_stateChange DISCONNECTED);
                Emit (ev_disconnected "Max reconnect attempts exceeded");
                SetTimeout ReconnectDelay (delay attempt)])%list)
  /\ (autoReconnect (options t) = false ->
      _state (stateOf r) = DISCONNECTED
      /\ reconnectAttempts (stateOf r) = attempt
      /\ effectsOf r
         = (first
            ++ [Emit (ev_stateChange DISCONNECTED);
                Emit (ev_disconnected "Stream closed");
                SetTimeout ReconnectDelay (delay attempt)])%list).
Proof.
  intros St Op Lt. cbv zeta.
  destruct s as [h o]. cbn [_isOpen handle] in *. subst o.
  unfold handleReconnectEvent.
  rewrite (reconnect_open_stream_eq t h St Lt). cbv zeta.
  match goal with
  | |- context [handleStreamClose_inner ?t1] =>
      rewrite (handleStreamClose_inner_eq t1 h eq_refl eq_refl eq_refl)
  end.
  cbn [options reconnectAttempts set_stream set_pendingRequests set_state
       set_reconnectAttempts].
  split; [|split].
  - intros A L. apply Z.leb_gt in L. rewrite A, L.
    split; [reflexivity|]. split; [reflexivity|].
    unfold effectsOf. cbn [fst snd]. rewrite <- !app_assoc. reflexivity.
  - intros A L. apply Z.leb_le in L. rewrite A, L.
    split; [reflexivity|]. split; [reflexivity|].
    unfold effectsOf. cbn [fst snd]. rewrite <- !app_assoc. reflexivity.
  - intros A. rewrite A.
    split; [reflexivity|]. split; [reflexivity|].
    unfold effectsOf. cbn [fst snd]. rewrite <- !app_assoc. reflexivity.
Qed.

Lemma reconnect_directive_on_open_stream_witness :
  let t := Sample.connected Sample.twoAttempts in
  reconnectAttempts t = 0
  /\ reconnectAttempts (stateOf (handleReconnectEvent t)) = 2
  /\ effectsOf (handleReconnectEvent t)
     = [Emit (ev_stateChange RECONNECTING); Emit (ev_reconnecting 1);
        ZitiClose 1; Emit (ev_reconnecting 2);
        SetTimeout ReconnectDelay 100; SetTimeout ReconnectDelay 50].
Proof.
  intros t. split; [reflexivity|].
  destruct (reconnect_directive_on_open_stream t (mkStream 1 true))
    as [A _]; [reflexivity | reflexivity | vm_compute; reflexivity |].
  destruct A as (_ & B & C); [reflexivity | vm_compute; reflexivity |].
  split; [exact B | rewrite C; reflexivity].
Defined.

Section TeardownFacts.

(** Teardown in the CLOSED state: the [close] listener returns at once. *)
Lemma cleanup_CLOSED (t : ZitiSSETransport) :
  _state t = CLOSED ->
  cleanup t = (tt, tornDown t, teardownEffects t).
Proof.
  intros C. unfold cleanup, cleanupWith, teardownEffects, tornDown. run_M.
  destruct (stream t) as [[h o]|] eqn:S; cbn [_isOpen handle].
  - destruct o.
    + unfold handleStreamClose_inner, handleStreamCloseWith. run_M.
      cbn [_state set_stream set_pendingRequests]. rewrite C.
      cbn [TransportState_eqb]. rewrite app_nil_r. reflexivity.
    + rewrite !app_nil_r. reflexivity.
  - destruct t; cbn in *; subst. rewrite ?app_nil_r. reflexivity.
Qed.

(** Teardown with no open stream. *)
Lemma cleanup_no_open_stream (t : ZitiSSETransport) :
  match stream t with Some s => _isOpen s = false | None => True end ->
  cleanup t = (tt, tornDown t, rejectPending (pendingRequests t)).
Proof.
  intros C. unfold cleanup, cleanupWith, tornDown. run_M.
  destruct (stream t) as [[h o]|] eqn:S; cbn [_isOpen handle] in *.
  - subst o. rewrite !app_nil_r. reflexivity.
  - destruct t; cbn in *; subst. rewrite ?app_nil_r. reflexivity.
Qed.

Lemma rejectPending_no_emit (m : list (Json * PendingRequest)) (e : TransportEvent) :
  ~ In (Emit e) (rejectPending m).
Proof.
  induction m as [|[k v] m IH]; simpl; [tauto|].
  intros [H|[H|H]]; try discriminate. exact (IH H).
Qed.

Lemma teardownEffects_no_emit (t : ZitiSSETransport) (e : TransportEvent) :
  ~ In (Emit e) (teardownEffects t).
Proof.
  unfold teardownEffects. rewrite in_app_iff. intros [H|H].
  - exact (rejectPending_no_emit _ _ H).
  - destruct (stream t) as [[h []]|]; simpl in H;
      try tauto. destruct H as [H|[]]. discriminate.
Qed.

Lemma tornDown_idem (t : ZitiSSETransport) : tornDown (tornDown t) = tornDown t.
Proof. reflexivity. Qed.

Lemma disconnect_eq (t : ZitiSSETransport) :
  disconnect t =
  (tt, tornDown (set_state CLOSED t),
   (if TransportState_eqb (_state t) CLOSED then []
    else [Emit (ev_stateChange CLOSED)])
   ++ teardownEffects t
   ++ [Emit (ev_disconnected "User requested disconnect")])%list.
Proof.
  unfold disconnect. run_M. rewrite setState_eq.
  rewrite cleanup_CLOSED by reflexivity.
  reflexivity.
Qed.

End TeardownFacts.

(** With no open stream to close, the teardown inside [reconnect()] starts
    nothing else: the transport is left RECONNECTING, torn down, with the
    counter one higher. *)
Lemma reconnect_no_open_stream (t : ZitiSSETransport) :
  (Z.of_nat (reconnectAttempts t) < maxReconnectAttempts (options t))%Z ->
  match stream t with Some s => _isOpen s = false | None => True end ->
  let after := stateOf (reconnect t) in
  _state after = RECONNECTING
  /\ reconnectAttempts after = S (reconnectAttempts t)
  /\ _sessionId after = None
  /\ stream after = None
  /\ pendingRequests after = [].
Proof.
  intros H C. unfold reconnect, reconnectWith. run_M.
  apply Z.leb_gt in H. rewrite H. rewrite setState_eq.
  rewrite cleanup_no_open_stream by exact C.
  repeat split.
Qed.

(** C7, as the code has it.  [disconnect()] always ends CLOSED and emits the
    change of state only when the transport was not CLOSED before.  A second
    [disconnect()] right after finds nothing left to tear down and leaves
    the transport as it is, but it does run the teardown and it does emit
    the "User requested disconnect" notification again. *)
Theorem disconnect_twice (t : ZitiSSETransport) :
  let r1 := disconnect t in
  let r2 := disconnect (stateOf r1) in
  _state (stateOf r1) = CLOSED
  /\ (In (Emit (ev_stateChange CLOSED)) (effectsOf r1) <-> _state t <> CLOSED)
  /\ stateOf r2 = stateOf r1
  /\ effectsOf r2 = [Emit (ev_disconnected "User requested disconnect")].
Proof.
  cbv zeta. rewrite !disconnect_eq. unfold stateOf, effectsOf.
  cbn [fst snd]. repeat split.
  - rewrite !in_app_iff. intros [H|[H|H]].
    + destruct (TransportState_eqb (_state t) CLOSED) eqn:E; [destruct H|].
      intros C. rewrite C in E. discriminate.
    + destruct (teardownEffects_no_emit _ _ H).
    + destruct H as [H|[]]. discriminate.
  - intros N. rewrite in_app_iff. left.
    destruct (TransportState_eqb (_state t) CLOSED) eqn:E.
    + apply TransportState_eqb_eq in E. contradiction.
    + left. reflexivity.
Qed.

(** C7, as stated, fails: the second [disconnect()] of a transport that is
    already CLOSED emits the disconnect notification again. *)
Lemma disconnect_twice_emits_again :
  let t := Transport.new defaultOptions "svc" None None in
  let closed := stateOf (disconnect t) in
  _state closed = CLOSED
  /\ In (Emit (ev_disconnected "User requested disconnect"))
        (effectsOf (disconnect closed)).
Proof. cbv zeta. split; [reflexivity|]. simpl. left. reflexivity. Qed.

Section SessionFacts.

(** A stream error with auto-reconnect off moves to DISCONNECTED and keeps
    the session id. *)
Lemma handleStreamError_keeps_sessionId (e : JSError) (t : ZitiSSETransport) :
  autoReconnect (options t) = false ->
  handleStreamError e t =
  (tt, set_state DISCONNECTED t,
   [Emit (ev_error e)]
   ++ (if TransportState_eqb (_state t) DISCONNECTED then []
       else [Emit (ev_stateChange DISCONNECTED)])
   ++ [Emit (ev_disconnected (errorMessage e))])%list.
Proof.
  intros A. unfold handleStreamError. run_M. rewrite A. cbn [andb].
  rewrite setState_eq. reflexivity.
Qed.

(** A stream close with auto-reconnect off clears it first. *)
Lemma handleStreamClose_clears_sessionId (t : ZitiSSETransport) :
  autoReconnect (options t) = false ->
  _state t <> CLOSED ->
  handleStreamClose t =
  (tt, set_state DISCONNECTED (set_sessionId None t),
   (if TransportState_eqb (_state t) DISCONNECTED then []
    else [Emit (ev_stateChange DISCONNECTED)])
   ++ [Emit (ev_disconnected "Stream closed")])%list.
Proof.
  intros A C. unfold handleStreamClose, handleStreamCloseWith. run_M.
  destruct (TransportState_eqb (_state t) CLOSED) eqn:E.
  - apply TransportState_eqb_eq in E. contradiction.
  - rewrite A. rewrite setState_eq. reflexivity.
Qed.

Lemma disconnect_checkSession (t : ZitiSSETransport) :
  checkSession (stateOf (disconnect t)) = PollAgain.
Proof. rewrite disconnect_eq. reflexivity. Qed.

End SessionFacts.

(** C1.  The code at the failing input: a transport connected with session
    id "sess123" and auto-reconnect off takes a stream error.  It ends
    DISCONNECTED with the session id still "sess123"; [handleStreamClose],
    on the same transport, clears it. *)
Theorem stream_error_leaves_sessionId :
  let t := Sample.connected Sample.noReconnect in
  let after := stateOf (stream_onError (Error "Connection lost") t) in
  (_state t = CONNECTED /\ _sessionId t = Some "sess123")
  /\ (_state after = DISCONNECTED /\ _sessionId after = Some "sess123")
  /\ _sessionId (stateOf (handleStreamClose t)) = None.
Proof. cbv zeta. repeat split. Qed.

(** C8.  The code after a [disconnect()] that comes while [connect()] waits
    for the session: whatever the transport was, every later run of
    [checkSession] finds it CLOSED with no session and polls again, so the
    wait ends only when the connect timer fires, with the timeout error;
    the "closed before session established" rejection is never raised. *)
Theorem disconnect_during_connect_times_out (t : ZitiSSETransport) (polls : nat) :
  let closed := stateOf (disconnect t) in
  checkSession closed = PollAgain
  /\ waitForSession (repeat closed polls)
     = WaitRejected (Error "Session establishment timeout")
  /\ valueOf (connect_onTimeout closed)
     = ConnectThrows (Error "Failed to connect: Session establishment timeout").
Proof.
  cbv zeta. split; [apply disconnect_checkSession|]. split.
  - induction polls as [|n IH]; simpl; [reflexivity|].
    rewrite disconnect_checkSession. exact IH.
  - rewrite disconnect_eq. reflexivity.
Qed.

Section SendFacts.

Variable JSON_stringify : Json -> string.

Lemma sendImmediate_resume_fails (r : HttpOutcome) (t : ZitiSSETransport) :
  dispatchFails r = true ->
  exists text,
    sendImmediate_resume r t =
    (Throws (Error ("Failed to send message: " ++ text)), t,
     [LogError "Failed to send message:" (Some text)])
    /\ text = match r with
              | Response status body =>
                  "Server error " ++ Value.Z_toString status ++ ": " ++ body
              | Rejected message_error => message_error
              end.
Proof.
  intros F. destruct r as [status body|m]; simpl in F.
  - eexists. split; [|reflexivity].
    unfold sendImmediate_resume. rewrite F. reflexivity.
  - eexists. split; reflexivity.
Qed.

Lemma sendImmediate_resume_succeeds (r : HttpOutcome) (t : ZitiSSETransport) :
  dispatchFails r = false ->
  sendImmediate_resume r t = (Returns tt, t, []).
Proof.
  intros F. destruct r as [status body|m]; simpl in F; [|discriminate].
  unfold sendImmediate_resume. rewrite F. reflexivity.
Qed.

(** The loop of the drain, from its test: it ends with the flag down only
    on an empty queue or a transport that is not ready; otherwise it has
    dispatched one message and waits. *)
Lemma drainLoop_exit (queue : list Json) (t : ZitiSSETransport) :
  messageQueue t = queue ->
  isProcessingQueue t = true ->
  let t' := stateOf (drainLoop JSON_stringify queue t) in
  isProcessingQueue t' = false ->
  messageQueue t' = [] \/ isReady t' = false.
Proof.
  revert t. induction queue as [|m rest IH]; intros t Q P; cbn zeta.
  - intros _. left. simpl. exact Q.
  - cbn [drainLoop]. run_M.
    destruct (isReady t) eqn:R.
    + destruct (Value.truthy m).
      * unfold sendImmediate. run_M. cbn [fst snd]. simpl.
        rewrite P. discriminate.
      * specialize (IH (set_messageQueue rest t) eq_refl P).
        cbn zeta in IH. unfold stateOf in IH.
        destruct (drainLoop JSON_stringify rest (set_messageQueue rest t))
          as [[[] t2] e2]. exact IH.
    + intros _. right. exact R.
Qed.

End SendFacts.

(** C9, as the code has it.  A [send()] on a ready transport dispatches at
    once; a response whose status is 400 or more makes that call fail, with
    the error "Failed to send message: Server error <status>: <body>"; the
    failure is logged and nothing of the transport changes, so no
    reconnection starts.  A response with a lower status, a 3xx included,
    is a success. *)
Theorem send_server_error (JSON_stringify : Json -> string)
    (t : ZitiSSETransport) (m : Json) (status : Z) (body : string) :
  isReady t = true ->
  send JSON_stringify m t =
  (SendAwaitsResponse, t,
   [HttpRequest (serviceName t)
      (messagePath t ++ "?sessionId="
       ++ match _sessionId t with Some s => s | None => "null" end)
      (JSON_stringify m)])
  /\ ((400 <= status)%Z ->
      send_resume (Response status body) t =
      (Throws (Error ("Failed to send message: Server error "
                      ++ Value.Z_toString status ++ ": " ++ body)),
       t,
       [LogError "Failed to send message:"
          (Some ("Server error " ++ Value.Z_toString status ++ ": " ++ body))]))
  /\ ((status < 400)%Z ->
      send_resume (Response status body) t = (Returns tt, t, [])).
Proof.
  intros R. split; [|split].
  - unfold send, sendImmediate. run_M. rewrite R. reflexivity.
  - intros H. unfold send_resume, sendImmediate_resume.
    apply Z.leb_le in H. rewrite H. reflexivity.
  - intros H. unfold send_resume, sendImmediate_resume.
    apply Z.leb_gt in H. rewrite H. reflexivity.
Qed.

Lemma send_server_error_witness :
  let t := Sample.connected Sample.noReconnect in
  valueOf (send_resume (Response 500 "boom") t)
  = Throws (Error "Failed to send message: Server error 500: boom")
  /\ stateOf (send_resume (Response 500 "boom") t) = t
  /\ valueOf (send_resume (Response 302 "") t) = Returns tt.
Proof.
  intros t.
  destruct (send_server_error Sample.stringify t Sample.msg1 500 "boom")
    as (_ & F & _); [reflexivity|].
  destruct (send_server_error Sample.stringify t Sample.msg1 302 "")
    as (_ & _ & S); [reflexivity|].
  rewrite F by lia. rewrite S by lia. repeat split.
Defined.

(** C9, as stated, fails: on a ready transport the error of a [send()] that
    met status 500 is not of the form "Server error <status>: <body>", and
    the non-success status 302 makes no error at all. *)
Lemma send_error_has_prefix :
  let t := Sample.connected Sample.noReconnect in
  isReady t = true
  /\ valueOf (send_resume (Response 500 "boom") t)
     = Throws (Error "Failed to send message: Server error 500: boom")
  /\ valueOf (send_resume (Response 500 "boom") t)
     <> Throws (Error "Server error 500: boom")
  /\ valueOf (send_resume (Response 302 "") t) = Returns tt.
Proof.
  cbv zeta. repeat split. discriminate.
Qed.

(** C6, as the code has it.  The drain is one [try] around the whole loop.
    When the awaited dispatch fails, the failure is logged and the drain is
    over: the queue keeps every remaining entry, in order, none of them is
    attempted, and the flag is lowered.  When it succeeds the loop goes on,
    and then it ends only on an empty queue or a transport that is no longer
    ready. *)
Theorem drain_stops_at_failed_dispatch (JSON_stringify : Json -> string)
    (t : ZitiSSETransport) (r : HttpOutcome) :
  isProcessingQueue t = true ->
  (dispatchFails r = true ->
   exists text,
     processQueuedMessages_resume JSON_stringify r t =
     (tt, set_isProcessingQueue false t,
      [LogError "Failed to send message:" (Some text);
       LogError "Error processing queued messages:"
         (Some ("Failed to send message: " ++ text))]))
  /\
  (dispatchFails r = false ->
   let after := stateOf (processQueuedMessages_resume JSON_stringify r t) in
   processQueuedMessages_resume JSON_stringify r t
   = drainLoop JSON_stringify (messageQueue t) t
   /\ (isProcessingQueue after = false ->
       messageQueue after = [] \/ isReady after = false)).
Proof.
  intros P. split; intros F.
  - destruct (sendImmediate_resume_fails r t F) as (text & E & _).
    exists text. unfold processQueuedMessages_resume. run_M.
    rewrite E. reflexivity.
  - assert (E : processQueuedMessages_resume JSON_stringify r t
                = drainLoop JSON_stringify (messageQueue t) t).
    { unfold processQueuedMessages_resume. run_M.
      rewrite (sendImmediate_resume_succeeds r t F).
      destruct (drainLoop JSON_stringify (messageQueue t) t) as [[[] t2] e2].
      reflexivity. }
    cbv zeta. rewrite E. split; [reflexivity|].
    apply (drainLoop_exit JSON_stringify (messageQueue t) t eq_refl P).
Qed.

Lemma drain_stops_at_failed_dispatch_witness :
  let t := Sample.draining Sample.noReconnect in
  messageQueue (stateOf (processQueuedMessages_resume Sample.stringify
                           (Response 500 "boom") t)) = [Sample.msg2]
  /\ effectsOf (processQueuedMessages_resume Sample.stringify
                  (Response 202 "Accepted") t)
     = [HttpRequest "test-service" "/message?sessionId=sess123"
          (Sample.stringify Sample.msg2)].
Proof.
  intros t.
  destruct (drain_stops_at_failed_dispatch Sample.stringify t
              (Response 500 "boom") eq_refl) as [F _].
  destruct (F eq_refl) as [text ->].
  destruct (drain_stops_at_failed_dispatch Sample.stringify t
              (Response 202 "Accepted") eq_refl) as [_ S].
  destruct (S eq_refl) as [-> _].
  split; reflexivity.
Defined.

(** C6, as stated, fails: two messages are queued, the handshake starts the
    drain, the dispatch of the first one meets status 500.  The drain is
    over with the second message still queued on a transport that is ready,
    and nothing was sent for it. *)
Lemma drain_leaves_entries_unattempted :
  let t := Sample.draining Sample.noReconnect in
  let r := processQueuedMessages_resume Sample.stringify
             (Response 500 "boom") t in
  isProcessingQueue t = true
  /\ isProcessingQueue (stateOf r) = false
  /\ messageQueue (stateOf r) = [Sample.msg2]
  /\ isReady (stateOf r) = true
  /\ effectsOf r =
     [LogError "Failed to send message:" (Some "Server error 500: boom");
      LogError "Error processing queued messages:"
        (Some "Failed to send message: Server error 500: boom")].
Proof. cbv zeta. repeat split. Qed.

Section MapFacts.

Context {V : Type}.

Lemma sameValueZero_eq (a b : Json) :
  Value.sameValueZero a b = true -> a = b.
Proof.
  destruct a, b; simpl; try discriminate; intros H.
  - reflexivity.
  - apply Bool.eqb_prop in H. congruence.
  - apply Z.eqb_eq in H. congruence.
  - apply String.eqb_eq in H. congruence.
Qed.

Lemma has_false_get (m : list (Json * V)) (k : Json) :
  Map.has m k = false -> Map.get m k = None.
Proof.
  induction m as [|[k' v] m IH]; simpl; [reflexivity|].
  intros H. apply orb_false_elim in H as [A B]. rewrite A. exact (IH B).
Qed.

Lemma get_Some_has (m : list (Json * V)) (k : Json) (v : V) :
  Map.get m k = Some v -> Map.has m k = true.
Proof.
  destruct (Map.has m k) eqn:E; [reflexivity|].
  rewrite (has_false_get _ _ E). discriminate.
Qed.

(** [delete] removes the entry of its key. *)
Lemma get_delete (m : list (Json * V)) (k : Json) :
  Map.wf m = true -> Map.get (Map.delete m k) k = None.
Proof.
  induction m as [|[k' v] m IH]; simpl; [reflexivity|].
  intros W. apply andb_true_iff in W as [A B].
  destruct (Value.sameValueZero k' k) eqn:E.
  - apply sameValueZero_eq in E. subst k'.
    apply has_false_get. destruct (Map.has m k); [discriminate|reflexivity].
  - simpl. rewrite E. exact (IH B).
Qed.

(** ... and no other. *)
Lemma get_delete_other (m : list (Json * V)) (k k2 : Json) :
  Value.sameValueZero k k2 = false ->
  Map.get (Map.delete m k) k2 = Map.get m k2.
Proof.
  intros N. induction m as [|[k' v] m IH]; simpl; [reflexivity|].
  destruct (Value.sameValueZero k' k) eqn:E.
  - apply sameValueZero_eq in E. subst k'. rewrite N. reflexivity.
  - simpl. rewrite IH. reflexivity.
Qed.

Lemma has_delete (m : list (Json * V)) (k k2 : Json) :
  Map.has m k2 = false -> Map.has (Map.delete m k) k2 = false.
Proof.
  induction m as [|[k' v] m IH]; simpl; [reflexivity|].
  intros H. apply orb_false_elim in H as [A B].
  destruct (Value.sameValueZero k' k); [exact B|].
  simpl. rewrite A. exact (IH B).
Qed.

Lemma wf_delete (m : list (Json * V)) (k : Json) :
  Map.wf m = true -> Map.wf (Map.delete m k) = true.
Proof.
  induction m as [|[k' v] m IH]; simpl; [reflexivity|].
  intros W. apply andb_true_iff in W as [A B].
  destruct (Value.sameValueZero k' k); [exact B|].
  simpl. rewrite (IH B), andb_true_r.
  rewrite has_delete; [reflexivity|].
  destruct (Map.has m k'); [discriminate|reflexivity].
Qed.

Lemma has_set (m : list (Json * V)) (k k2 : Json) (v : V) :
  Map.has (Map.set m k v) k2 = Map.has m k2 || Value.sameValueZero k k2.
Proof.
  induction m as [|[k' v'] m IH]; simpl.
  - rewrite orb_false_r. reflexivity.
  - destruct (Value.sameValueZero k' k) eqn:E; simpl.
    + apply sameValueZero_eq in E. subst k'.
      destruct (Value.sameValueZero k k2), (Map.has m k2); reflexivity.
    + rewrite IH, orb_assoc. reflexivity.
Qed.

Lemma sameValueZero_sym (a b : Json) :
  Value.sameValueZero a b = Value.sameValueZero b a.
Proof.
  destruct a, b; simpl; try reflexivity.
  - destruct b, b0; reflexivity.
  - apply Z.eqb_sym.
  - apply String.eqb_sym.
Qed.

Lemma wf_set (m : list (Json * V)) (k : Json) (v : V) :
  Map.wf m = true -> Map.wf (Map.set m k v) = true.
Proof.
  induction m as [|[k' v'] m IH]; simpl; [reflexivity|].
  intros W. apply andb_true_iff in W as [A B].
  destruct (Value.sameValueZero k' k) eqn:E; simpl.
  - rewrite A, B. reflexivity.
  - rewrite (IH B), andb_true_r, has_set.
    rewrite (sameValueZero_sym k k'), E, orb_false_r. exact A.
Qed.

(** A key that equals itself (any string or number) is found after
    [set]. *)
Lemma get_set (m : list (Json * V)) (k : Json) (v : V) :
  Value.sameValueZero k k = true -> Map.get (Map.set m k v) k = Some v.
Proof.
  intros R. induction m as [|[k' v'] m IH]; simpl.
  - rewrite R. reflexivity.
  - destruct (Value.sameValueZero k' k) eqn:E; simpl; rewrite E;
      [reflexivity | exact IH].
Qed.

End MapFacts.

Section RequestFacts.

Variable JSON_stringify : Json -> string.

(** [request()] registers its promise and its timer under the message's
    id. *)
Lemma request_registers (m i : Json) (p : nat) (t : ZitiSSETransport) :
  Value.member "id" m = Some i ->
  Value.sameValueZero i i = true ->
  Map.get (pendingRequests (stateOf (request JSON_stringify m p t))) i
  = Some (mkPending p (RequestTimer p)).
Proof.
  intros I R. unfold request. rewrite I. unfold send, sendImmediate. run_M.
  change (isReady (set_pendingRequests
                     (Map.set (pendingRequests t) i
                        (mkPending p (RequestTimer p))) t))
    with (isReady t).
  destruct (isReady t); cbn [negb fst snd pendingRequests set_messageQueue
                               set_pendingRequests];
    apply get_set; exact R.
Qed.

Lemma isMCPMessage_error (m e : Json) :
  isMCPMessage m = true ->
  Value.member "error" m = Some e ->
  Value.truthy e = true
  /\ exists text, Value.member "message" e = Some (JStr text).
Proof.
  destruct m as [| | | | |ms]; try discriminate. simpl.
  intros W E. rewrite E in W.
  rewrite !andb_true_iff in W. destruct W as [_ W].
  destruct e as [| | | | |es]; try discriminate. split; [reflexivity|].
  simpl in *. destruct (Value.lookup "code" es) as [[]|]; try discriminate.
  destruct (Value.lookup "message" es) as [[]|]; try discriminate. eauto.
Qed.

End RequestFacts.

(** C4.  A [message] event whose data parses to an MCP message.  If its id
    is the key of a pending request, the timer of that entry is cleared, the
    entry is removed, and the promise of that [request()] is settled:
    rejected with an error whose message is the parsed [error.message] when
    the message has an [error], resolved with the parsed [result] otherwise;
    nothing reaches the consumer.  If it has no id, or no request is pending
    under it, the message goes to the consumer as a [message] notification
    and the table is left alone. *)
Theorem message_event_settles_request
    (JSON_parse : string -> Json + string) (JSON_stringify : Json -> string)
    (t : ZitiSSETransport) (event : SSEEvent) (m : Json) :
  type event = "message" ->
  JSON_parse (data event) = inl m ->
  isMCPMessage m = true ->
  Map.wf (pendingRequests t) = true ->
  let r := handleSSEEvent JSON_parse JSON_stringify event t in
  (forall i pending,
      Value.member "id" m = Some i ->
      Map.get (pendingRequests t) i = Some pending ->
      stateOf r = set_pendingRequests (Map.delete (pendingRequests t) i) t
      /\ Map.get (pendingRequests (stateOf r)) i = None
      /\ exists settle,
          effectsOf r = [ClearTimeout (timeout pending); settle]
          /\ (forall e, Value.member "error" m = Some e ->
                exists text,
                  Value.member "message" e = Some (JStr text)
                  /\ settle = Reject (promise pending) (Error text))
          /\ (Value.member "error" m = None ->
              settle = Resolve (promise pending) (Value.member "result" m)))
  /\
  ((forall i, Value.member "id" m = Some i ->
              Map.get (pendingRequests t) i = None) ->
   r = (tt, t, [Emit (ev_message m)])).
Proof.
  intros T P W F. cbv zeta. unfold handleSSEEvent. rewrite T.
  cbn [String.eqb Ascii.eqb Bool.eqb]. cbv iota.
  unfold handleMessageEvent. rewrite P.
  destruct m as [| | | | |ms]; try discriminate.
  run_M. split.
  - intros i pending I G. rewrite I, G. cbn [fst snd].
    destruct (Value.member "error" (JObj ms)) as [e|] eqn:E.
    + destruct (isMCPMessage_error _ _ W E) as [Tr [text M]].
      rewrite Tr. cbn [fst snd]. split; [reflexivity|].
      split; [apply get_delete; exact F|].
      eexists. split; [reflexivity|]. split.
      * intros e' [= <-]. exists text. split; [exact M|].
        rewrite M. reflexivity.
      * discriminate.
    + cbn [fst snd]. split; [reflexivity|].
      split; [apply get_delete; exact F|].
      eexists. split; [reflexivity|]. split.
      * discriminate.
      * reflexivity.
  - intros N. destruct (Value.member "id" (JObj ms)) as [i|] eqn:I.
    + rewrite (N i eq_refl). reflexivity.
    + reflexivity.
Qed.

Lemma message_event_settles_request_witness :
  let t := Sample.awaiting Sample.noReconnect in
  let handle := handleSSEEvent Sample.parse Sample.stringify in
  effectsOf (handle (Sample.messageEvent Sample.responseText) t)
  = [ClearTimeout (RequestTimer 1); Resolve 1 (Some (JBool true))]
  /\ effectsOf (handle (Sample.messageEvent Sample.errorText) t)
     = [ClearTimeout (RequestTimer 2); Reject 2 (Error "Invalid Request")]
  /\ handle (Sample.messageEvent Sample.responseText)
       (Sample.connected Sample.noReconnect)
     = (tt, Sample.connected Sample.noReconnect,
        [Emit (ev_message Sample.response)]).
Proof.
  intros t handle. subst handle. split; [|split].
  - destruct (message_event_settles_request Sample.parse Sample.stringify t
                (Sample.messageEvent Sample.responseText) Sample.response
                eq_refl eq_refl eq_refl eq_refl) as [S _].
    destruct (S (JNum 42) (mkPending 1 (RequestTimer 1)) eq_refl eq_refl)
      as (_ & _ & settle & E & _ & R).
    rewrite E, (R eq_refl). reflexivity.
  - destruct (message_event_settles_request Sample.parse Sample.stringify t
                (Sample.messageEvent Sample.errorText) Sample.errorResponse
                eq_refl eq_refl eq_refl eq_refl) as [S _].
    destruct (S (JNum 43) (mkPending 2 (RequestTimer 2)) eq_refl eq_refl)
      as (_ & _ & settle & E & R & _).
    destruct (R _ eq_refl) as (text & M & ->).
    rewrite E. injection M as <-. reflexivity.
  - destruct (message_event_settles_request Sample.parse Sample.stringify
                (Sample.connected Sample.noReconnect)
                (Sample.messageEvent Sample.responseText) Sample.response
                eq_refl eq_refl eq_refl eq_refl) as [_ N].
    apply N. intros i _. reflexivity.
Defined.


(** ** The parser: further properties *)

Section ParserMore.

Lemma sliceFrom_length_app (a b : string) :
  JS.sliceFrom (a ++ b) (String.length a) = b.
Proof. induction a as [|c a IH]; simpl; [destruct b; reflexivity | exact IH]. Qed.

Lemma linesAndRest_rest_no_LF (s : string) :
  JS.includes (snd (linesAndRest s)) JS.LF = false.
Proof.
  induction s as [|c s IH]; [reflexivity|]. simpl.
  destruct (linesAndRest s) as [ls r]. simpl in IH.
  destruct (Ascii.eqb c JS.LF) eqn:E; [exact IH|].
  destruct ls; simpl; [|exact IH]. rewrite E, IH. reflexivity.
Qed.

(** What a line can do to the two fields that outlive an event. *)
Lemma processLine_keeps (p : SSEParser) (line : string) :
  httpHeadersParsed (fst (Parser.processLine p line)) = httpHeadersParsed p
  /\ (lastEventId p <> None ->
      lastEventId (fst (Parser.processLine p line)) <> None)
  /\ (retryInterval p <> None ->
      retryInterval (fst (Parser.processLine p line)) <> None).
Proof.
  unfold Parser.processLine. destruct (line =? "").
  - unfold Parser.dispatchEvent, Parser.pendingEvent, Parser.updateLastEventId.
    destruct (eventData p); [|destruct (eventId p)]; simpl;
      repeat split; auto; discriminate.
  - unfold Parser.processFieldLine, Parser.processField.
    case_fields; simpl; repeat split; auto; discriminate.
Qed.

Lemma processLines_keep (p : SSEParser) (lines : list string) :
  (lastEventId p <> None ->
   lastEventId (fst (Parser.processLines p lines)) <> None)
  /\ (retryInterval p <> None ->
      retryInterval (fst (Parser.processLines p lines)) <> None).
Proof.
  revert p. induction lines as [|l rest IH]; intros p; [simpl; auto|].
  cbn [Parser.processLines].
  destruct (processLine_keeps p l) as (_ & A & B).
  destruct (Parser.processLine p l) as [p1 e1]. cbn [fst] in *.
  destruct (IH p1) as [C D].
  destruct (Parser.processLines p1 rest) as [p2 e2]. cbn [fst] in *.
  split; auto.
Qed.

Lemma processFieldLine_lastEventId (p : SSEParser) (line : string) :
  lastEventId (Parser.processFieldLine p line) = lastEventId p.
Proof.
  unfold Parser.processFieldLine, Parser.processField.
  case_fields; reflexivity.
Qed.

Lemma processLines_fields_lastEventId (p : SSEParser) (lines : list string) :
  forallb Cycle.isFieldLine lines = true ->
  lastEventId (fst (Parser.processLines p lines)) = lastEventId p.
Proof.
  revert p. induction lines as [|l rest IH]; intros p F; [reflexivity|].
  cbn [forallb] in F. apply andb_true_iff in F as [L F].
  unfold Cycle.isFieldLine in L. rewrite !andb_true_iff in L.
  destruct L as [[L0 _] _]. apply negb_true_iff in L0.
  cbn [Parser.processLines]. unfold Parser.processLine. rewrite L0.
  specialize (IH (Parser.processFieldLine p l) F).
  destruct (Parser.processLines (Parser.processFieldLine p l) rest).
  cbn [fst] in *. rewrite IH. apply processFieldLine_lastEventId.
Qed.

Lemma includes_stripSpace (v : string) :
  JS.includes v JS.NUL = true ->
  JS.includes (Parser.stripSpace v) JS.NUL = true.
Proof.
  unfold Parser.stripSpace. destruct (JS.startsWith v " ") eqn:E; [|auto].
  apply startsWith_iff in E as [r ->]. simpl. auto.
Qed.

(** One [feed] of a fresh parser whose chunk holds the separator. *)
Lemma feed_new_past_headers (h body : string) :
  JS.indexOf (h ++ JS.CRLFCRLF) JS.CRLFCRLF = Some (String.length h) ->
  Parser.feed Parser.new (h ++ JS.CRLFCRLF ++ body)
  = Parser.feed (Parser.setHttpHeadersParsed Parser.new true) body.
Proof.
  intros I.
  rewrite !feed_eq. cbn [httpHeadersParsed Parser.new
                          Parser.setHttpHeadersParsed buffer append].
  rewrite <- append_assoc. rewrite (indexOf_app _ body _ _ I).
  replace (String.length h + 4) with (String.length (h ++ JS.CRLFCRLF))
    by (rewrite length_append; reflexivity).
  rewrite sliceFrom_length_app. reflexivity.
Qed.

End ParserMore.

(** X1.  On every parser state, two [feed] calls in a row emit the events,
    and leave the state, of one [feed] call with the two chunks joined. *)
Theorem feed_twice_is_feed_joined (p : SSEParser) (a b : string) :
  let r1 := Parser.feed p a in
  let r2 := Parser.feed (fst r1) b in
  Parser.feed p (a ++ b) = (fst r2, (snd r1 ++ snd r2)%list).
Proof.
  cbv zeta. rewrite feed_app.
  destruct (Parser.feed p a) as [p1 e1]. cbn [fst snd].
  destruct (Parser.feed p1 b) as [p2 e2]. reflexivity.
Qed.

(** X2.  The header skip.  When the input of a fresh parser, cut into chunks
    in any way, is a block [h], the first CRLF CRLF, and a body, the parser
    drops [h] and the separator and goes on as a parser past its headers
    that is fed the body in one call. *)
Theorem feed_skips_http_headers (chunks : list string) (h body : string) :
  String.concat "" chunks = h ++ JS.CRLFCRLF ++ body ->
  JS.indexOf (h ++ JS.CRLFCRLF) JS.CRLFCRLF = Some (String.length h) ->
  Parser.feedAll Parser.new chunks
  = Parser.feed (Parser.setHttpHeadersParsed Parser.new true) body.
Proof.
  intros C I. rewrite (feedAll_concat Parser.new chunks feed_empty_new), C.
  apply feed_new_past_headers. exact I.
Qed.

Lemma feed_skips_http_headers_witness :
  Parser.feedAll Parser.new
    ["HTTP/1.1 200 OK" ++ String JS.CR (String JS.LF "")
       ++ "Content-Type: text/event-stream" ++ String JS.CR "";
     String JS.LF (String JS.CR (String JS.LF "")) ++ "data: te";
     "st" ++ String JS.LF (String JS.LF "")]
  = Parser.feed (Parser.setHttpHeadersParsed Parser.new true)
      ("data: test" ++ String JS.LF (String JS.LF "")).
Proof.
  apply (feed_skips_http_headers _
           ("HTTP/1.1 200 OK" ++ String JS.CR (String JS.LF "")
              ++ "Content-Type: text/event-stream")); reflexivity.
Defined.

(** X3.  A whole HTTP response that carries one event cycle with at least
    one [data] line, its lines ended by LF or by CRLF, cut into chunks in
    any way: a fresh parser emits exactly one event, whose data is the
    values of the [data] lines, in order, joined by line feeds. *)
Theorem feed_response_with_one_cycle
    (chunks : list string) (h cr : string) (lines : list string) :
  String.concat "" chunks
  = h ++ JS.CRLFCRLF ++ Cycle.text (cr ++ String JS.LF "") lines ->
  JS.indexOf (h ++ JS.CRLFCRLF) JS.CRLFCRLF = Some (String.length h) ->
  cr = "" \/ cr = String JS.CR "" ->
  forallb Cycle.isFieldLine lines = true ->
  Cycle.dataValues lines <> [] ->
  exists event,
    snd (Parser.feedAll Parser.new chunks) = [event]
    /\ data event = JS.join (Cycle.dataValues lines) (String JS.LF "").
Proof.
  intros C I CR F D.
  rewrite (feedAll_concat Parser.new chunks feed_empty_new), C.
  rewrite (feed_new_past_headers _ _ I).
  apply feed_single_cycle_after_headers; assumption.
Qed.

Lemma feed_response_with_one_cycle_witness :
  exists event,
    snd (Parser.feedAll Parser.new
           ["HTTP/1.1 200 OK" ++ String JS.CR "";
            String JS.LF (String JS.CR (String JS.LF ""))
              ++ "id: 9" ++ String JS.LF "" ++ "data: line1"
              ++ String JS.LF "" ++ "da";
            "ta:  line2" ++ String JS.LF (String JS.LF "")]) = [event]
    /\ data event = "line1" ++ String JS.LF "" ++ " line2".
Proof.
  apply (feed_response_with_one_cycle _ "HTTP/1.1 200 OK" ""
           ["id: 9"; "data: line1"; "data:  line2"]);
    try reflexivity; [left; reflexivity | discriminate].
Defined.

(** X4.  A cycle with no [data] line emits nothing, whatever [event:] and
    [id:] lines it has: the blank line throws the pending type and id away,
    and the id does not become the last event id. *)
Theorem feed_cycle_without_data (cr : string) (lines : list string) :
  cr = "" \/ cr = String JS.CR "" ->
  forallb Cycle.isFieldLine lines = true ->
  Cycle.dataValues lines = [] ->
  let r := Parser.feed (Parser.setHttpHeadersParsed Parser.new true)
             (Cycle.text (cr ++ String JS.LF "") lines) in
  snd r = []
  /\ eventType (fst r) = "message"
  /\ eventData (fst r) = []
  /\ eventId (fst r) = None
  /\ Parser.getLastEventId (fst r) = None
  /\ Parser.hasPendingData (fst r) = false.
Proof.
  intros CR F D. cbv zeta.
  rewrite feed_eq. cbn [httpHeadersParsed Parser.setHttpHeadersParsed
                         Parser.new buffer append].
  rewrite processBuffer_eq. cbn [buffer Parser.setBuffer].
  destruct (lines_of_cycle cr lines CR F) as [L R]. rewrite L, R.
  rewrite processLines_app.
  match goal with
  | |- context [Parser.processLines ?q lines] =>
      destruct (processLines_fields q lines F) as [E V];
      pose proof (processLines_fields_lastEventId q lines F) as LE;
      pose proof (processLines_buffer q lines) as B;
      destruct (Parser.processLines q lines) as [p1 e1]
  end.
  cbn [fst snd eventData lastEventId buffer Parser.setBuffer app] in *.
  subst e1. rewrite D in V.
  cbn [Parser.processLines Parser.processLine String.eqb].
  unfold Parser.dispatchEvent, Parser.pendingEvent. rewrite V.
  cbn [fst snd app]. unfold Parser.hasPendingData, Parser.getLastEventId.
  destruct p1. cbn in *. subst. repeat split.
Qed.

Lemma feed_cycle_without_data_witness :
  snd (Parser.feed (Parser.setHttpHeadersParsed Parser.new true)
         ("event: test" ++ String JS.LF "" ++ "id: 5"
          ++ String JS.LF (String JS.LF ""))) = []
  /\ Parser.getLastEventId
       (fst (Parser.feed (Parser.setHttpHeadersParsed Parser.new true)
               ("event: test" ++ String JS.LF "" ++ "id: 5"
                ++ String JS.LF (String JS.LF "")))) = None.
Proof.
  destruct (feed_cycle_without_data "" ["event: test"; "id: 5"])
    as (A & _ & _ & _ & B & _);
    [left; reflexivity | reflexivity | reflexivity |].
  split; [exact A | exact B].
Defined.

(** X5.  No [feed] clears the retry interval or the last event id once they
    are set. *)
Theorem feed_keeps_retry_and_lastEventId (p : SSEParser) (chunk : string) :
  (Parser.getRetryInterval p <> None ->
   Parser.getRetryInterval (fst (Parser.feed p chunk)) <> None)
  /\ (Parser.getLastEventId p <> None ->
      Parser.getLastEventId (fst (Parser.feed p chunk)) <> None).
Proof.
  unfold Parser.getRetryInterval, Parser.getLastEventId.
  rewrite feed_eq.
  destruct (httpHeadersParsed p);
    [|destruct (JS.indexOf (buffer p ++ chunk) JS.CRLFCRLF)];
    try rewrite processBuffer_eq;
    try match goal with
        | |- context [Parser.processLines ?q ?ls] =>
            destruct (processLines_keep q ls) as [A B]
        end;
    split; auto.
Qed.

Lemma feed_keeps_retry_and_lastEventId_witness :
  let p := fst (Parser.feed (Parser.setHttpHeadersParsed Parser.new true)
                  ("retry: 5000" ++ String JS.LF "" ++ "id: 1"
                   ++ String JS.LF "" ++ "data: x"
                   ++ String JS.LF (String JS.LF ""))) in
  Parser.getRetryInterval p = Some 5000%Z
  /\ Parser.getRetryInterval
       (fst (Parser.feed p ("retry: soon" ++ String JS.LF ""
                            ++ "data: no id"
                            ++ String JS.LF (String JS.LF "")))) <> None
  /\ Parser.getLastEventId
       (fst (Parser.feed p ("retry: soon" ++ String JS.LF ""
                            ++ "data: no id"
                            ++ String JS.LF (String JS.LF "")))) <> None.
Proof.
  intros p. split; [reflexivity|].
  destruct (feed_keeps_retry_and_lastEventId p
              ("retry: soon" ++ String JS.LF "" ++ "data: no id"
               ++ String JS.LF (String JS.LF ""))) as [A B].
  split; [apply A | apply B]; discriminate.
Defined.

(** X6.  Once the headers are behind, the buffer never holds a line feed
    after a [feed]: every complete line has been processed, only the
    unfinished last line is kept. *)
Theorem feed_buffer_has_no_line_feed (p : SSEParser) (chunk : string) :
  httpHeadersParsed (fst (Parser.feed p chunk)) = true ->
  JS.includes (buffer (fst (Parser.feed p chunk))) JS.LF = false.
Proof.
  rewrite feed_eq.
  destruct (httpHeadersParsed p) eqn:HP;
    [|destruct (JS.indexOf (buffer p ++ chunk) JS.CRLFCRLF)].
  - intros _. rewrite processBuffer_eq, processLines_buffer.
    apply linesAndRest_rest_no_LF.
  - intros _. rewrite processBuffer_eq, processLines_buffer.
    apply linesAndRest_rest_no_LF.
  - cbn [fst httpHeadersParsed Parser.setBuffer]. congruence.
Qed.

Lemma feed_buffer_has_no_line_feed_witness :
  buffer (fst (Parser.feed (Parser.setHttpHeadersParsed Parser.new true)
                 ("data: a" ++ String JS.LF "" ++ "data: b" ++ String JS.CR "")))
  = "data: b" ++ String JS.CR ""
  /\ JS.includes
       (buffer (fst (Parser.feed (Parser.setHttpHeadersParsed Parser.new true)
                       ("data: a" ++ String JS.LF "" ++ "data: b"
                        ++ String JS.CR ""))))
       JS.LF = false.
Proof.
  split; [reflexivity|].
  apply feed_buffer_has_no_line_feed. reflexivity.
Defined.

(** X7.  An [id] line whose value holds a null character changes nothing:
    the pending id, if any, stays. *)
Theorem id_line_with_null_is_ignored (p : SSEParser) (v : string) :
  JS.includes v JS.NUL = true ->
  Parser.processLine p ("id:" ++ v) = (p, []).
Proof.
  intros N.
  assert (I : JS.indexOf ("id:" ++ v) ":" = Some 2)
    by (destruct v; reflexivity).
  unfold Parser.processLine, Parser.processFieldLine.
  cbn [append String.eqb]. cbn [append] in I.
  change (JS.startsWith (String "i" (String "d" (String ":" v))) ":")
    with false. cbv iota. rewrite I.
  unfold Parser.processField.
  cbn [JS.sliceTo JS.sliceFrom Nat.add String.eqb Ascii.eqb Bool.eqb].
  cbv iota. rewrite (includes_stripSpace v N). reflexivity.
Qed.

Lemma id_line_with_null_is_ignored_witness :
  Parser.processLine (Parser.setEventId Parser.new (Some "7"))
    ("id: abc" ++ String JS.NUL "def")
  = (Parser.setEventId Parser.new (Some "7"), []).
Proof.
  apply (id_line_with_null_is_ignored _ (" abc" ++ String JS.NUL "def")).
  reflexivity.
Defined.

(** ** The transport: further properties *)

Section EndpointFacts.

Lemma takeToken_split (s : string) :
  isToken_chars (takeToken s) = true
  /\ exists post,
       s = takeToken s ++ post
       /\ match post with
          | EmptyString => True
          | String c _ => isTokenChar c = false
          end.
Proof.
  induction s as [|c s [IH1 (post & IH2 & IH3)]].
  - split; [reflexivity|]. exists "". split; [reflexivity | exact I].
  - cbn [takeToken]. destruct (isTokenChar c) eqn:E.
    + split; [cbn; rewrite E; exact IH1|].
      exists post. split; [cbn [append]; rewrite <- IH2; reflexivity | exact IH3].
    + split; [reflexivity|]. exists (String c s). split; [reflexivity | exact E].
Qed.

Lemma takeToken_token (s : string) :
  isToken_chars s = true -> takeToken s = s.
Proof.
  induction s as [|c s IH]; [reflexivity|]. cbn.
  intros H. apply andb_true_iff in H as [A B]. rewrite A, (IH B). reflexivity.
Qed.

Lemma matchSessionId_eq (s : string) :
  matchSessionId s =
  match (if JS.startsWith s "sessionId=" then
           match takeToken (JS.sliceFrom s 10) with
           | EmptyString => None
           | tok => Some tok
           end
         else None) with
  | Some tok => Some tok
  | None => match s with
            | EmptyString => None
            | String _ s' => matchSessionId s'
            end
  end.
Proof. destruct s; reflexivity. Qed.

End EndpointFacts.

(** X8.  What the session pattern returns is a token of the data: it is not
    empty, holds no [&] and no white space, follows a [sessionId=] in the
    data, and ends where the data ends or at a character that cannot be in a
    token. *)
Theorem matchSessionId_sound (s tok : string) :
  matchSessionId s = Some tok ->
  isToken tok = true
  /\ exists pre post,
       s = pre ++ "sessionId=" ++ tok ++ post
       /\ match post with
          | EmptyString => True
          | String c _ => isTokenChar c = false
          end.
Proof.
  induction s as [|c s IH]; rewrite matchSessionId_eq.
  - change (JS.startsWith "" "sessionId=") with false. discriminate.
  - destruct (JS.startsWith (String c s) "sessionId=") eqn:E.
    + apply startsWith_iff in E as [r E].
      replace (JS.sliceFrom (String c s) 10) with r
        by (rewrite E; reflexivity).
      destruct (takeToken_split r) as [T (post & R & P)].
      destruct (takeToken r) as [|d tk] eqn:K.
      * intros H. destruct (IH H) as [A (pre & post' & B & C)].
        split; [exact A|]. exists (String c pre), post'.
        split; [|exact C].
  change (String c s = String c (pre ++ "sessionId=" ++ tok ++ post')).
  f_equal. exact B.
      * intros [= <-]. split; [exact T|].
        exists "", post. split; [|exact P].
        rewrite E, R at 1. reflexivity.
    + intros H. destruct (IH H) as [A (pre & post' & B & C)].
      split; [exact A|]. exists (String c pre), post'.
      split; [|exact C].
  change (String c s = String c (pre ++ "sessionId=" ++ tok ++ post')).
  f_equal. exact B.
Qed.

Lemma matchSessionId_sound_witness :
  isToken "abc123" = true
  /\ exists pre post,
       "/message?sessionId=abc123&x=1" = pre ++ "sessionId=" ++ "abc123" ++ post
       /\ match post with
          | EmptyString => True
          | String c _ => isTokenChar c = false
          end.
Proof.
  apply (matchSessionId_sound "/message?sessionId=abc123&x=1" "abc123").
  reflexivity.
Defined.

(** X9.  The session id round trip: a token, put behind
    [/message?sessionId=] as [sendImmediate] does with the default message
    path, is what the session pattern reads back from that path; so the id
    taken from an [endpoint] event is the id the server finds in the path of
    every send. *)
Theorem matchSessionId_of_send_path (sid : string) :
  isToken sid = true ->
  matchSessionId ("/message" ++ "?sessionId=" ++ sid) = Some sid.
Proof.
  unfold isToken. intros H. apply andb_true_iff in H as [N T].
  destruct sid as [|c sid]; [discriminate|].
  cbn [append].
  do 9 (rewrite matchSessionId_eq;
        match goal with
        | |- context [JS.startsWith ?x "sessionId="] =>
            change (JS.startsWith x "sessionId=") with false
        end; cbv iota).
  rewrite matchSessionId_eq.
  match goal with
  | |- context [JS.startsWith ?x "sessionId="] =>
      change (JS.startsWith x "sessionId=") with true
  end.
  cbv iota. cbn [JS.sliceFrom]. rewrite (takeToken_token _ T). reflexivity.
Qed.

Lemma matchSessionId_of_send_path_witness :
  matchSessionId "/message?sessionId=test-session-123" = Some "test-session-123".
Proof.
  apply (matchSessionId_of_send_path "test-session-123"). reflexivity.
Defined.

Section DrainFacts.

Variable JSON_stringify : Json -> string.

Lemma sameButQueue_refl (t : ZitiSSETransport) : sameButQueue t t.
Proof. repeat split. Qed.

Lemma sameButQueue_isReady (t t' : ZitiSSETransport) :
  sameButQueue t t' -> isReady t' = isReady t.
Proof. intros (A & B & _). unfold isReady. rewrite A, B. reflexivity. Qed.

(** The loop of the drain, from its test to where it stops: it touches the
    queue and the flag only, and sends for at most one message, one that was
    queued. *)
Lemma drainLoop_shape (queue : list Json) (t : ZitiSSETransport) :
  sameButQueue t (stateOf (drainLoop JSON_stringify queue t))
  /\ (effectsOf (drainLoop JSON_stringify queue t) = []
      \/ exists m, In m queue
                   /\ effectsOf (drainLoop JSON_stringify queue t)
                      = [Run.requestFor JSON_stringify t m]).
Proof.
  revert t. induction queue as [|m rest IH]; intros t.
  - split; [repeat split | left; reflexivity].
  - cbn [drainLoop]. run_M. destruct (isReady t) eqn:R.
    + destruct (Value.truthy m).
      * unfold sendImmediate. run_M. cbn [fst snd].
        split; [repeat split|].
        right. exists m. split; [left; reflexivity | reflexivity].
      * destruct (IH (set_messageQueue rest t)) as [A B].
        unfold stateOf, effectsOf in *.
        destruct (drainLoop JSON_stringify rest (set_messageQueue rest t))
          as [[[] t2] e2]. cbn [fst snd] in *.
        split; [exact A|].
        destruct B as [B | (m' & I & B)]; [left; exact B|].
        right. exists m'. split; [right; exact I | exact B].
    + split; [repeat split | left; reflexivity].
Qed.

Lemma processQueuedMessages_shape (t : ZitiSSETransport) :
  sameButQueue t (stateOf (processQueuedMessages JSON_stringify t))
  /\ (effectsOf (processQueuedMessages JSON_stringify t) = []
      \/ exists m, In m (messageQueue t)
                   /\ effectsOf (processQueuedMessages JSON_stringify t)
                      = [Run.requestFor JSON_stringify t m]).
Proof.
  unfold processQueuedMessages. run_M.
  destruct (isProcessingQueue t).
  - split; [repeat split | left; reflexivity].
  - destruct (drainLoop_shape (messageQueue t) (set_isProcessingQueue true t))
      as [A B].
    unfold stateOf, effectsOf in *.
    change (messageQueue (set_isProcessingQueue true t))
      with (messageQueue t).
    destruct (drainLoop JSON_stringify (messageQueue t)
                (set_isProcessingQueue true t)) as [[[] t2] e2].
    cbn [fst snd] in *. split; [exact A | exact B].
Qed.

(** A drain in flight that is resumed with successes goes through the whole
    queue, in order. *)
Lemma drainLoop_resumeAll (queue : list Json) (t : ZitiSSETransport)
    (outcomes : list HttpOutcome) :
  isReady t = true ->
  messageQueue t = queue ->
  forallb Value.truthy queue = true ->
  List.length outcomes = List.length queue ->
  forallb (fun r => negb (dispatchFails r)) outcomes = true ->
  bind (drainLoop JSON_stringify queue) (fun _ => Run.resumeAll JSON_stringify outcomes) t
  = (tt, set_isProcessingQueue false (set_messageQueue [] t),
     map (Run.requestFor JSON_stringify t) queue).
Proof.
  revert t outcomes. induction queue as [|m rest IH]; intros t outcomes R Q T L S.
  - destruct outcomes; [|discriminate]. cbn. rewrite <- Q.
    destruct t; reflexivity.
  - destruct outcomes as [|r outcomes]; [discriminate|].
    cbn [forallb] in T, S. apply andb_true_iff in T as [Tm T].
    apply andb_true_iff in S as [Sr S]. apply negb_true_iff in Sr.
    injection L as L.
    specialize (IH (set_messageQueue rest t) outcomes R eq_refl T L S).
    cbn [drainLoop Run.resumeAll map]. unfold processQueuedMessages_resume.
    run_M. rewrite R, Tm. unfold sendImmediate. run_M. cbn [fst snd].
    rewrite (sendImmediate_resume_succeeds r _ Sr).
    cbn [messageQueue set_messageQueue].
    unfold bind in IH.
    destruct (drainLoop JSON_stringify rest (set_messageQueue rest t))
      as [[[] t2] e2].
    destruct (Run.resumeAll JSON_stringify outcomes t2) as [[[] t3] e3].
    injection IH as -> E. cbn [app map].
    change (map (Run.requestFor JSON_stringify (set_messageQueue rest t)) rest)
      with (map (Run.requestFor JSON_stringify t) rest) in E.
    rewrite <- E. reflexivity.
Qed.

End DrainFacts.

(** X10.  The handshake.  An [endpoint] event whose data holds a session
    token leaves the transport CONNECTED and ready with that token as
    session id and the attempt counter at zero; the pending requests stay;
    [connected] is emitted once, after the change of state if there is one,
    and the only thing that follows is the first dispatch of the drain.
    Without a token nothing changes and an error is emitted. *)
Theorem handleEndpointEvent_handshake (JSON_stringify : Json -> string)
    (t : ZitiSSETransport) (event : SSEEvent) :
  let r := handleEndpointEvent JSON_stringify event t in
  (forall sid,
      matchSessionId (data event) = Some sid ->
      _state (stateOf r) = CONNECTED
      /\ _sessionId (stateOf r) = Some sid
      /\ reconnectAttempts (stateOf r) = 0
      /\ isReady (stateOf r) = true
      /\ pendingRequests (stateOf r) = pendingRequests t
      /\ exists dispatch,
          effectsOf r =
          ((if TransportState_eqb (_state t) CONNECTED then []
            else [Emit (ev_stateChange CONNECTED)])
           ++ [Emit ev_connected] ++ dispatch)%list
          /\ (dispatch = []
              \/ exists m,
                  In m (messageQueue t)
                  /\ dispatch
                     = [Run.requestFor JSON_stringify
                          (set_sessionId (Some sid) t) m]))
  /\ (matchSessionId (data event) = None ->
      r = (tt, t,
           [LogError "Failed to extract sessionId from endpoint event" None;
            Emit (ev_error (Error "Invalid endpoint event: missing sessionId"))])).
Proof.
  cbv zeta. unfold handleEndpointEvent. split.
  - intros sid M. rewrite M. run_M. rewrite setState_eq.
    match goal with
    | |- context [processQueuedMessages JSON_stringify ?t1] =>
        destruct (processQueuedMessages_shape JSON_stringify t1)
          as [(A1 & A2 & A3 & A4 & A5 & A6 & A7 & A8 & A9 & A10) B];
        pose proof (sameButQueue_isReady t1 _
                      (proj1 (processQueuedMessages_shape JSON_stringify t1)))
          as RD;
        unfold stateOf, effectsOf in *;
        destruct (processQueuedMessages JSON_stringify t1) as [[[] t2] e2]
    end.
    cbn [fst snd] in *.
    repeat split; try assumption.
    exists e2. split.
    + reflexivity.
    + destruct B as [B | (m & I & B)]; [left; exact B|].
      right. exists m. split; [exact I | exact B].
  - intros M. rewrite M. reflexivity.
Qed.

Lemma handleEndpointEvent_handshake_witness :
  let t := stateOf (send Sample.stringify Sample.msg1
                      (Transport.new Sample.noReconnect "test-service" None None)) in
  let event := {| type := "endpoint"; data := "/message?sessionId=abc123";
                  id := None; retry := None |} in
  _sessionId (stateOf (handleEndpointEvent Sample.stringify event t))
  = Some "abc123"
  /\ isReady (stateOf (handleEndpointEvent Sample.stringify event t)) = true.
Proof.
  intros t event.
  destruct (handleEndpointEvent_handshake Sample.stringify t event) as [H _].
  destruct (H "abc123" eq_refl) as (_ & A & _ & B & _).
  split; [exact A | exact B].
Defined.

(** X11.  While the transport is not ready, [send()] only queues: any number
    of messages sent in a row end up behind the ones already queued, in the
    order of the calls, and nothing is dispatched. *)
Theorem send_while_not_ready_queues (JSON_stringify : Json -> string)
    (t : ZitiSSETransport) (ms : list Json) :
  isReady t = false ->
  Run.sendAll JSON_stringify ms t
  = (tt, set_messageQueue (messageQueue t ++ ms)%list t, []).
Proof.
  revert t. induction ms as [|m rest IH]; intros t R.
  - cbn. rewrite app_nil_r. destruct t; reflexivity.
  - cbn [Run.sendAll]. unfold send. run_M. rewrite R. cbn [negb fst snd].
    rewrite IH by exact R.
    cbn [messageQueue set_messageQueue]. unfold Queue.push.
    rewrite <- app_assoc. reflexivity.
Qed.

Lemma send_while_not_ready_queues_witness :
  let t := Transport.new Sample.noReconnect "test-service" None None in
  messageQueue (stateOf (Run.sendAll Sample.stringify
                           [Sample.msg1; Sample.msg2] t))
  = [Sample.msg1; Sample.msg2].
Proof.
  intros t.
  rewrite (send_while_not_ready_queues Sample.stringify t) by reflexivity.
  reflexivity.
Defined.

(** X12.  A drain on a ready transport, every dispatch of which succeeds
    and with nothing else happening in between, sends every queued message,
    oldest first, each to the message path of the current session, and ends
    with the queue empty and the flag down. *)
Theorem drain_dispatches_in_order (JSON_stringify : Json -> string)
    (t : ZitiSSETransport) (outcomes : list HttpOutcome) :
  isReady t = true ->
  isProcessingQueue t = false ->
  forallb Value.truthy (messageQueue t) = true ->
  List.length outcomes = List.length (messageQueue t) ->
  forallb (fun r => negb (dispatchFails r)) outcomes = true ->
  Run.drainWith JSON_stringify outcomes t
  = (tt, set_messageQueue [] t,
     map (Run.requestFor JSON_stringify t) (messageQueue t)).
Proof.
  intros R P T L S. unfold Run.drainWith, processQueuedMessages.
  pose proof (drainLoop_resumeAll JSON_stringify (messageQueue t)
                (set_isProcessingQueue true t) outcomes R eq_refl T L S) as D.
  run_M. rewrite P.
  change (messageQueue (set_isProcessingQueue true t)) with (messageQueue t).
  destruct (drainLoop JSON_stringify (messageQueue t)
              (set_isProcessingQueue true t)) as [[[] t2] e2].
  destruct (Run.resumeAll JSON_stringify outcomes t2) as [[[] t3] e3].
  injection D as -> E.
  change (([] ++ [] ++ [] ++ e2) ++ e3)%list with (e2 ++ e3)%list.
  rewrite E.
  change (map (Run.requestFor JSON_stringify (set_isProcessingQueue true t))
            (messageQueue t))
    with (map (Run.requestFor JSON_stringify t) (messageQueue t)).
  f_equal. f_equal.
  destruct t; cbn in *; subst; reflexivity.
Qed.

Lemma drain_dispatches_in_order_witness :
  let queued :=
    stateOf (Run.sendAll Sample.stringify [Sample.msg1; Sample.msg2]
               (Transport.new Sample.noReconnect "test-service" None None)) in
  let t := set_sessionId (Some "sess456") (set_state CONNECTED queued) in
  Run.drainWith Sample.stringify
    [Response 202 "Accepted"; Response 202 "Accepted"] t
  = (tt, set_messageQueue [] t,
     [HttpRequest "test-service" "/message?sessionId=sess456"
        (Sample.stringify Sample.msg1);
      HttpRequest "test-service" "/message?sessionId=sess456"
        (Sample.stringify Sample.msg2)]).
Proof.
  intros queued t.
  rewrite (drain_dispatches_in_order Sample.stringify t); reflexivity.
Defined.

Section RequestMore.

Variable JSON_stringify : Json -> string.

Lemma delete_set_fresh {V} (m : list (Json * V)) (k : Json) (v : V) :
  Value.sameValueZero k k = true ->
  Map.has m k = false ->
  Map.delete (Map.set m k v) k = m.
Proof.
  intros R. induction m as [|[k' v'] m IH]; simpl; intros H.
  - rewrite R. reflexivity.
  - apply orb_false_elim in H as [A B]. rewrite A. simpl. rewrite A.
    rewrite (IH B). reflexivity.
Qed.

Lemma request_pendingRequests (m i : Json) (p : nat) (t : ZitiSSETransport) :
  Value.member "id" m = Some i ->
  pendingRequests (stateOf (request JSON_stringify m p t))
  = Map.set (pendingRequests t) i (mkPending p (RequestTimer p)).
Proof.
  intros I. unfold request. rewrite I. unfold send, sendImmediate. run_M.
  change (isReady (set_pendingRequests
                     (Map.set (pendingRequests t) i
                        (mkPending p (RequestTimer p))) t))
    with (isReady t).
  destruct (isReady t); reflexivity.
Qed.

Lemma set_existing {V} (m : list (Json * V)) (k : Json) (v : V) :
  Map.has m k = true ->
  List.length (Map.set m k v) = List.length m.
Proof.
  induction m as [|[k' v'] m IH]; simpl; [discriminate|].
  destruct (Value.sameValueZero k' k); simpl; [reflexivity|].
  intros H. rewrite (IH H). reflexivity.
Qed.

End RequestMore.

(** X13.  A request under an id that is not pending, then its timeout: the
    pending table is what it was before the request, and the promise is
    rejected with "Request timeout for id: <id>".  If the transport was not
    ready the message of the request is still in the queue afterwards, to be
    sent by the next drain.  The id is a string, a boolean, [null] or a safe
    integer: the text of a number past the safe range is not the one given
    here. *)
Theorem request_then_timeout (JSON_stringify : Json -> string)
    (m i : Json) (p : nat) (t : ZitiSSETransport) :
  Value.member "id" m = Some i ->
  Value.sameValueZero i i = true ->
  Value.safe i = true ->
  Map.has (pendingRequests t) i = false ->
  let registered := stateOf (request JSON_stringify m p t) in
  let r := request_timeout i p registered in
  Map.get (pendingRequests registered) i = Some (mkPending p (RequestTimer p))
  /\ pendingRequests (stateOf r) = pendingRequests t
  /\ effectsOf r
     = [Reject p (Error ("Request timeout for id: " ++ Value.toString i))]
  /\ messageQueue (stateOf r)
     = (if isReady t then messageQueue t
        else Queue.push (messageQueue t) m).
Proof.
  intros I R _ H. cbv zeta. split; [|split; [|split]].
  - rewrite (request_pendingRequests JSON_stringify m i p t I).
    apply get_set. exact R.
  - pose proof (request_pendingRequests JSON_stringify m i p t I) as E.
    unfold request_timeout. run_M. cbn [fst snd pendingRequests
                                         set_pendingRequests].
    rewrite E. apply delete_set_fresh; assumption.
  - reflexivity.
  - unfold request_timeout, request. rewrite I. unfold send, sendImmediate.
    run_M.
    change (isReady (set_pendingRequests
                       (Map.set (pendingRequests t) i
                          (mkPending p (RequestTimer p))) t))
      with (isReady t).
    destruct (isReady t); reflexivity.
Qed.

Lemma request_then_timeout_witness :
  let t := Transport.new Sample.noReconnect "test-service" None None in
  let m := JObj [("jsonrpc", JStr "2.0"); ("id", JNum 1); ("method", JStr "x")] in
  let r := request_timeout (JNum 1) 7
             (stateOf (request Sample.stringify m 7 t)) in
  pendingRequests (stateOf r) = []
  /\ effectsOf r = [Reject 7 (Error "Request timeout for id: 1")]
  /\ messageQueue (stateOf r) = [m].
Proof.
  intros t m r.
  destruct (request_then_timeout Sample.stringify m (JNum 1) 7 t
              eq_refl eq_refl eq_refl eq_refl) as (_ & A & B & C).
  split; [exact A|]. split; [exact B | exact C].
Defined.

(** X14.  Two requests under one id.  The second one takes the place of the
    first in the pending table, which does not grow; and when the timer of
    the first request fires it removes the entry of the second, whose
    promise can then no longer be settled by a response. *)
Theorem request_id_collision (JSON_stringify : Json -> string)
    (m1 m2 i : Json) (p1 p2 : nat) (t : ZitiSSETransport) :
  Value.member "id" m1 = Some i ->
  Value.member "id" m2 = Some i ->
  Value.sameValueZero i i = true ->
  Map.wf (pendingRequests t) = true ->
  let first := stateOf (request JSON_stringify m1 p1 t) in
  let second := stateOf (request JSON_stringify m2 p2 first) in
  Map.get (pendingRequests second) i = Some (mkPending p2 (RequestTimer p2))
  /\ List.length (pendingRequests second) = List.length (pendingRequests first)
  /\ Map.get (pendingRequests (stateOf (request_timeout i p1 second))) i = None.
Proof.
  intros I1 I2 R W. cbv zeta.
  rewrite (request_pendingRequests JSON_stringify m2 i p2 _ I2).
  rewrite (request_pendingRequests JSON_stringify m1 i p1 _ I1).
  split; [apply get_set; exact R|]. split.
  - apply set_existing. rewrite has_set, R. apply orb_true_r.
  - pose proof (request_pendingRequests JSON_stringify m2 i p2
                  (stateOf (request JSON_stringify m1 p1 t)) I2) as E2.
    rewrite (request_pendingRequests JSON_stringify m1 i p1 _ I1) in E2.
    unfold request_timeout. run_M.
    cbn [fst snd pendingRequests set_pendingRequests].
    rewrite E2. apply get_delete. apply wf_set, wf_set. exact W.
Qed.

Lemma request_id_collision_witness :
  let t := Sample.connected Sample.noReconnect in
  let m := JObj [("jsonrpc", JStr "2.0"); ("id", JNum 42);
                 ("method", JStr "tools/list")] in
  let second := stateOf (request Sample.stringify m 2
                           (stateOf (request Sample.stringify m 1 t))) in
  Map.get (pendingRequests second) (JNum 42)
  = Some (mkPending 2 (RequestTimer 2))
  /\ Map.get (pendingRequests (stateOf (request_timeout (JNum 42) 1 second)))
       (JNum 42) = None.
Proof.
  intros t m second.
  destruct (request_id_collision Sample.stringify m m (JNum 42) 1 2 t
              eq_refl eq_refl eq_refl eq_refl) as (A & _ & B).
  split; [exact A | exact B].
Defined.

Section TeardownMore.

Local Open Scope transport_scope.

Lemma teardownKeeps_refl (t : ZitiSSETransport) : teardownKeeps t t.
Proof. repeat split; auto. Qed.

Lemma teardownKeeps_trans (a b c : ZitiSSETransport) :
  teardownKeeps a b -> teardownKeeps b c -> teardownKeeps a c.
Proof.
  intros (A1 & A2 & A3 & A4 & A5 & A6) (B1 & B2 & B3 & B4 & B5 & B6).
  repeat split; try congruence; auto.
  intros H. rewrite A3 in B6. auto.
Qed.

Lemma stateOf_bind {A B} (m : M A) (k : A -> M B) (t : ZitiSSETransport) :
  stateOf (bind m k t) = stateOf (k (valueOf (m t)) (stateOf (m t))).
Proof.
  unfold bind, stateOf, valueOf. destruct (m t) as [[a t1] e1]. cbn [fst snd].
  destruct (k a t1) as [[b t2] e2]. reflexivity.
Qed.

Lemma effectsOf_bind {A B} (m : M A) (k : A -> M B) (t : ZitiSSETransport) :
  effectsOf (bind m k t)
  = (effectsOf (m t) ++ effectsOf (k (valueOf (m t)) (stateOf (m t))))%list.
Proof.
  unfold bind, stateOf, valueOf, effectsOf.
  destruct (m t) as [[a t1] e1]. cbn [fst snd].
  destruct (k a t1) as [[b t2] e2]. reflexivity.
Qed.

Lemma stepKeeps_bind {A B} (m : M A) (k : A -> M B) :
  stepKeeps m -> (forall a, stepKeeps (k a)) -> stepKeeps (bind m k).
Proof.
  intros Hm Hk t. rewrite stateOf_bind.
  eapply teardownKeeps_trans; [apply Hm | apply Hk].
Qed.

Lemma stepKeeps_get {B} (k : ZitiSSETransport -> M B) :
  (forall t0, stepKeeps (k t0)) -> stepKeeps (bind get k).
Proof. intros H t. rewrite stateOf_bind. apply H. Qed.

Lemma stepKeeps_ret {A} (a : A) : stepKeeps (ret a).
Proof. intros t. apply teardownKeeps_refl. Qed.

Lemma stepKeeps_tell (e : Effect) : stepKeeps (tell e).
Proof. intros t. apply teardownKeeps_refl. Qed.

Lemma stepKeeps_tellAll (es : list Effect) : stepKeeps (tellAll es).
Proof. intros t. apply teardownKeeps_refl. Qed.

Lemma stepKeeps_setState (s : TransportState) : stepKeeps (setState s).
Proof. intros t. rewrite setState_state. repeat split; auto. Qed.

Lemma stepKeeps_cleanupWith (f : M unit) :
  stepKeeps f -> stepKeeps (cleanupWith f).
Proof.
  intros Hf. unfold cleanupWith.
  apply stepKeeps_get. intros t0.
  apply stepKeeps_bind; [apply stepKeeps_tellAll|]. intros _.
  apply stepKeeps_bind; [intros t; repeat split; cbn; auto|]. intros _.
  apply stepKeeps_bind.
  - destruct (stream t0) as [s|]; [|apply stepKeeps_ret].
    apply stepKeeps_bind; [|intros _; intros t; repeat split; cbn; auto].
    destruct (_isOpen s); [|apply stepKeeps_ret].
    apply stepKeeps_bind; [intros t; repeat split; cbn; auto|]. intros _.
    apply stepKeeps_bind; [apply stepKeeps_tell|]. intros _. exact Hf.
  - intros _.
    apply stepKeeps_bind; [intros t; repeat split; cbn; auto|]. intros _.
    intros t; repeat split; cbn; auto.
Qed.

Lemma stepKeeps_reconnectWith (c : M unit) :
  stepKeeps c -> stepKeeps (reconnectWith c).
Proof.
  intros Hc. unfold reconnectWith.
  intros t. rewrite stateOf_bind.
  change (stateOf (get t)) with t. change (valueOf (get t)) with t.
  destruct (maxReconnectAttempts (options t)
            <=? Z.of_nat (reconnectAttempts t))%Z eqn:E.
  - revert t E. 
    assert (K : forall t0 : ZitiSSETransport,
               stepKeeps
                 (tell (LogError
                          ("Max reconnect attempts ("
                           ++ Value.Z_toString (maxReconnectAttempts (options t0))
                           ++ ") exceeded") None) ;;
                  setState DISCONNECTED ;;
                  emit (ev_disconnected "Max reconnect attempts exceeded"))).
    { intros t0. apply stepKeeps_bind; [apply stepKeeps_tell|]. intros _.
      apply stepKeeps_bind; [apply stepKeeps_setState|]. intros _.
      apply stepKeeps_tell. }
    intros t _. apply K.
  - apply Z.leb_gt in E.
    rewrite stateOf_bind.
    eapply teardownKeeps_trans.
    + instantiate (1 := set_reconnectAttempts (S (reconnectAttempts t)) t).
      repeat split; cbn; auto. intros _. lia.
    + change (stateOf (modify (set_reconnectAttempts (S (reconnectAttempts t))) t))
        with (set_reconnectAttempts (S (reconnectAttempts t)) t).
      assert (K : stepKeeps
                    (setState RECONNECTING ;;
                     emit (ev_reconnecting (S (reconnectAttempts t))) ;;
                     c ;;
                     tell (SetTimeout ReconnectDelay
                             (reconnectDelay (options t)
                              * 2 ^ (Z.of_nat (S (reconnectAttempts t)) - 1))))).
      { apply stepKeeps_bind; [apply stepKeeps_setState|]. intros _.
        apply stepKeeps_bind; [apply stepKeeps_tell|]. intros _.
        apply stepKeeps_bind; [exact Hc|]. intros _. apply stepKeeps_tell. }
      apply K.
Qed.

Lemma stepKeeps_handleStreamCloseWith (r : M unit) :
  stepKeeps r -> stepKeeps (handleStreamCloseWith r).
Proof.
  intros Hr. unfold handleStreamCloseWith.
  apply stepKeeps_get. intros t0.
  destruct (TransportState_eqb (_state t0) CLOSED); [apply stepKeeps_ret|].
  apply stepKeeps_bind; [intros t; repeat split; cbn; auto|]. intros _.
  destruct (autoReconnect (options t0)); [exact Hr|].
  apply stepKeeps_bind; [apply stepKeeps_setState|]. intros _.
  apply stepKeeps_tell.
Qed.

Lemma stepKeeps_cleanup : stepKeeps cleanup.
Proof.
  apply stepKeeps_cleanupWith, stepKeeps_handleStreamCloseWith,
    stepKeeps_reconnectWith, stepKeeps_cleanupWith, stepKeeps_ret.
Qed.

Lemma stepKeeps_reconnect : stepKeeps reconnect.
Proof. apply stepKeeps_reconnectWith, stepKeeps_cleanup. Qed.

Lemma stepKeeps_handleStreamClose : stepKeeps handleStreamClose.
Proof. apply stepKeeps_handleStreamCloseWith, stepKeeps_reconnect. Qed.

(** The last steps of a teardown, whatever the [close] listener did. *)
Lemma cleanupWith_end (f : M unit) (t : ZitiSSETransport) :
  stepKeeps f ->
  pendingRequests (stateOf (cleanupWith f t)) = []
  /\ _sessionId (stateOf (cleanupWith f t)) = None
  /\ stream (stateOf (cleanupWith f t)) = None
  /\ sseParser (stateOf (cleanupWith f t)) = Parser.new
  /\ exists rest,
       effectsOf (cleanupWith f t)
       = (rejectPending (pendingRequests t) ++ rest)%list.
Proof.
  intros Hf. unfold cleanupWith.
  rewrite stateOf_bind, effectsOf_bind.
  change (stateOf (get t)) with t. change (valueOf (get t)) with t.
  change (effectsOf (get t)) with (@nil Effect).
  rewrite stateOf_bind, effectsOf_bind.
  change (stateOf (tellAll (rejectPending (pendingRequests t)) t)) with t.
  change (effectsOf (tellAll (rejectPending (pendingRequests t)) t))
    with (rejectPending (pendingRequests t)).
  rewrite stateOf_bind.
  change (stateOf (modify (set_pendingRequests []) t))
    with (set_pendingRequests [] t).
  rewrite stateOf_bind.
  set (mid := match stream t with
              | Some s =>
                  (if _isOpen s
                   then modify (set_stream (Some (mkStream (handle s) false))) ;;
                        tell (ZitiClose (handle s)) ;; f
                   else ret tt) ;;
                  modify (set_stream None)
              | None => ret tt
              end).
  assert (P : pendingRequests (stateOf (mid (set_pendingRequests [] t))) = []
              /\ stream (stateOf (mid (set_pendingRequests [] t))) = None).
  { subst mid. destruct (stream t) as [s|] eqn:S.
    - rewrite stateOf_bind. split; [|reflexivity].
      cbn [stateOf modify fst snd pendingRequests set_stream].
      destruct (_isOpen s).
      + rewrite stateOf_bind, stateOf_bind.
        apply (Hf _). reflexivity.
      + reflexivity.
    - split; [reflexivity | exact S]. }
  destruct P as [P1 P2].
  rewrite stateOf_bind.
  cbn [stateOf modify fst snd pendingRequests _sessionId stream sseParser
         set_sessionId set_sseParser].
  repeat split; try assumption. eexists. cbn [app]. reflexivity.
Qed.

Lemma rejectPending_In (m : list (Json * PendingRequest)) (k : Json)
    (v : PendingRequest) :
  In (k, v) m ->
  In (ClearTimeout (timeout v)) (rejectPending m)
  /\ In (Reject (promise v) (Error "Transport disconnected")) (rejectPending m).
Proof.
  induction m as [|[k' v'] m IH]; [intros []|].
  intros [H|H]; cbn.
  - injection H as -> ->. auto.
  - destruct (IH H). auto.
Qed.

End TeardownMore.

(** X15.  The teardown, in any state and whatever the stream's [close]
    listener starts: every pending request has its timer cleared and is
    rejected with "Transport disconnected"; afterwards the pending table is
    empty, there is no session id and no stream, the parser is as new, and
    the message queue is what it was. *)
Theorem cleanup_postconditions (t : ZitiSSETransport) :
  let r := cleanup t in
  pendingRequests (stateOf r) = []
  /\ _sessionId (stateOf r) = None
  /\ stream (stateOf r) = None
  /\ sseParser (stateOf r) = Parser.new
  /\ messageQueue (stateOf r) = messageQueue t
  /\ forall k v,
       In (k, v) (pendingRequests t) ->
       In (ClearTimeout (timeout v)) (effectsOf r)
       /\ In (Reject (promise v) (Error "Transport disconnected")) (effectsOf r).
Proof.
  cbv zeta. unfold cleanup.
  assert (K : stepKeeps handleStreamClose_inner).
  { apply stepKeeps_handleStreamCloseWith, stepKeeps_reconnectWith,
      stepKeeps_cleanupWith, stepKeeps_ret. }
  destruct (cleanupWith_end handleStreamClose_inner t K)
    as (A & B & C & D & rest & E).
  destruct (stepKeeps_cleanup t) as (Q & _).
  repeat split; try assumption.
  - rewrite E, in_app_iff. left.
    apply (rejectPending_In _ k v H).
  - rewrite E, in_app_iff. left.
    apply (rejectPending_In _ k v H).
Qed.

Lemma cleanup_postconditions_witness :
  let t := Sample.awaiting Sample.noReconnect in
  In (ClearTimeout (RequestTimer 2)) (effectsOf (cleanup t))
  /\ In (Reject 2 (Error "Transport disconnected")) (effectsOf (cleanup t)).
Proof.
  intros t.
  destruct (cleanup_postconditions t) as (_ & _ & _ & _ & _ & H).
  apply (H (JNum 43) {| promise := 2; timeout := RequestTimer 2 |}).
  right. left. reflexivity.
Defined.

(** X16.  [disconnect()], in any state: the transport ends CLOSED and not
    ready, with no session id, no stream and an empty pending table; every
    request that was pending is rejected with "Transport disconnected";
    the queued messages are kept; the last thing emitted is the
    notification "User requested disconnect". *)
Theorem disconnect_postconditions (t : ZitiSSETransport) :
  let r := disconnect t in
  _state (stateOf r) = CLOSED
  /\ isReady (stateOf r) = false
  /\ _sessionId (stateOf r) = None
  /\ stream (stateOf r) = None
  /\ pendingRequests (stateOf r) = []
  /\ messageQueue (stateOf r) = messageQueue t
  /\ (forall k v,
        In (k, v) (pendingRequests t) ->
        In (Reject (promise v) (Error "Transport disconnected")) (effectsOf r))
  /\ exists before,
       effectsOf r
       = (before ++ [Emit (ev_disconnected "User requested disconnect")])%list.
Proof.
  cbv zeta. rewrite disconnect_eq. unfold stateOf, effectsOf. cbn [fst snd].
  repeat split.
  - intros k v H. rewrite !in_app_iff. right. left.
    unfold teardownEffects. rewrite in_app_iff. left.
    apply (rejectPending_In _ k v H).
  - eexists. rewrite app_assoc. reflexivity.
Qed.

Lemma disconnect_postconditions_witness :
  let t := Sample.awaiting Sample.noReconnect in
  _state (stateOf (disconnect t)) = CLOSED
  /\ In (Reject 1 (Error "Transport disconnected")) (effectsOf (disconnect t)).
Proof.
  intros t.
  destruct (disconnect_postconditions t) as (A & _ & _ & _ & _ & _ & H & _).
  split; [exact A|].
  apply (H (JNum 42) {| promise := 1; timeout := RequestTimer 1 |}).
  left. reflexivity.
Defined.

(** X17.  The stream's [close]: on a CLOSED transport it does nothing at
    all; on any other it leaves no session id behind, whether it goes on to
    reconnect, gives up at the maximum, or has auto-reconnect off. *)
Theorem handleStreamClose_clears_session (t : ZitiSSETransport) :
  (_state t = CLOSED -> handleStreamClose t = (tt, t, []))
  /\ (_state t <> CLOSED ->
      _sessionId (stateOf (handleStreamClose t)) = None).
Proof.
  unfold handleStreamClose, handleStreamCloseWith. split.
  - intros C. run_M. rewrite C. reflexivity.
  - intros C. rewrite stateOf_bind.
    change (stateOf (get t)) with t. change (valueOf (get t)) with t.
    destruct (TransportState_eqb (_state t) CLOSED) eqn:E;
      [apply TransportState_eqb_eq in E; contradiction|].
    rewrite stateOf_bind.
    change (stateOf (modify (set_sessionId None) t))
      with (set_sessionId None t).
    destruct (autoReconnect (options t)).
    + apply (stepKeeps_reconnect (set_sessionId None t)). reflexivity.
    + rewrite stateOf_bind, setState_state. reflexivity.
Qed.

Lemma handleStreamClose_clears_session_witness :
  _sessionId (stateOf (handleStreamClose (Sample.connected Sample.twoAttempts)))
  = None
  /\ handleStreamClose (stateOf (disconnect (Sample.connected Sample.twoAttempts)))
     = (tt, stateOf (disconnect (Sample.connected Sample.twoAttempts)), []).
Proof.
  split.
  - apply (handleStreamClose_clears_session
             (Sample.connected Sample.twoAttempts)). discriminate.
  - apply (handleStreamClose_clears_session
             (stateOf (disconnect (Sample.connected Sample.twoAttempts)))).
    reflexivity.
Defined.

Section ConnectFacts.

Lemma connect_catch_eq (text : string) (t : ZitiSSETransport) :
  valueOf (connect_catch text t)
  = ConnectThrows (Error ("Failed to connect: " ++ text))
  /\ stateOf (connect_catch text t) = set_state DISCONNECTED t.
Proof.
  unfold connect_catch. run_M. rewrite setState_eq. split; reflexivity.
Qed.

End ConnectFacts.

(** X18.  However [connect()] fails (the connection not initialized, the
    stream not opened, the stream closed before the handshake, the
    handshake timer), it leaves the transport DISCONNECTED and throws an
    error whose message begins with "Failed to connect: "; it never fails
    in another way. *)
Theorem connect_failure_leaves_disconnected
    (t : ZitiSSETransport) (e : JSError) :
  (forall isInitialized,
      valueOf (connect isInitialized t) = ConnectThrows e ->
      _state (stateOf (connect isInitialized t)) = DISCONNECTED
      /\ exists text, e = Error ("Failed to connect: " ++ text))
  /\ (forall answer,
        valueOf (connect_onStream answer t) = ConnectThrows e ->
        _state (stateOf (connect_onStream answer t)) = DISCONNECTED
        /\ exists text, e = Error ("Failed to connect: " ++ text))
  /\ (valueOf (connect_checkSession t) = ConnectThrows e ->
      _state (stateOf (connect_checkSession t)) = DISCONNECTED
      /\ exists text, e = Error ("Failed to connect: " ++ text))
  /\ (valueOf (connect_onTimeout t) = ConnectThrows e ->
      _state (stateOf (connect_onTimeout t)) = DISCONNECTED
      /\ exists text, e = Error ("Failed to connect: " ++ text)).
Proof.
  assert (K : forall text t0,
             valueOf (connect_catch text t0) = ConnectThrows e ->
             _state (stateOf (connect_catch text t0)) = DISCONNECTED
             /\ exists text', e = Error ("Failed to connect: " ++ text')).
  { intros text t0 H. destruct (connect_catch_eq text t0) as [V S].
    rewrite S. split; [reflexivity|]. exists text. congruence. }
  assert (C : forall t0,
             valueOf (connect_checkSession t0) = ConnectThrows e ->
             _state (stateOf (connect_checkSession t0)) = DISCONNECTED
             /\ exists text, e = Error ("Failed to connect: " ++ text)).
  { intros t0. unfold connect_checkSession.
    unfold valueOf, stateOf, bind, get. cbn beta iota zeta.
    destruct (checkSession t0).
    - cbn. discriminate.
    - cbn [tell]. 
      pose proof (K "Connection closed before session established" t0) as H.
      unfold valueOf, stateOf in H.
      destruct (connect_catch "Connection closed before session established" t0)
        as [[v s] ef]. cbn [fst snd] in *. exact H.
    - cbn. discriminate. }
  split; [|split; [|split]].
  - intros isInitialized. unfold connect.
    unfold valueOf, stateOf, bind, get. cbn beta iota zeta.
    destruct (TransportState_eqb (_state t) CONNECTED); [cbn; discriminate|].
    rewrite setState_eq. destruct isInitialized; [cbn; discriminate|].
    cbn [negb].
    pose proof (K "ZitiConnection not initialized" (set_state CONNECTING t)) as H.
    unfold valueOf, stateOf in H.
    destruct (connect_catch "ZitiConnection not initialized"
                (set_state CONNECTING t)) as [[v s] ef].
    cbn [fst snd] in *. exact H.
  - intros [h|text]; unfold connect_onStream.
    + unfold valueOf, stateOf, bind, get, modify, tell. cbn beta iota zeta.
      pose proof (C (set_stream (Some (mkStream h true)) t)) as H.
      unfold valueOf, stateOf in H.
      destruct (connect_checkSession (set_stream (Some (mkStream h true)) t))
        as [[v s] ef]. cbn [fst snd] in *. exact H.
    + apply K.
  - apply C.
  - apply K.
Qed.

Lemma connect_failure_leaves_disconnected_witness :
  let t := Transport.new Sample.noReconnect "test-service" None None in
  _state (stateOf (connect false t)) = DISCONNECTED
  /\ exists text,
       Error "Failed to connect: ZitiConnection not initialized"
       = Error ("Failed to connect: " ++ text).
Proof.
  intros t.
  destruct (connect_failure_leaves_disconnected t
              (Error "Failed to connect: ZitiConnection not initialized"))
    as [H _].
  apply (H false). reflexivity.
Defined.

(** X19.  The attempt budget.  However many times in a row reconnection is
    triggered, the attempt counter never passes the configured maximum if it
    was not past it before. *)
Theorem reconnect_attempts_bounded (n : nat) (t : ZitiSSETransport) :
  (Z.of_nat (reconnectAttempts t) <= maxReconnectAttempts (options t))%Z ->
  (Z.of_nat (reconnectAttempts (stateOf (Run.reconnects n t)))
   <= maxReconnectAttempts (options t))%Z.
Proof.
  revert t. induction n as [|n IH]; intros t H; [exact H|].
  cbn [Run.reconnects]. rewrite stateOf_bind.
  destruct (stepKeeps_reconnect t) as (_ & _ & O & _ & _ & B).
  rewrite <- O. apply IH. rewrite O. exact (B H).
Qed.

Lemma reconnect_attempts_bounded_witness :
  reconnectAttempts (stateOf (Run.reconnects 5 Sample.failed)) = 2
  /\ (Z.of_nat (reconnectAttempts (stateOf (Run.reconnects 5 Sample.failed)))
      <= 2)%Z.
Proof.
  split; [reflexivity|].
  apply (reconnect_attempts_bounded 5 Sample.failed). vm_compute. discriminate.
Defined.

Section MessageEventFacts.

Lemma length_delete {V} (m : list (Json * V)) (k : Json) :
  List.length (Map.delete m k) <= List.length m.
Proof.
  induction m as [|[k' v] m IH]; simpl; [lia|].
  destruct (Value.sameValueZero k' k); simpl; lia.
Qed.

End MessageEventFacts.

(** X20.  A [message] event never changes the state of the connection, the
    session id, the stream, the queue or the attempt counter, and never adds
    a pending request, whatever its data.  Data that [JSON.parse] rejects
    changes nothing at all: the failure is logged and emitted as an
    error. *)
Theorem handleMessageEvent_is_contained
    (JSON_parse : string -> Json + string)
    (t : ZitiSSETransport) (event : SSEEvent) :
  let r := handleMessageEvent JSON_parse event t in
  _state (stateOf r) = _state t
  /\ _sessionId (stateOf r) = _sessionId t
  /\ stream (stateOf r) = stream t
  /\ messageQueue (stateOf r) = messageQueue t
  /\ reconnectAttempts (stateOf r) = reconnectAttempts t
  /\ List.length (pendingRequests (stateOf r))
     <= List.length (pendingRequests t)
  /\ forall thrown,
       JSON_parse (data event) = inr thrown ->
       r = (tt, t,
            [LogError "Failed to parse message:" (Some (data event));
             Emit (ev_error
                     (Error ("Failed to parse MCP message: " ++ thrown)))]).
Proof.
  cbv zeta. unfold handleMessageEvent.
  destruct (JSON_parse (data event)) as [m|thrown].
  - assert (K : forall m',
               m' = m -> m <> JNull ->
               let r := (t0 <- get ;;
                   match Value.member "id" m' with
                   | Some i =>
                       match Map.get (pendingRequests t0) i with
                       | Some pending =>
                           tell (ClearTimeout (timeout pending)) ;;
                           modify (set_pendingRequests
                                     (Map.delete (pendingRequests t0) i)) ;;
                           match Value.member "error" m' with
                           | Some e =>
                               if Value.truthy e
                               then tell (Reject (promise pending)
                                            (newError (Value.member "message" e)))
                               else tell (Resolve (promise pending)
                                            (Value.member "result" m'))
                           | None =>
                               tell (Resolve (promise pending)
                                       (Value.member "result" m'))
                           end
                       | None => emit (ev_message m')
                       end
                   | None => emit (ev_message m')
                   end)%transport t in
               _state (stateOf r) = _state t
               /\ _sessionId (stateOf r) = _sessionId t
               /\ stream (stateOf r) = stream t
               /\ messageQueue (stateOf r) = messageQueue t
               /\ reconnectAttempts (stateOf r) = reconnectAttempts t
               /\ List.length (pendingRequests (stateOf r))
                  <= List.length (pendingRequests t)).
    { intros m' _ _. cbv zeta. run_M.
      destruct (Value.member "id" m') as [i|]; [|cbn; repeat split; lia].
      destruct (Map.get (pendingRequests t) i) as [pending|];
        [|cbn; repeat split; lia].
      destruct (Value.member "error" m') as [e|];
        [destruct (Value.truthy e)|];
        cbn; repeat split; apply length_delete. }
    destruct m;
      try (destruct (K _ eq_refl ltac:(discriminate))
             as (A & B & C & D & E & F);
           repeat split; try assumption; intros thrown H; discriminate).
    cbn. repeat split; try lia. intros thrown H. discriminate.
  - cbn. repeat split; try lia. intros thrown' [= <-]. reflexivity.
Qed.

Lemma handleMessageEvent_is_contained_witness :
  let t := Sample.awaiting Sample.noReconnect in
  handleMessageEvent Sample.parse (Sample.messageEvent "{not json") t
  = (tt, t,
     [LogError "Failed to parse message:" (Some "{not json");
      Emit (ev_error (Error ("Failed to parse MCP message: "
                             ++ "SyntaxError: Unexpected token")))]).
Proof.
  intros t.
  destruct (handleMessageEvent_is_contained Sample.parse t
              (Sample.messageEvent "{not json"))
    as (_ & _ & _ & _ & _ & _ & H).
  apply (H "SyntaxError: Unexpected token"). reflexivity.
Defined.

Section ParserInTransport.

Variable JSON_parse : string -> Json + string.
Variable JSON_stringify : Json -> string.

Local Open Scope transport_scope.

Lemma apartFromParser_bind (m k : M unit) :
  apartFromParser m -> apartFromParser k -> apartFromParser (m ;; k).
Proof.
  intros Hm Hk p t. unfold bind. rewrite Hm.
  unfold stateOf, effectsOf. destruct (m t) as [[[] t1] e1]. cbn [fst snd].
  rewrite Hk. unfold stateOf, effectsOf.
  destruct (k t1) as [[[] t2] e2]. reflexivity.
Qed.

Lemma apartFromParser_ret : apartFromParser (ret tt).
Proof. intros p t. reflexivity. Qed.

Lemma apartFromParser_tell (e : Effect) : apartFromParser (tell e).
Proof. intros p t. reflexivity. Qed.

Lemma apartFromParser_setState (s : TransportState) : apartFromParser (setState s).
Proof. intros p t. rewrite !setState_eq. reflexivity. Qed.

Lemma apartFromParser_drainLoop (queue : list Json) :
  apartFromParser (drainLoop JSON_stringify queue).
Proof.
  induction queue as [|m rest IH]; intros p t.
  - reflexivity.
  - cbn [drainLoop]. run_M.
    change (isReady (set_sseParser p t)) with (isReady t).
    destruct (isReady t); [|reflexivity].
    destruct (Value.truthy m).
    + reflexivity.
    + change (set_messageQueue rest (set_sseParser p t))
        with (set_sseParser p (set_messageQueue rest t)).
      rewrite IH. unfold stateOf, effectsOf.
      destruct (drainLoop JSON_stringify rest (set_messageQueue rest t))
        as [[[] t2] e2]. reflexivity.
Qed.

Lemma apartFromParser_processQueuedMessages :
  apartFromParser (processQueuedMessages JSON_stringify).
Proof.
  intros p t. unfold processQueuedMessages. run_M.
  change (isProcessingQueue (set_sseParser p t)) with (isProcessingQueue t).
  destruct (isProcessingQueue t); [reflexivity|].
  change (set_isProcessingQueue true (set_sseParser p t))
    with (set_sseParser p (set_isProcessingQueue true t)).
  change (messageQueue (set_sseParser p (set_isProcessingQueue true t)))
    with (messageQueue (set_isProcessingQueue true t)).
  rewrite apartFromParser_drainLoop. unfold stateOf, effectsOf.
  destruct (drainLoop JSON_stringify
              (messageQueue (set_isProcessingQueue true t))
              (set_isProcessingQueue true t)) as [[[] t2] e2].
  reflexivity.
Qed.

Lemma apartFromParser_handleEndpointEvent (event : SSEEvent) :
  apartFromParser (handleEndpointEvent JSON_stringify event).
Proof.
  unfold handleEndpointEvent.
  destruct (matchSessionId (data event)) as [sid|].
  - apply apartFromParser_bind; [intros p t; reflexivity|].
    apply apartFromParser_bind; [apply apartFromParser_setState|].
    apply apartFromParser_bind; [apply apartFromParser_tell|].
    apply apartFromParser_bind; [intros p t; reflexivity|].
    apply apartFromParser_processQueuedMessages.
  - apply apartFromParser_bind; apply apartFromParser_tell.
Qed.

Lemma apartFromParser_handleMessageEvent (event : SSEEvent) :
  apartFromParser (handleMessageEvent JSON_parse event).
Proof.
  intros p t. unfold handleMessageEvent.
  destruct (JSON_parse (data event)) as [m|thrown]; [|reflexivity].
  assert (K : forall m',
             apartFromParser
               (t0 <- get ;;
                match Value.member "id" m' with
                | Some i =>
                    match Map.get (pendingRequests t0) i with
                    | Some pending =>
                        tell (ClearTimeout (timeout pending)) ;;
                        modify (set_pendingRequests
                                  (Map.delete (pendingRequests t0) i)) ;;
                        match Value.member "error" m' with
                        | Some e =>
                            if Value.truthy e
                            then tell (Reject (promise pending)
                                         (newError (Value.member "message" e)))
                            else tell (Resolve (promise pending)
                                         (Value.member "result" m'))
                        | None =>
                            tell (Resolve (promise pending)
                                    (Value.member "result" m'))
                        end
                    | None => emit (ev_message m')
                    end
                | None => emit (ev_message m')
                end)).
  { intros m' p0 t0. run_M.
    change (pendingRequests (set_sseParser p0 t0)) with (pendingRequests t0).
    destruct (Value.member "id" m') as [i|]; [|reflexivity].
    destruct (Map.get (pendingRequests t0) i) as [pending|]; [|reflexivity].
    destruct (Value.member "error" m') as [e|];
      [destruct (Value.truthy e)|]; reflexivity. }
  destruct m; try apply K. reflexivity.
Qed.

Lemma apartFromParser_handleSSEEvent (event : SSEEvent) :
  (type event =? "reconnect") = false ->
  apartFromParser (handleSSEEvent JSON_parse JSON_stringify event).
Proof.
  intros N. unfold handleSSEEvent.
  destruct (type event =? "endpoint");
    [apply apartFromParser_handleEndpointEvent|].
  destruct (type event =? "message");
    [apply apartFromParser_handleMessageEvent|].
  rewrite N. apply apartFromParser_ret.
Qed.

Lemma apartFromParser_handleAll (events : list SSEEvent) :
  noReconnectEvent events = true ->
  apartFromParser (Run.handleAll JSON_parse JSON_stringify events).
Proof.
  induction events as [|ev rest IH]; intros N.
  - apply apartFromParser_ret.
  - cbn in N. apply andb_true_iff in N as [A B]. apply negb_true_iff in A.
    cbn [Run.handleAll].
    apply apartFromParser_bind;
      [apply apartFromParser_handleSSEEvent; exact A | apply IH; exact B].
Qed.

Lemma noReconnectEvent_app (a b : list SSEEvent) :
  noReconnectEvent (a ++ b) = noReconnectEvent a && noReconnectEvent b.
Proof. apply forallb_app. Qed.

Lemma handleAll_app (a b : list SSEEvent) (t : ZitiSSETransport) :
  Run.handleAll JSON_parse JSON_stringify (a ++ b) t
  = (Run.handleAll JSON_parse JSON_stringify a ;;
     Run.handleAll JSON_parse JSON_stringify b) t.
Proof.
  revert t. induction a as [|ev a IH]; intros t.
  - change (([] ++ b)%list) with b. cbn [Run.handleAll]. unfold bind, ret.
    destruct (Run.handleAll JSON_parse JSON_stringify b t) as [[[] t2] e2].
    reflexivity.
  - rewrite <- app_comm_cons. cbn [Run.handleAll]. unfold bind in *.
    destruct (handleSSEEvent JSON_parse JSON_stringify ev t) as [[[] t1] e1].
    rewrite IH.
    destruct (Run.handleAll JSON_parse JSON_stringify a t1) as [[[] t2] e2].
    destruct (Run.handleAll JSON_parse JSON_stringify b t2) as [[[] t3] e3].
    rewrite app_assoc. reflexivity.
Qed.

(** The lines of a chunk, as the transport runs them, against the parser on
    its own. *)
Lemma parser_processLines_refines (lines : list string) (t : ZitiSSETransport) :
  noReconnectEvent (snd (Parser.processLines (sseParser t) lines)) = true ->
  parser_processLines JSON_parse JSON_stringify lines t
  = (tt,
     set_sseParser (fst (Parser.processLines (sseParser t) lines))
       (stateOf (Run.handleAll JSON_parse JSON_stringify
                   (snd (Parser.processLines (sseParser t) lines)) t)),
     effectsOf (Run.handleAll JSON_parse JSON_stringify
                  (snd (Parser.processLines (sseParser t) lines)) t)).
Proof.
  revert t. induction lines as [|l rest IH]; intros t N.
  - cbn. destruct t; reflexivity.
  - cbn [parser_processLines Parser.processLines] in *.
    unfold Parser.processLine in *.
    destruct (l =? "") eqn:L.
    + unfold parser_dispatchEvent, Parser.dispatchEvent in *.
      unfold bind at 1. unfold bind at 1. unfold get at 1. cbv beta iota zeta.
      destruct (Parser.pendingEvent (sseParser t)) as [ev|] eqn:PE.
      * set (p1 := Parser.resetEvent (Parser.updateLastEventId (sseParser t))) in *.
        destruct (Parser.processLines p1 rest) as [p2 evs] eqn:PL.
        cbn [fst snd] in *. 
        change (noReconnectEvent (ev :: evs) = true) in N.
        cbn in N. apply andb_true_iff in N as [A B]. apply negb_true_iff in A.
        unfold bind, modifyParser, modify. cbv beta iota zeta.
        cbn [sseParser set_sseParser].
        rewrite (apartFromParser_handleSSEEvent ev A).
        unfold stateOf, effectsOf.
        destruct (handleSSEEvent JSON_parse JSON_stringify ev t)
          as [[[] t1] e1] eqn:HE. cbn [fst snd sseParser set_sseParser].
        fold p1.
        change (set_sseParser p1 (set_sseParser (Parser.updateLastEventId (sseParser t)) t1))
          with (set_sseParser p1 t1).
        rewrite (IH (set_sseParser p1 t1))
          by (cbn [sseParser set_sseParser]; rewrite PL; exact B).
        cbn [sseParser set_sseParser]. rewrite PL. cbn [fst snd].
        rewrite (apartFromParser_handleAll evs B).
        change (([ev] ++ evs)%list) with (ev :: evs).
        cbn [Run.handleAll]. unfold bind. rewrite HE.
        unfold stateOf, effectsOf.
        destruct (Run.handleAll JSON_parse JSON_stringify evs t1)
          as [[[] t2] e2]. cbn [fst snd].
        rewrite app_nil_r. reflexivity.
      * set (p1 := Parser.resetEvent (sseParser t)) in *.
        destruct (Parser.processLines p1 rest) as [p2 evs] eqn:PL.
        cbn [fst snd] in *. change (([] ++ evs)%list) with evs in *.
        unfold bind, modifyParser, modify. cbv beta iota zeta.
        fold p1.
        rewrite (IH (set_sseParser p1 t))
          by (cbn [sseParser set_sseParser]; rewrite PL; exact N).
        cbn [sseParser set_sseParser]. rewrite PL. cbn [fst snd].
        rewrite (apartFromParser_handleAll evs N).
        unfold stateOf, effectsOf.
        destruct (Run.handleAll JSON_parse JSON_stringify evs t)
          as [[[] t2] e2]. reflexivity.
    + set (p1 := Parser.processFieldLine (sseParser t) l) in *.
      destruct (Parser.processLines p1 rest) as [p2 evs] eqn:PL.
      cbn [fst snd] in *. change (([] ++ evs)%list) with evs in *.
      unfold bind, modifyParser, modify. cbv beta iota zeta.
      fold p1.
      rewrite (IH (set_sseParser p1 t))
        by (cbn [sseParser set_sseParser]; rewrite PL; exact N).
      cbn [sseParser set_sseParser]. rewrite PL. cbn [fst snd].
      rewrite (apartFromParser_handleAll evs N).
      unfold stateOf, effectsOf.
      destruct (Run.handleAll JSON_parse JSON_stringify evs t)
        as [[[] t2] e2]. reflexivity.
Qed.

End ParserInTransport.

Section StreamData.

Variable JSON_parse : string -> Json + string.
Variable JSON_stringify : Json -> string.

Local Open Scope transport_scope.

Lemma parser_processBuffer_refines (t : ZitiSSETransport) :
  noReconnectEvent (snd (Parser.processBuffer (sseParser t))) = true ->
  parser_processBuffer JSON_parse JSON_stringify t
  = (tt,
     set_sseParser (fst (Parser.processBuffer (sseParser t)))
       (stateOf (Run.handleAll JSON_parse JSON_stringify
                   (snd (Parser.processBuffer (sseParser t))) t)),
     effectsOf (Run.handleAll JSON_parse JSON_stringify
                  (snd (Parser.processBuffer (sseParser t))) t)).
Proof.
  unfold parser_processBuffer, Parser.processBuffer.
  unfold bind at 1. unfold get at 1. cbv beta iota zeta.
  destruct (JS.pop (JS.split_CRLF (buffer (sseParser t)))) as [lines lastLine].
  set (b := match lastLine with Some l => l | None => "" end).
  intros N. unfold bind, modifyParser, modify. cbv beta iota zeta.
  set (p1 := Parser.setBuffer (sseParser t) b) in *.
  rewrite (parser_processLines_refines JSON_parse JSON_stringify lines
             (set_sseParser p1 t)) by exact N.
  cbn [sseParser set_sseParser].
  rewrite (apartFromParser_handleAll JSON_parse JSON_stringify _ N).
  unfold stateOf, effectsOf.
  destruct (Run.handleAll JSON_parse JSON_stringify
              (snd (Parser.processLines p1 lines)) t) as [[[] t2] e2].
  reflexivity.
Qed.

(** One chunk: the listener leaves the parser as [feed] does, and handles
    the events that [feed] emits, in their order. *)
Lemma onStreamData_feed (chunk : string) (t : ZitiSSETransport) :
  noReconnectEvent (snd (Parser.feed (sseParser t) chunk)) = true ->
  onStreamData JSON_parse JSON_stringify chunk t
  = (tt,
     set_sseParser (fst (Parser.feed (sseParser t) chunk))
       (stateOf (Run.handleAll JSON_parse JSON_stringify
                   (snd (Parser.feed (sseParser t) chunk)) t)),
     effectsOf (Run.handleAll JSON_parse JSON_stringify
                  (snd (Parser.feed (sseParser t) chunk)) t)).
Proof.
  unfold onStreamData, Parser.feed.
  unfold bind at 1. unfold modifyParser at 1, modify at 1.
  cbv beta iota zeta.
  unfold bind at 1. unfold get at 1. cbv beta iota zeta.
  cbn [sseParser set_sseParser].
  set (p1 := Parser.setBuffer (sseParser t) (buffer (sseParser t) ++ chunk)).
  destruct (negb (httpHeadersParsed p1)).
  - destruct (JS.indexOf (buffer p1) JS.CRLFCRLF) as [headerEnd|].
    + intros N. unfold bind, modifyParser, modify. cbv beta iota zeta.
      cbn [sseParser set_sseParser].
      set (p2 := Parser.setHttpHeadersParsed
                   (Parser.setBuffer p1
                      (JS.sliceFrom (buffer p1) (headerEnd + 4))) true) in *.
      change (set_sseParser p2 (set_sseParser p1 t)) with (set_sseParser p2 t).
      rewrite (parser_processBuffer_refines (set_sseParser p2 t)) by exact N.
      cbn [sseParser set_sseParser].
      rewrite (apartFromParser_handleAll JSON_parse JSON_stringify _ N).
      unfold stateOf, effectsOf.
      destruct (Run.handleAll JSON_parse JSON_stringify
                  (snd (Parser.processBuffer p2)) t) as [[[] t2] e2].
      reflexivity.
    + intros _. cbn. reflexivity.
  - intros N.
    rewrite (parser_processBuffer_refines (set_sseParser p1 t)) by exact N.
    cbn [sseParser set_sseParser].
    rewrite (apartFromParser_handleAll JSON_parse JSON_stringify _ N).
    unfold stateOf, effectsOf.
    destruct (Run.handleAll JSON_parse JSON_stringify
                (snd (Parser.processBuffer p1)) t) as [[[] t2] e2].
    reflexivity.
Qed.

Lemma handleAll_sseParser (events : list SSEEvent) (t : ZitiSSETransport) :
  noReconnectEvent events = true ->
  sseParser (stateOf (Run.handleAll JSON_parse JSON_stringify events t))
  = sseParser t.
Proof.
  intros N.
  pose proof (apartFromParser_handleAll JSON_parse JSON_stringify events N
                (sseParser t) t) as H.
  replace (set_sseParser (sseParser t) t) with t in H by (destruct t; reflexivity).
  unfold stateOf in *.
  destruct (Run.handleAll JSON_parse JSON_stringify events t) as [[[] t2] e2].
  cbn [fst snd] in *. injection H as H. rewrite H at 1. reflexivity.
Qed.

(** Chunk after chunk. *)
Lemma dataAll_feedAll (chunks : list string) (t : ZitiSSETransport) :
  noReconnectEvent (snd (Parser.feedAll (sseParser t) chunks)) = true ->
  Run.dataAll JSON_parse JSON_stringify chunks t
  = (tt,
     set_sseParser (fst (Parser.feedAll (sseParser t) chunks))
       (stateOf (Run.handleAll JSON_parse JSON_stringify
                   (snd (Parser.feedAll (sseParser t) chunks)) t)),
     effectsOf (Run.handleAll JSON_parse JSON_stringify
                  (snd (Parser.feedAll (sseParser t) chunks)) t)).
Proof.
  revert t. induction chunks as [|c rest IH]; intros t N.
  - cbn. destruct t; reflexivity.
  - cbn [Run.dataAll Parser.feedAll] in *.
    destruct (Parser.feed (sseParser t) c) as [p1 e1] eqn:F.
    destruct (Parser.feedAll p1 rest) as [p2 e2] eqn:FA.
    cbn [fst snd] in *.
    rewrite noReconnectEvent_app in N. apply andb_true_iff in N as [N1 N2].
    unfold bind.
    rewrite (onStreamData_feed c t) by (rewrite F; exact N1).
    rewrite F. cbn [fst snd].
    rewrite handleAll_app. unfold bind.
    unfold stateOf, effectsOf.
    destruct (Run.handleAll JSON_parse JSON_stringify e1 t)
      as [[[] t1] x1] eqn:H1.
    cbn [fst snd].
    rewrite (IH (set_sseParser p1 t1))
      by (cbn [sseParser set_sseParser]; rewrite FA; exact N2).
    cbn [sseParser set_sseParser]. rewrite FA. cbn [fst snd].
    rewrite (apartFromParser_handleAll JSON_parse JSON_stringify e2 N2).
    unfold stateOf, effectsOf.
    destruct (Run.handleAll JSON_parse JSON_stringify e2 t1)
      as [[[] t2] x2].
    reflexivity.
Qed.

(** The event of a handshake cycle, past the headers. *)
Lemma feed_endpoint_cycle (cr path : string) :
  cr = "" \/ cr = String JS.CR "" ->
  JS.includes path JS.LF = false ->
  JS.includes path JS.CR = false ->
  snd (Parser.feed (Parser.setHttpHeadersParsed Parser.new true)
         (Cycle.text (cr ++ String JS.LF "")
            ["event: endpoint"; "data: " ++ path]))
  = [{| type := "endpoint"; data := path; id := None; retry := None |}].
Proof.
  intros CR L C.
  assert (F : forallb Cycle.isFieldLine ["event: endpoint"; "data: " ++ path]
              = true).
  { cbn [forallb]. unfold Cycle.isFieldLine.
    cbn [append JS.includes String.eqb Ascii.eqb Bool.eqb JS.LF JS.CR
         orb andb negb].
    change (JS.includes path "010") with (JS.includes path JS.LF).
    change (JS.includes path "013") with (JS.includes path JS.CR).
    rewrite L, C. reflexivity. }
  destruct (lines_of_cycle cr _ CR F) as [Ls R].
  remember (Cycle.text (cr ++ String JS.LF "")
              ["event: endpoint"; "data: " ++ path]) as body eqn:B.
  rewrite feed_eq. cbn [httpHeadersParsed Parser.setHttpHeadersParsed
                         Parser.new buffer append].
  rewrite processBuffer_eq. cbn [buffer Parser.setBuffer].
  rewrite Ls, R.
  destruct path; reflexivity.
Qed.

Lemma handleEndpointEvent_session (t : ZitiSSETransport) (event : SSEEvent)
    (sid : string) :
  matchSessionId (data event) = Some sid ->
  let r := handleEndpointEvent JSON_stringify event t in
  _state (stateOf r) = CONNECTED
  /\ _sessionId (stateOf r) = Some sid
  /\ reconnectAttempts (stateOf r) = 0
  /\ isReady (stateOf r) = true
  /\ pendingRequests (stateOf r) = pendingRequests t
  /\ stream (stateOf r) = stream t
  /\ In (Emit ev_connected) (effectsOf r).
Proof.
  intros M. cbv zeta. unfold handleEndpointEvent. rewrite M. run_M.
  rewrite setState_eq.
  match goal with
  | |- context [processQueuedMessages JSON_stringify ?t1] =>
      destruct (processQueuedMessages_shape JSON_stringify t1)
        as [(A1 & A2 & A3 & A4 & A5 & A6 & A7 & A8 & A9 & A10) B];
      pose proof (sameButQueue_isReady t1 _
                    (proj1 (processQueuedMessages_shape JSON_stringify t1)))
        as RD;
      unfold stateOf, effectsOf in *;
      destruct (processQueuedMessages JSON_stringify t1) as [[[] t2] e2]
  end.
  cbn [fst snd] in *.
  repeat split; try assumption.
  rewrite !in_app_iff. cbn [In]. auto 10.
Qed.

End StreamData.

(** X21.  The listener of the stream's [data] event against the parser on
    its own.  As long as the server sends no [reconnect] event, the chunks
    that arrive, one listener call each, leave the transport's parser as
    [feed] on each chunk in turn does, and the transport handles the events
    that the parser emits, in the order of emission, as if they had been
    handed to [handleSSEEvent] one by one. *)
Theorem stream_data_refines_parser
    (JSON_parse : string -> Json + string) (JSON_stringify : Json -> string)
    (chunks : list string) (t : ZitiSSETransport) :
  let fed := Parser.feedAll (sseParser t) chunks in
  let handled := Run.handleAll JSON_parse JSON_stringify (snd fed) t in
  noReconnectEvent (snd fed) = true ->
  Run.dataAll JSON_parse JSON_stringify chunks t
  = (tt, set_sseParser (fst fed) (stateOf handled), effectsOf handled).
Proof. cbv zeta. apply dataAll_feedAll. Qed.

Lemma stream_data_refines_parser_witness :
  let t := Transport.new Sample.noReconnect "test-service" None None in
  let chunks :=
    ["HTTP/1.1 200 OK" ++ String JS.CR (String JS.LF (String JS.CR ""));
     String JS.LF "" ++ "event: endpoint" ++ String JS.LF ""
       ++ "data: /message?sessionId=sess123" ++ String JS.LF "";
     String JS.LF "" ++ "data: " ++ Sample.responseText
       ++ String JS.LF (String JS.LF "")] in
  List.length (snd (Parser.feedAll (sseParser t) chunks)) = 2
  /\ Run.dataAll Sample.parse Sample.stringify chunks t
     = (tt,
        set_sseParser (fst (Parser.feedAll (sseParser t) chunks))
          (stateOf (Run.handleAll Sample.parse Sample.stringify
                      (snd (Parser.feedAll (sseParser t) chunks)) t)),
        effectsOf (Run.handleAll Sample.parse Sample.stringify
                     (snd (Parser.feedAll (sseParser t) chunks)) t)).
Proof.
  intros t chunks. split; [vm_compute; reflexivity|].
  apply (stream_data_refines_parser Sample.parse Sample.stringify chunks t).
  vm_compute. reflexivity.
Defined.

Section StreamChunks.

Variable Buffer_toString : list Byte.byte -> string.
Variable JSON_parse : string -> Json + string.
Variable JSON_stringify : Json -> string.

Lemma chunksAll_dataAll (chunks : list Parser.Chunk) (t : ZitiSSETransport) :
  Run.chunksAll Buffer_toString JSON_parse JSON_stringify chunks t
  = Run.dataAll JSON_parse JSON_stringify
      (map (Parser.chunkData Buffer_toString) chunks) t.
Proof.
  revert t. induction chunks as [|c rest IH]; intros t; [reflexivity|].
  cbn [Run.chunksAll Run.dataAll map]. unfold Transport.bind, onStreamChunk.
  destruct (onStreamData JSON_parse JSON_stringify
              (Parser.chunkData Buffer_toString c) t) as [[[] t1] e1].
  rewrite IH. reflexivity.
Qed.

End StreamChunks.

(** X22.  The handshake, from the chunks of the stream.  The stream hands
    its listener one chunk after the other, a [Buffer] or a string, and
    [feed] decodes each [Buffer] on its own.  When the texts so decoded,
    joined, are an HTTP header block, the first CRLF CRLF, and an
    [endpoint] event whose data line holds a session token, a transport
    with a fresh parser ends CONNECTED and ready with that token as session
    id, the attempt counter at zero, its stream and pending requests as
    they were, and [connected] emitted.  Where the chunks are cut does not
    matter as long as the decoded texts join to that text; a cut inside a
    multi-byte character changes the decoded texts, and is not covered. *)
Theorem handshake_over_stream
    (Buffer_toString : list Byte.byte -> string)
    (JSON_parse : string -> Json + string) (JSON_stringify : Json -> string)
    (chunks : list Parser.Chunk) (h cr path sid : string)
    (t : ZitiSSETransport) :
  sseParser t = Parser.new ->
  String.concat "" (map (Parser.chunkData Buffer_toString) chunks)
  = h ++ JS.CRLFCRLF
      ++ Cycle.text (cr ++ String JS.LF "")
           ["event: endpoint"; "data: " ++ path] ->
  JS.indexOf (h ++ JS.CRLFCRLF) JS.CRLFCRLF = Some (String.length h) ->
  cr = "" \/ cr = String JS.CR "" ->
  JS.includes path JS.LF = false ->
  JS.includes path JS.CR = false ->
  matchSessionId path = Some sid ->
  let r := Run.chunksAll Buffer_toString JSON_parse JSON_stringify chunks t in
  _state (stateOf r) = CONNECTED
  /\ _sessionId (stateOf r) = Some sid
  /\ reconnectAttempts (stateOf r) = 0
  /\ isReady (stateOf r) = true
  /\ pendingRequests (stateOf r) = pendingRequests t
  /\ stream (stateOf r) = stream t
  /\ In (Emit ev_connected) (effectsOf r).
Proof.
  intros P C I CR L R M. cbv zeta.
  rewrite chunksAll_dataAll.
  set (texts := map (Parser.chunkData Buffer_toString) chunks) in *.
  assert (E : snd (Parser.feedAll (sseParser t) texts)
              = [{| type := "endpoint"; data := path; id := None;
                    retry := None |}]).
  { rewrite P, (feedAll_concat Parser.new texts feed_empty_new), C.
    rewrite (feed_new_past_headers _ _ I).
    apply feed_endpoint_cycle; assumption. }
  rewrite (dataAll_feedAll JSON_parse JSON_stringify texts t)
    by (rewrite E; reflexivity).
  rewrite E. cbn [Run.handleAll].
  unfold handleSSEEvent. cbn [type String.eqb Ascii.eqb Bool.eqb].
  pose proof (handleEndpointEvent_session JSON_stringify t
                {| type := "endpoint"; data := path; id := None;
                   retry := None |} sid M) as H.
  cbv zeta in H. unfold Transport.bind, Transport.ret.
  unfold stateOf, effectsOf in *.
  destruct (handleEndpointEvent JSON_stringify
              {| type := "endpoint"; data := path; id := None;
                 retry := None |} t) as [[[] t1] e1].
  cbn [fst snd set_sseParser _state _sessionId reconnectAttempts
       pendingRequests stream isReady] in *.
  rewrite app_nil_r. exact H.
Qed.

Lemma handshake_over_stream_witness :
  let t := Transport.new Sample.noReconnect "test-service" None None in
  let chunks :=
    [Sample.Buffer_from
       ("HTTP/1.1 200 OK" ++ String JS.CR (String JS.LF (String JS.CR "")));
     Sample.Buffer_from
       (String JS.LF "" ++ "event: endpoint" ++ String JS.CR
          (String JS.LF "") ++ "data: /message?sess");
     Parser.ChunkString
       ("ionId=sess123&x=1" ++ String JS.CR (String JS.LF "")
          ++ String JS.CR (String JS.LF ""))] in
  let r := Run.chunksAll Sample.toString_ascii Sample.parse Sample.stringify
             chunks t in
  _state (stateOf r) = CONNECTED /\ _sessionId (stateOf r) = Some "sess123".
Proof.
  intros t chunks r.
  destruct (handshake_over_stream Sample.toString_ascii
              Sample.parse Sample.stringify chunks
              "HTTP/1.1 200 OK" (String JS.CR "")
              "/message?sessionId=sess123&x=1" "sess123" t)
    as (A & B & _);
    [reflexivity | vm_compute; reflexivity | reflexivity | right; reflexivity
    | reflexivity | reflexivity | reflexivity |].
  split; [exact A | exact B].
Defined.

Section AsyncQueueFacts.

Context {T : Type}.
Variable isUndefined : T -> bool.

Lemma wf_new : AsyncQueue.wf isUndefined (@AsyncQueue.new T).
Proof. split; [left|]; reflexivity. Qed.

Lemma wf_call (q : AsyncQueue.Queue T) (c : AsyncQueue.Call T) :
  AsyncQueue.wf isUndefined q ->
  AsyncQueue.pushesDefined isUndefined [c] = true ->
  AsyncQueue.wf isUndefined (fst (AsyncQueue.call isUndefined q c)).
Proof.
  intros [I D] P. destruct q as [its ws]. cbn in *.
  unfold AsyncQueue.wf. destruct c as [x|r| | |]; cbn.
  - destruct ws as [|w ws]; cbn.
    + split; [right; reflexivity|].
      rewrite forallb_app, D. cbn. rewrite andb_true_r in P. rewrite P.
      reflexivity.
    + destruct I as [-> | I]; [|discriminate]. split; [left|]; reflexivity.
  - destruct its as [|i its]; cbn.
    + split; [left|]; reflexivity.
    + cbn in D. apply andb_true_iff in D as [Di D].
      apply negb_true_iff in Di. rewrite Di. cbn.
      destruct I as [I | ->]; [discriminate|]. split; [right; reflexivity|exact D].
  - destruct its as [|i its]; cbn.
    + split; [left; reflexivity | reflexivity].
    + cbn in D. apply andb_true_iff in D as [_ D].
      destruct I as [I | ->]; [discriminate|]. split; [right; reflexivity|exact D].
  - split; [left|]; reflexivity.
  - split; [left|]; reflexivity.
Qed.

Lemma wf_calls (cs : list (AsyncQueue.Call T)) (q : AsyncQueue.Queue T) :
  AsyncQueue.wf isUndefined q ->
  AsyncQueue.pushesDefined isUndefined cs = true ->
  AsyncQueue.wf isUndefined (fst (AsyncQueue.calls isUndefined q cs)).
Proof.
  revert q. induction cs as [|c rest IH]; intros q W P; [exact W|].
  cbn [AsyncQueue.calls].
  unfold AsyncQueue.pushesDefined in P. cbn [forallb] in P.
  apply andb_true_iff in P as [Pc Pr].
  assert (W1 : AsyncQueue.wf isUndefined
                 (fst (AsyncQueue.call isUndefined q c))).
  { apply wf_call; [exact W|].
    unfold AsyncQueue.pushesDefined. cbn [forallb].
    rewrite Pc. reflexivity. }
  destruct (AsyncQueue.call isUndefined q c) as [q1 a]. cbn [fst] in *.
  specialize (IH q1 W1 Pr).
  destruct (AsyncQueue.calls isUndefined q1 rest) as [q2 answers].
  exact IH.
Qed.

(** Items and waiters, from any queue that is well formed. *)
Lemma calls_conserve (cs : list (AsyncQueue.Call T)) (q : AsyncQueue.Queue T) :
  AsyncQueue.wf isUndefined q ->
  AsyncQueue.pushesDefined isUndefined cs = true ->
  AsyncQueue.noClear cs = true ->
  let r := AsyncQueue.calls isUndefined q cs in
  (AsyncQueue.delivered (snd r) ++ AsyncQueue.items (fst r)
   = AsyncQueue.items q ++ AsyncQueue.pushed cs)%list
  /\ (AsyncQueue.served (snd r) ++ AsyncQueue.waiters (fst r)
      = AsyncQueue.waiters q ++ AsyncQueue.waited cs (snd r))%list.
Proof.
  revert q. induction cs as [|c rest IH]; intros q W P N; cbv zeta.
  - cbn. rewrite !app_nil_r. split; reflexivity.
  - cbn [AsyncQueue.calls].
    unfold AsyncQueue.pushesDefined, AsyncQueue.noClear in P, N.
    cbn [forallb] in P, N.
    apply andb_true_iff in P as [Pc Pr]. apply andb_true_iff in N as [Nc Nr].
    assert (W1 : AsyncQueue.wf isUndefined
                   (fst (AsyncQueue.call isUndefined q c))).
    { apply wf_call; [exact W|].
      unfold AsyncQueue.pushesDefined. cbn [forallb].
      rewrite Pc. reflexivity. }
    destruct W as [I D]. destruct q as [its ws]. cbn [AsyncQueue.items
      AsyncQueue.waiters] in *.
    destruct c as [x|r| | |]; [| | |discriminate|].
    + (* push *)
      destruct ws as [|w ws].
      * cbn in W1 |- *.
        specialize (IH _ W1 Pr Nr). cbv zeta in IH.
        destruct (AsyncQueue.calls isUndefined
                    (AsyncQueue.mkQueue (its ++ [x]) []) rest)
          as [q2 answers]. cbn in IH |- *. destruct IH as [A B].
        split; [rewrite A, <- app_assoc; reflexivity | exact B].
      * destruct I as [-> | I]; [|discriminate].
        cbn in W1 |- *.
        specialize (IH _ W1 Pr Nr). cbv zeta in IH.
        destruct (AsyncQueue.calls isUndefined
                    (AsyncQueue.mkQueue [] ws) rest)
          as [q2 answers]. cbn in IH |- *. destruct IH as [A B].
        split; [rewrite A; reflexivity | rewrite B; reflexivity].
    + (* pop *)
      destruct its as [|i its].
      * cbn in W1 |- *.
        specialize (IH _ W1 Pr Nr). cbv zeta in IH.
        destruct (AsyncQueue.calls isUndefined
                    (AsyncQueue.mkQueue [] (ws ++ [r])) rest)
          as [q2 answers]. cbn in IH |- *. destruct IH as [A B].
        split; [exact A | rewrite B, <- app_assoc; reflexivity].
      * cbn in D. apply andb_true_iff in D as [Di D].
        apply negb_true_iff in Di.
        cbn in W1 |- *. rewrite Di in W1 |- *. cbn in W1 |- *.
        specialize (IH _ W1 Pr Nr). cbv zeta in IH.
        destruct (AsyncQueue.calls isUndefined
                    (AsyncQueue.mkQueue its ws) rest)
          as [q2 answers]. cbn in IH |- *. destruct IH as [A B].
        split; [rewrite A; reflexivity | exact B].
    + (* tryPop *)
      destruct its as [|i its].
      * cbn in W1 |- *.
        specialize (IH _ W1 Pr Nr). cbv zeta in IH.
        destruct (AsyncQueue.calls isUndefined
                    (AsyncQueue.mkQueue [] ws) rest)
          as [q2 answers]. cbn in IH |- *. exact IH.
      * cbn in W1 |- *.
        specialize (IH _ W1 Pr Nr). cbv zeta in IH.
        destruct (AsyncQueue.calls isUndefined
                    (AsyncQueue.mkQueue its ws) rest)
          as [q2 answers]. cbn in IH |- *. destruct IH as [A B].
        split; [rewrite A; reflexivity | exact B].
    + (* drain *)
      cbn in W1 |- *.
      specialize (IH _ W1 Pr Nr). cbv zeta in IH.
      destruct (AsyncQueue.calls isUndefined
                  (AsyncQueue.mkQueue [] ws) rest)
        as [q2 answers]. cbn in IH |- *. destruct IH as [A B].
      split; [rewrite <- app_assoc, A; reflexivity | exact B].
Qed.

End AsyncQueueFacts.

(** X23.  The queue never keeps a caller waiting while it holds an item:
    after any sequence of calls on a new queue in which [undefined] is
    never pushed, [items] is empty or [waiters] is empty, and no stored
    item is [undefined]. *)
Theorem queue_has_items_or_waiters {T : Type} (isUndefined : T -> bool)
    (cs : list (AsyncQueue.Call T)) :
  AsyncQueue.pushesDefined isUndefined cs = true ->
  let q := fst (AsyncQueue.calls isUndefined AsyncQueue.new cs) in
  (AsyncQueue.items q = [] \/ AsyncQueue.waiters q = [])
  /\ forallb (fun x => negb (isUndefined x)) (AsyncQueue.items q) = true.
Proof.
  intros P. exact (wf_calls isUndefined cs AsyncQueue.new (wf_new isUndefined) P).
Qed.

Lemma queue_has_items_or_waiters_witness :
  let cs := [AsyncQueue.CallPop 1; AsyncQueue.CallPop 2;
             AsyncQueue.CallPush (Some 10%nat); AsyncQueue.CallPush (Some 11%nat);
             AsyncQueue.CallPush (Some 12%nat); AsyncQueue.CallTryPop;
             AsyncQueue.CallPush (Some 13%nat)] in
  let undef := fun x : option nat =>
                 match x with None => true | Some _ => false end in
  AsyncQueue.waiters (fst (AsyncQueue.calls undef AsyncQueue.new cs)) = []
  /\ ((AsyncQueue.items (fst (AsyncQueue.calls undef AsyncQueue.new cs)) = []
       \/ AsyncQueue.waiters (fst (AsyncQueue.calls undef AsyncQueue.new cs)) = [])
      /\ forallb (fun x => negb (undef x))
           (AsyncQueue.items (fst (AsyncQueue.calls undef AsyncQueue.new cs)))
         = true).
Proof.
  intros cs undef. split; [reflexivity|].
  apply (queue_has_items_or_waiters undef cs). reflexivity.
Defined.

(** X24.  First in, first out, nothing lost.  Over any sequence of [push],
    [pop], [tryPop] and [drain] calls on a new queue in which [undefined]
    is never pushed, the items given out, in the order of the answers,
    followed by the items still stored, are the items pushed, in the order
    of the pushes; and the waiting [pop] calls that a push has served, in
    the order served, followed by those still waiting, are the [pop] calls
    that had to wait, in the order of the calls. *)
Theorem queue_is_first_in_first_out {T : Type} (isUndefined : T -> bool)
    (cs : list (AsyncQueue.Call T)) :
  AsyncQueue.pushesDefined isUndefined cs = true ->
  AsyncQueue.noClear cs = true ->
  let r := AsyncQueue.calls isUndefined AsyncQueue.new cs in
  (AsyncQueue.delivered (snd r) ++ AsyncQueue.items (fst r))%list
  = AsyncQueue.pushed cs
  /\ (AsyncQueue.served (snd r) ++ AsyncQueue.waiters (fst r))%list
     = AsyncQueue.waited cs (snd r).
Proof.
  intros P N.
  exact (calls_conserve isUndefined cs AsyncQueue.new (wf_new isUndefined) P N).
Qed.

Lemma queue_is_first_in_first_out_witness :
  let cs := [AsyncQueue.CallPop 1; AsyncQueue.CallPop 2;
             AsyncQueue.CallPush (Some 10%nat); AsyncQueue.CallPush (Some 11%nat);
             AsyncQueue.CallPush (Some 12%nat); AsyncQueue.CallTryPop;
             AsyncQueue.CallPush (Some 13%nat); AsyncQueue.CallPop 3] in
  let undef := fun x : option nat =>
                 match x with None => true | Some _ => false end in
  let r := AsyncQueue.calls undef AsyncQueue.new cs in
  AsyncQueue.delivered (snd r) = [Some 10; Some 11; Some 12; Some 13]%nat
  /\ (AsyncQueue.delivered (snd r) ++ AsyncQueue.items (fst r))%list
     = AsyncQueue.pushed cs.
Proof.
  intros cs undef r. split; [reflexivity|].
  apply (queue_is_first_in_first_out undef cs); reflexivity.
Defined.
